(** * The Aqua Chemistry orchestration pipeline

    A shallow embedding of [qiskit_aqua_chemistry/aqua_chemistry.py]
    (class [AquaChemistry]) together with the properties of its
    specification.

    Python objects live in an explicit heap, so that aliasing between the
    configuration document and the assembled algorithm parameters can be
    stated.  The methods of [AquaChemistry] are computations in a state and
    exception monad; the state survives an exception, as the attributes of
    a Python instance do.  Calls into collaborators (parser, drivers,
    chemistry operator, algorithm runner, file system) are recorded in a
    chronological event log. *)

From Stdlib Require Import ZArith Ascii String.
From stdpp Require Import base tactics option numbers list strings.

Local Open Scope string_scope.
Local Open Scope list_scope.

(** ** Python values *)

Module Py.

(** Locations of the heap are numbers. *)
Abbreviation loc := nat (only parsing).

(** Immediate values, references to mutable containers of the heap, and
    handles to objects owned by collaborators (molecules, operators,
    parser instances, algorithm inputs). *)
Inductive pyval : Type :=
| VNone
| VBool (b : bool)
| VInt (z : Z)
| VStr (s : string)
| VRef (l : loc)
| VObj (id : nat).

#[global] Instance pyval_eq_dec : EqDecision pyval.
Proof. solve_decision. Defined.

(** A [dict] keeps its insertion order; keys are strings.  *)
Inductive pyobj : Type :=
| ODict (items : list (string * pyval))
| OList (elems : list pyval).

Abbreviation heap := (list pyobj) (only parsing).

Inductive exn : Type :=
| AquaChemistryError (msg : string)
| IndexError (msg : string)
| TypeError (msg : string)
| KeyError (key : string)
| AttributeError (msg : string)
| RecursionError
| SystemError (msg : string)
| Propagated (e : nat).

Inductive outcome (A : Type) : Type :=
| Returns (a : A)
| Raises (e : exn).
Arguments Returns {A} a.
Arguments Raises {A} e.

(** What a collaborator answers: a value, or an exception of its own. *)
Inductive reply (A : Type) : Type :=
| Reply (a : A)
| Throw (e : nat).
Arguments Reply {A} a.
Arguments Throw {A} e.

(** *** Strings *)

(** The double quote character, for the messages that quote a name. *)
Definition dq : string := String (ascii_of_nat 34) EmptyString.

Definition lower_ascii (c : ascii) : ascii :=
  let n := nat_of_ascii c in
  if andb (Nat.leb 65 n) (Nat.leb n 90) then ascii_of_nat (n + 32) else c.

(** [str.lower()] on ASCII text. *)
Fixpoint lower (s : string) : string :=
  match s with
  | EmptyString => EmptyString
  | String c s' => String (lower_ascii c) (lower s')
  end.

Definition is_space (c : ascii) : bool :=
  let n := nat_of_ascii c in
  orb (andb (Nat.leb 9 n) (Nat.leb n 13))
      (orb (andb (Nat.leb 28 n) (Nat.leb n 31)) (Nat.eqb n 32)).

(** [str.rstrip()]. *)
Fixpoint rstrip (s : string) : string :=
  match s with
  | EmptyString => EmptyString
  | String c s' =>
      match rstrip s' with
      | EmptyString => if is_space c then EmptyString else String c EmptyString
      | r => String c r
      end
  end.

Definition is_substring (k s : string) : bool :=
  match String.index 0 k s with
  | Some _ => true
  | None => false
  end.

(** *** Equality and truth *)

Definition bool_to_Z (b : bool) : Z := if b then 1%Z else 0%Z.

(** [==] : booleans compare as the integers 0 and 1; containers and
    foreign objects by identity. *)
Definition py_eqb (a b : pyval) : bool :=
  match a, b with
  | VNone, VNone => true
  | VBool x, VBool y => Bool.eqb x y
  | VInt x, VInt y => Z.eqb x y
  | VBool x, VInt y => Z.eqb (bool_to_Z x) y
  | VInt x, VBool y => Z.eqb x (bool_to_Z y)
  | VStr x, VStr y => String.eqb x y
  | VRef x, VRef y => Nat.eqb x y
  | VObj x, VObj y => Nat.eqb x y
  | _, _ => false
  end.

Definition is_Some_b {A} (o : option A) : bool :=
  match o with
  | Some _ => true
  | None => false
  end.

Definition is_none (v : pyval) : bool :=
  match v with
  | VNone => true
  | _ => false
  end.

(** *** Dictionaries as ordered association lists *)

Fixpoint dict_get (items : list (string * pyval)) (k : string) : option pyval :=
  match items with
  | [] => None
  | (k', v) :: rest => if String.eqb k' k then Some v else dict_get rest k
  end.

Definition dict_has (items : list (string * pyval)) (k : string) : bool :=
  match dict_get items k with
  | Some _ => true
  | None => false
  end.

(** [d[k] = v] : an existing key keeps its position. *)
Fixpoint dict_set (items : list (string * pyval)) (k : string) (v : pyval)
  : list (string * pyval) :=
  match items with
  | [] => [(k, v)]
  | (k', v') :: rest =>
      if String.eqb k' k then (k', v) :: rest else (k', v') :: dict_set rest k v
  end.

Definition dict_del (items : list (string * pyval)) (k : string)
  : list (string * pyval) :=
  List.filter (fun kv => negb (String.eqb (fst kv) k)) items.

Definition dict_keys (items : list (string * pyval)) : list string :=
  map fst items.

(** [isinstance(v, dict)] *)
Definition is_dict (h : heap) (v : pyval) : bool :=
  match v with
  | VRef l =>
      match h !! l with
      | Some (ODict _) => true
      | _ => false
      end
  | _ => false
  end.

(** The references held directly by an object. *)
Definition ref_of (v : pyval) : option loc :=
  match v with
  | VRef l => Some l
  | _ => None
  end.

Definition children (o : pyobj) : list pyval :=
  match o with
  | ODict items => map snd items
  | OList elems => elems
  end.

End Py.

Import Py.

(** ** The configuration document *)

Module Parser.

(** Modelled from the spec: the section record of the [InputParser] class
    ([qiskit_aqua_chemistry.parser], absent from the sources at hand).  A
    section holds an optional raw payload ([data], the raw text of the
    section) and an optional [properties] value, normally a reference to a
    dictionary of the heap. *)
Record sect : Type := {
  s_data : option string;
  s_properties : option pyval
}.

(** Modelled from the spec: the document held by an [InputParser]
    instance, that is the file it was read from (none for an in-memory
    document) and its sections by name, in order. *)
Record document : Type := {
  d_filename : option string;
  d_sections : list (string * sect)
}.

(** Modelled from the spec: the names fixed by [JSONSchema] and
    [InputParser], which the pipeline only uses as keys. *)
Definition NAME : string := "name".
Definition PROBLEM : string := "problem".
Definition DRIVER : string := "driver".
Definition OPERATOR : string := "operator".
Definition AUTO_SUBSTITUTIONS : string := "auto_substitutions".

Fixpoint find_section (secs : list (string * sect)) (name : string) : option sect :=
  match secs with
  | [] => None
  | (n, s) :: rest => if String.eqb n name then Some s else find_section rest name
  end.

(** Modelled from the spec: [get_section(name) -> Section | absent].
    Section names are stored in lower case and a requested name is
    looked up in lower case, which is what makes the comparison with
    [driver_name.lower()] of the pipeline select the section returned
    for [driver_name]. *)
Definition get_section (d : document) (name : string) : option sect :=
  find_section (d_sections d) (lower name).

(** Modelled from the spec: [all_sections() -> mapping]. *)
Definition get_sections (d : document) : list (string * sect) := d_sections d.

Definition get_section_names (d : document) : list string :=
  map fst (d_sections d).

Definition get_filename (d : document) : option string := d_filename d.

(** Modelled from the spec: [get_property(section, key) -> value | absent],
    with [None] for absent. *)
Definition get_section_property (d : document) (h : heap) (section key : string)
  : pyval :=
  match get_section d section with
  | Some s =>
      match s_properties s with
      | Some (VRef l) =>
          match h !! l with
          | Some (ODict items) =>
              match dict_get items key with
              | Some v => v
              | None => VNone
              end
          | _ => VNone
          end
      | _ => VNone
      end
  | None => VNone
  end.

(** Modelled from the spec: the extraction of all properties of a
    section; nothing when the section or its properties are absent. *)
Definition get_section_properties (d : document) (section : string) : option pyval :=
  match get_section d section with
  | Some s => s_properties s
  | None => None
  end.

(** The well-formed documents: every section name is in lower case. *)
Definition lower_case_names (d : document) : Prop :=
  Forall (fun ns => lower (fst ns) = fst ns) (d_sections d).

End Parser.

(** ** The heap operations of the interpreter *)

Module Heap.

(** [c[k]] *)
Definition getitem (h : heap) (c : pyval) (k : string) : outcome pyval :=
  match c with
  | VRef l =>
      match h !! l with
      | Some (ODict items) =>
          match dict_get items k with
          | Some v => Returns v
          | None => Raises (KeyError k)
          end
      | Some (OList _) => Raises (TypeError "list indices must be integers or slices, not str")
      | None => Raises (SystemError "dangling reference")
      end
  | VStr _ => Raises (TypeError "string indices must be integers")
  | _ => Raises (TypeError "object is not subscriptable")
  end.

(** [c[k] = v] *)
Definition setitem (h : heap) (c : pyval) (k : string) (v : pyval) : outcome heap :=
  match c with
  | VRef l =>
      match h !! l with
      | Some (ODict items) => Returns (<[l := ODict (dict_set items k v)]> h)
      | Some (OList _) => Raises (TypeError "list indices must be integers or slices, not str")
      | None => Raises (SystemError "dangling reference")
      end
  | _ => Raises (TypeError "object does not support item assignment")
  end.

(** [del c[k]] *)
Definition delitem (h : heap) (c : pyval) (k : string) : outcome heap :=
  match c with
  | VRef l =>
      match h !! l with
      | Some (ODict items) =>
          if dict_has items k then Returns (<[l := ODict (dict_del items k)]> h)
          else Raises (KeyError k)
      | Some (OList _) => Raises (TypeError "list indices must be integers or slices, not str")
      | None => Raises (SystemError "dangling reference")
      end
  | _ => Raises (TypeError "object does not support item deletion")
  end.

(** [k in c] for a string [k] *)
Definition contains (h : heap) (c : pyval) (k : string) : outcome bool :=
  match c with
  | VRef l =>
      match h !! l with
      | Some (ODict items) => Returns (dict_has items k)
      | Some (OList elems) => Returns (existsb (py_eqb (VStr k)) elems)
      | None => Raises (SystemError "dangling reference")
      end
  | VStr s => Returns (is_substring k s)
  | _ => Raises (TypeError "argument is not iterable")
  end.

(** [y.append(v)] *)
Definition append (h : heap) (y : loc) (v : pyval) : outcome heap :=
  match h !! y with
  | Some (OList elems) => Returns (<[y := OList (elems ++ [v])]> h)
  | Some (ODict _) => Raises (AttributeError "'dict' object has no attribute 'append'")
  | None => Raises (SystemError "dangling reference")
  end.

(** [c.items()] *)
Definition items (h : heap) (c : pyval) : outcome (list (string * pyval)) :=
  match c with
  | VRef l =>
      match h !! l with
      | Some (ODict kvs) => Returns kvs
      | Some (OList _) => Raises (AttributeError "'list' object has no attribute 'items'")
      | None => Raises (SystemError "dangling reference")
      end
  | _ => Raises (AttributeError "object has no attribute 'items'")
  end.

(** What [for x in c] enumerates. *)
Fixpoint chars (s : string) : list pyval :=
  match s with
  | EmptyString => []
  | String c s' => VStr (String c EmptyString) :: chars s'
  end.

Definition iterate (h : heap) (c : pyval) : outcome (list pyval) :=
  match c with
  | VRef l =>
      match h !! l with
      | Some (ODict items) => Returns (map (fun kv => VStr (fst kv)) items)
      | Some (OList elems) => Returns elems
      | None => Raises (SystemError "dangling reference")
      end
  | VStr s => Returns (chars s)
  | _ => Raises (TypeError "object is not iterable")
  end.

(** *** [copy.deepcopy] *)

(** The memo of a deep copy: original object, copy. *)
Abbreviation memo := (list (nat * nat)) (only parsing).

Fixpoint memo_get (m : memo) (l : loc) : option loc :=
  match m with
  | [] => None
  | (a, b) :: rest => if Nat.eqb a l then Some b else memo_get rest l
  end.

Definition copier := pyval -> heap -> memo -> outcome (pyval * heap * memo).

(** [for key, value in x.items(): y[key] = deepcopy(value, memo)] *)
Fixpoint copy_items (cp : copier) (y : loc) (items : list (string * pyval))
  (h : heap) (m : memo) : outcome (heap * memo) :=
  match items with
  | [] => Returns (h, m)
  | (k, v) :: rest =>
      match cp v h m with
      | Raises e => Raises e
      | Returns (v', h1, m1) =>
          match setitem h1 (VRef y) k v' with
          | Raises e => Raises e
          | Returns h2 => copy_items cp y rest h2 m1
          end
      end
  end.

(** [for a in x: y.append(deepcopy(a, memo))] *)
Fixpoint copy_elems (cp : copier) (y : loc) (elems : list pyval)
  (h : heap) (m : memo) : outcome (heap * memo) :=
  match elems with
  | [] => Returns (h, m)
  | v :: rest =>
      match cp v h m with
      | Raises e => Raises e
      | Returns (v', h1, m1) =>
          match append h1 y v' with
          | Raises e => Raises e
          | Returns h2 => copy_elems cp y rest h2 m1
          end
      end
  end.

(** [deepcopy(x, memo)].  Atomic values are returned as they are; an
    object already in the memo is answered by its copy; a container gets
    a new, empty copy, which is entered in the memo and then filled.  The
    nesting depth is bounded by the recursion limit of the interpreter. *)
Fixpoint deepcopy_rec (depth : nat) (x : pyval) (h : heap) (m : memo)
  : outcome (pyval * heap * memo) :=
  match x with
  | VRef l =>
      match memo_get m l with
      | Some y => Returns (VRef y, h, m)
      | None =>
          match depth with
          | O => Raises RecursionError
          | S depth' =>
              match h !! l with
              | None => Raises (SystemError "dangling reference")
              | Some (ODict items) =>
                  let y := length h in
                  match copy_items (deepcopy_rec depth') y items
                          (h ++ [ODict []]) ((l, y) :: m) with
                  | Raises e => Raises e
                  | Returns (h', m') => Returns (VRef y, h', m')
                  end
              | Some (OList elems) =>
                  let y := length h in
                  match copy_elems (deepcopy_rec depth') y elems
                          (h ++ [OList []]) ((l, y) :: m) with
                  | Raises e => Raises e
                  | Returns (h', m') => Returns (VRef y, h', m')
                  end
              end
          end
      end
  | _ => Returns (x, h, m)
  end.

(** [copy.deepcopy(x)] : a new memo for each call. *)
Definition deepcopy (limit : nat) (x : pyval) (h : heap) : outcome (pyval * heap) :=
  match deepcopy_rec limit x h [] with
  | Raises e => Raises e
  | Returns (v, h', _) => Returns (v, h')
  end.

End Heap.

Import Parser.

(** ** Collaborators, instance state and the monad of the methods *)

Section World.

(** The state of everything outside this module: the file system, the
    parser instances, drivers, molecules and operators. *)
Context {X : Type}.

Record world : Type := {
  w_heap : heap;
  w_ext : X
}.

(** An external operation may read and change the heap and the external
    state, and may raise an exception of its own. *)
Definition ext_op (A : Type) : Type := world -> reply A * world.

(** The operations the pipeline consumes.  Objects of the collaborators
    are named by a number [id] and appear in Python values as [VObj id]. *)
Record Externals : Type := {
  (* InputParser *)
  InputParser_new : pyval -> ext_op nat;
  parse : nat -> ext_op unit;
  validate_merge_defaults : nat -> ext_op unit;
  process_substitutions : nat -> pyval -> ext_op pyval;
  save_to_file : nat -> pyval -> ext_op unit;
  (* the document an InputParser instance currently holds *)
  document_of : nat -> X -> document;
  (* ConfigurationManager and the drivers *)
  module_names : list string;
  get_driver_instance : string -> ext_op nat;
  driver_run : nat -> option string -> sect -> ext_op nat;
  (* QMolecule *)
  molecule_log : nat -> ext_op unit;
  molecule_save : nat -> string -> string -> pyval -> ext_op unit;
  (* the chemistry operator *)
  get_chemistry_operator_instance : pyval -> ext_op nat;
  init_params : nat -> pyval -> ext_op unit;
  core_run : nat -> nat -> ext_op nat;
  molecule_info : nat -> X -> pyval;
  process_algorithm_result : nat -> pyval -> ext_op (pyval * pyval);
  (* the algorithm input *)
  to_params : nat -> ext_op pyval;
  configuration_name : nat -> ext_op pyval;
  (* qiskit_aqua *)
  run_algorithm : pyval -> pyval -> ext_op pyval;
  convert_json_to_dict : pyval -> ext_op unit;
  (* files and text *)
  open_read : pyval -> ext_op unit;
  open_write : pyval -> ext_op unit;
  print_to : pyval -> string -> ext_op unit;
  json_dump : pyval -> pyval -> ext_op unit;
  json_load : pyval -> ext_op pyval;
  py_repr : pyval -> world -> string;
  os_path_isabs : string -> bool;
  os_path_abspath : string -> string;
  os_path_join : string -> string -> string;
  os_path_dirname : string -> string;
  os_path_realpath : string -> string;
  (* sys.getrecursionlimit() *)
  recursion_limit : nat
}.

(** The calls and outputs a run leaves behind, oldest first. *)
Inductive event : Type :=
| EvLog (msg : string)
| EvNewParser (input : pyval)
| EvParse (p : nat)
| EvValidate (p : nat)
| EvSubstitute (p : nat) (info : pyval)
| EvSaveToFile (p : nat) (file : pyval)
| EvGetDriver (name : string)
| EvDriverRun (driver : nat) (work_path : option string) (section : sect)
| EvMoleculeLog (molecule : nat)
| EvMoleculeSave (molecule : nat) (origin_driver_name origin_driver_config : string)
    (file : pyval)
| EvGetOperator (name : pyval)
| EvInitParams (core : nat) (properties : pyval)
| EvCoreRun (core molecule : nat)
| EvProcessResult (core : nat) (data : pyval)
| EvToParams (input_object : nat)
| EvConfigurationName (input_object : nat)
| EvRunAlgorithm (params input_object : pyval)
| EvConvert (data : pyval)
| EvOpenRead (file : pyval)
| EvOpenWrite (file : pyval)
| EvPrintTo (file : pyval) (line : string)
| EvClose (file : pyval)
| EvStdout (line : string)
| EvJsonDump (file data : pyval)
| EvJsonLoad (file : pyval).

(** The attributes of an [AquaChemistry] instance, the world and the log. *)
Record state : Type := {
  wld : world;
  _parser : pyval;
  _core : pyval;
  trace : list event
}.

(** The updates of one component. *)
Definition with_world (st : state) (w : world) : state :=
  {| wld := w; _parser := _parser st; _core := _core st; trace := trace st |}.

Definition with_heap (st : state) (h : heap) : state :=
  with_world st {| w_heap := h; w_ext := w_ext (wld st) |}.

Definition with_parser (st : state) (p : pyval) : state :=
  {| wld := wld st; _parser := p; _core := _core st; trace := trace st |}.

Definition with_core (st : state) (c : pyval) : state :=
  {| wld := wld st; _parser := _parser st; _core := c; trace := trace st |}.

Definition logged (st : state) (evs : list event) : state :=
  {| wld := wld st; _parser := _parser st; _core := _core st;
     trace := trace st ++ evs |}.

Definition M (A : Type) : Type := state -> outcome A * state.

Definition ret {A} (a : A) : M A := fun st => (Returns a, st).

Definition raise {A} (e : exn) : M A := fun st => (Raises e, st).

Definition bind {A B} (m : M A) (k : A -> M B) : M B :=
  fun st =>
    match m st with
    | (Returns a, st') => k a st'
    | (Raises e, st') => (Raises e, st')
    end.

(** [try: body finally: handler] *)
Definition finally {A} (body : M A) (handler : M unit) : M A :=
  fun st =>
    match body st with
    | (r, st') =>
        match handler st' with
        | (Returns _, st'') => (r, st'')
        | (Raises e, st'') => (Raises e, st'')
        end
    end.

Definition emit (ev : event) : M unit :=
  fun st => (Returns tt, logged st [ev]).

(** A call to a collaborator: logged, then run on the world. *)
Definition call {A} (ev : event) (f : ext_op A) : M A :=
  fun st =>
    match f (wld st) with
    | (Reply a, w') => (Returns a, with_world (logged st [ev]) w')
    | (Throw e, w') => (Raises (Propagated e), with_world (logged st [ev]) w')
    end.

Definition get_world : M world := fun st => (Returns (wld st), st).

Definition set_heap (h : heap) : M unit :=
  fun st => (Returns tt, with_heap st h).

Definition get_parser : M pyval := fun st => (Returns (_parser st), st).

Definition set_parser (p : pyval) : M unit :=
  fun st => (Returns tt, with_parser st p).

Definition get_core : M pyval := fun st => (Returns (_core st), st).

Definition set_core (c : pyval) : M unit :=
  fun st => (Returns tt, with_core st c).

(** Lifting of an operation of the heap. *)
Definition on_heap {A} (f : heap -> outcome A) : M A :=
  fun st =>
    match f (w_heap (wld st)) with
    | Returns a => (Returns a, st)
    | Raises e => (Raises e, st)
    end.

Definition update_heap (f : heap -> outcome heap) : M unit :=
  bind (on_heap f) set_heap.

(** Allocation of a new container. *)
Definition alloc (o : pyobj) : M pyval :=
  fun st =>
    (Returns (VRef (length (w_heap (wld st)))),
     with_heap st (w_heap (wld st) ++ [o])).

Fixpoint for_each {A} (xs : list A) (body : A -> M unit) : M unit :=
  match xs with
  | [] => ret tt
  | x :: rest => bind (body x) (fun _ => for_each rest body)
  end.

(** [t[i]] on a tuple *)
Definition tuple_get (t : list pyval) (i : nat) : M pyval :=
  match t !! i with
  | Some v => ret v
  | None => raise (IndexError "tuple index out of range")
  end.

End World.

Arguments world X : clear implicits.
Arguments Externals X : clear implicits.
Arguments state X : clear implicits.
Arguments M X A : clear implicits.
Arguments ext_op X A : clear implicits.

Declare Scope py_scope.
Delimit Scope py_scope with py.
Notation "'let*' x ':=' c 'in' k" := (bind c (fun x => k))
  (at level 10, x pattern, c at level 100, k at level 200) : py_scope.
Notation "c ';;' k" := (bind c (fun _ => k))
  (at level 100, k at level 200, right associativity) : py_scope.

(** ** The class [AquaChemistry] *)

Module AquaChemistry.

Section Methods.

Context {X : Type} (E : Externals X).

Local Open Scope py_scope.

Definition KEY_HDF5_OUTPUT : string := "hdf5_output".
Definition _DRIVER_RUN_TO_HDF5 : Z := 1.
Definition _DRIVER_RUN_TO_ALGO_INPUT : Z := 2.

(** *** What the methods ask of the parser and of the interpreter *)

Definition the_document (p : nat) : M X document :=
  let* w := get_world in
  ret (document_of E p (w_ext w)).

Definition get_section_property (p : nat) (section key : string) : M X pyval :=
  let* d := the_document p in
  let* w := get_world in
  ret (Parser.get_section_property d (w_heap w) section key).

(** [p.get_section_properties(section)], an empty mapping when the
    section has none. *)
Definition get_section_properties (p : nat) (section : string) : M X pyval :=
  let* d := the_document p in
  match Parser.get_section_properties d section with
  | Some v => ret v
  | None => alloc (ODict [])
  end.

Definition logger_info (msg : string) : M X unit := emit (EvLog msg).

(** [str(v)] *)
Definition py_str (v : pyval) : M X string :=
  match v with
  | VStr s => ret s
  | _ => let* w := get_world in ret (py_repr E v w)
  end.

Definition format_filename (f : option string) : string :=
  match f with
  | Some s => s
  | None => "None"
  end.

Definition in_names (name : string) (names : list string) : bool :=
  existsb (String.eqb name) names.

(** *** [_run_driver_from_parser], stage by stage *)

(** The messages of lines 183, 189 and 192. *)
Definition missing_property (name section : string) : string :=
  "Property " +:+ dq +:+ name +:+ dq +:+ " missing in section " +:+ dq +:+ section +:+ dq.

Definition missing_driver (driver_name : string) : string :=
  "Driver " +:+ dq +:+ driver_name +:+ dq +:+ " missing in local drivers".

Definition not_a_dictionary : string := "Algorithm run result should be a dictionary".

(** Lines 173 to 177: the description of the experiment is the payload
    of the name section. *)
Definition experiment_name (d : document) : M X string :=
  if in_names NAME (Parser.get_section_names d) then
    match Parser.get_section d NAME with
    | Some name_sect =>
        match s_data name_sect with
        | Some data => ret data
        | None => ret "-- no &NAME section found --"
        end
    | None => raise (TypeError "argument of type 'NoneType' is not iterable")
    end
  else ret "-- no &NAME section found --".

(** Lines 170 to 192: validation, the log of the experiment and the
    resolution of the driver.  Returns [driver_name], [hdf5_file] and the
    section of the driver with its raw payload. *)
Definition resolve_driver (p : nat) : M X (string * pyval * sect * string) :=
  call (EvValidate p) (validate_merge_defaults E p) ;;
  let* d := the_document p in
  let* experiment_name := experiment_name d in
  logger_info ("Running chemistry problem from input file: "
               +:+ format_filename (Parser.get_filename d)) ;;
  logger_info ("Experiment description: " +:+ rstrip experiment_name) ;;
  let* driver_name := get_section_property p DRIVER NAME in
  match driver_name with
  | VNone => raise (AquaChemistryError (missing_property NAME DRIVER))
  | VStr driver_name =>
      let* hdf5_file := get_section_property p DRIVER KEY_HDF5_OUTPUT in
      let* d := the_document p in
      match Parser.get_section d driver_name with
      | None => raise (TypeError "argument of type 'NoneType' is not iterable")
      | Some section =>
          match s_data section with
          | None => raise (AquaChemistryError (missing_property "data" driver_name))
          | Some data =>
              if negb (in_names driver_name (module_names E)) then
                raise (AquaChemistryError (missing_driver driver_name))
              else ret (driver_name, hdf5_file, section, data)
          end
      end
  | _ => raise (TypeError "section name must be a string")
  end.

(** Lines 194 to 197: the directory of the input file, if any. *)
Definition work_path_of (d : document) : option string :=
  match Parser.get_filename d with
  | Some input_file => Some (os_path_dirname E (os_path_realpath E input_file))
  | None => None
  end.

(** Lines 194 to 201: the working directory and the run of the driver. *)
Definition run_driver (p : nat) (driver_name : string) (section : sect)
  : M X (option string * nat) :=
  let* d := the_document p in
  let work_path := work_path_of d in
  let* driver := call (EvGetDriver driver_name) (get_driver_instance E driver_name) in
  let* molecule :=
    call (EvDriverRun driver work_path section) (driver_run E driver work_path section) in
  ret (work_path, molecule).

(** Lines 203 and 204: a relative persistence path is resolved against
    the working directory. *)
Definition resolve_hdf5_file (work_path : option string) (hdf5_file : pyval)
  : M X pyval :=
  match work_path, hdf5_file with
  | Some wp, VStr f =>
      if negb (os_path_isabs E f)
      then ret (VStr (os_path_abspath E (os_path_join E wp f)))
      else ret hdf5_file
  | Some wp, VNone => ret hdf5_file
  | Some wp, _ => raise (TypeError "expected str, bytes or os.PathLike object")
  | None, _ => ret hdf5_file
  end.

(** Lines 208 to 216: the persistence of the molecule.  Answers the
    tuple to return at once, or nothing when the pipeline goes on. *)
Definition persist (hdf5_file : pyval) (driver_name data : string) (molecule : nat)
  (save_json_algo_file : bool) : M X (option (list pyval)) :=
  if negb (is_none hdf5_file) then
    call (EvMoleculeSave molecule driver_name data hdf5_file)
         (molecule_save E molecule driver_name data hdf5_file) ;;
    let* path := py_str hdf5_file in
    let text := "HDF5 file saved '" +:+ path +:+ "'" in
    logger_info text ;;
    if negb save_json_algo_file then
      logger_info "Run ended with hdf5 file saved." ;;
      ret (Some [VInt _DRIVER_RUN_TO_HDF5; VStr text])
    else ret None
  else ret None.

(** Lines 219 to 225: the chemistry operator and the substitutions. *)
Definition run_operator (p : nat) (molecule : nat) : M X nat :=
  let* name := get_section_property p OPERATOR NAME in
  let* core := call (EvGetOperator name) (get_chemistry_operator_instance E name) in
  set_core (VObj core) ;;
  let* properties := get_section_properties p OPERATOR in
  call (EvInitParams core properties) (init_params E core properties) ;;
  let* input_object := call (EvCoreRun core molecule) (core_run E core molecule) in
  let* w := get_world in
  let info := molecule_info E core (w_ext w) in
  call (EvSubstitute p info) (process_substitutions E p info) ;;
  ret input_object.

(** Lines 229 to 233: the sections that are left out. *)
Definition skipped (section_name driver_name : string) (section : sect) : bool :=
  String.eqb section_name NAME
  || String.eqb section_name DRIVER
  || String.eqb section_name (lower driver_name)
  || String.eqb section_name OPERATOR
  || negb (is_Some_b (s_properties section)).

(** Lines 228 to 239: one turn of the loop over the sections. *)
Definition assemble_section (params : pyval) (driver_name : string)
  (entry : string * sect) : M X unit :=
  let section_name := fst entry in
  let section := snd entry in
  if skipped section_name driver_name section then ret tt
  else
    match s_properties section with
    | None => raise (KeyError "properties")
    | Some properties =>
        let* w := get_world in
        match Heap.deepcopy (recursion_limit E) properties (w_heap w) with
        | Raises e => raise e
        | Returns (copy, h) =>
            set_heap h ;;
            update_heap (fun h => Heap.setitem h params section_name copy) ;;
            if String.eqb PROBLEM section_name then
              let* mine := on_heap (fun h => Heap.getitem h params section_name) in
              let* marked := on_heap (fun h => Heap.contains h mine AUTO_SUBSTITUTIONS) in
              if marked then
                let* mine := on_heap (fun h => Heap.getitem h params section_name) in
                update_heap (fun h => Heap.delitem h mine AUTO_SUBSTITUTIONS)
              else ret tt
            else ret tt
        end
    end.

(** Lines 227 to 239: the assembly of the algorithm parameters. *)
Definition assemble_params (p : nat) (driver_name : string) : M X pyval :=
  let* params := alloc (ODict []) in
  let* d := the_document p in
  for_each (Parser.get_sections d) (assemble_section params driver_name) ;;
  ret params.

(** Lines 218 to 241: from the molecule to the input of the algorithm. *)
Definition algorithm_input (p : nat) (driver_name : string) (molecule : nat)
  : M X (list pyval) :=
  let* input_object := run_operator p molecule in
  let* params := assemble_params p driver_name in
  ret [VInt _DRIVER_RUN_TO_ALGO_INPUT; params; VObj input_object].

Definition _run_driver_from_parser (p : pyval) (save_json_algo_file : bool)
  : M X (list pyval) :=
  match p with
  | VNone => raise (AquaChemistryError "Missing parser")
  | VObj p =>
      let* resolved := resolve_driver p in
      match resolved with
      | (driver_name, hdf5_file, section, data) =>
          let* ran := run_driver p driver_name section in
          match ran with
          | (work_path, molecule) =>
              let* hdf5_file := resolve_hdf5_file work_path hdf5_file in
              call (EvMoleculeLog molecule) (molecule_log E molecule) ;;
              let* early :=
                persist hdf5_file driver_name data molecule save_json_algo_file in
              match early with
              | Some answer => ret answer
              | None => algorithm_input p driver_name molecule
              end
          end
      end
  | _ => raise (AttributeError "validate_merge_defaults")
  end.

(** *** The public methods *)

(** Lines 71 to 75 of [run], and the same lines 156 to 160 of
    [_run_drive]: the new parser is assigned to the instance before it
    parses. *)
Definition parse_input (input : pyval) : M X unit :=
  if is_none input then raise (AquaChemistryError "Missing input.")
  else
    let* p := call (EvNewParser input) (InputParser_new E input) in
    set_parser (VObj p) ;;
    call (EvParse p) (parse E p).

Definition _format_result (data : pyval) : M X (pyval * pyval) :=
  let* core := get_core in
  match core with
  | VObj c => call (EvProcessResult c data) (process_algorithm_result E c data)
  | _ => raise (AttributeError "process_algorithm_result")
  end.

(** Lines 94 to 96: [with open(output, 'w') as f], one [print] a line. *)
Definition write_lines (output lines : pyval) : M X unit :=
  call (EvOpenWrite output) (open_write E output) ;;
  finally
    (let* items := on_heap (fun h => Heap.iterate h lines) in
     for_each items (fun line =>
       let* text := py_str line in
       call (EvPrintTo output text) (print_to E output text)))
    (emit (EvClose output)).

(** Lines 81 to 98 of [run]: the algorithm and its result. *)
Definition algorithm_stage (driver_return : list pyval) (output : pyval) : M X pyval :=
  let* params := tuple_get driver_return 1 in
  let* input_object := tuple_get driver_return 2 in
  let* data :=
    call (EvRunAlgorithm params input_object) (run_algorithm E params input_object) in
  let* w := get_world in
  if negb (is_dict (w_heap w) data) then
    raise (AquaChemistryError not_a_dictionary)
  else
    call (EvConvert data) (convert_json_to_dict E data) ;;
    let* formatted := _format_result data in
    match formatted with
    | (lines, result) =>
        logger_info "Processing complete. Final result available" ;;
        update_heap (fun h => Heap.setitem h result "printable" lines) ;;
        (if negb (is_none output) then write_lines output lines else ret tt) ;;
        ret result
    end.

Definition run (input output : pyval) : M X pyval :=
  parse_input input ;;
  let* p := get_parser in
  let* driver_return := _run_driver_from_parser p false in
  let* tag := tuple_get driver_return 0 in
  if py_eqb tag (VInt _DRIVER_RUN_TO_HDF5) then
    logger_info "No further process." ;;
    let* text := tuple_get driver_return 1 in
    let* lines := alloc (OList [text]) in
    alloc (ODict [("printable", lines)])
  else algorithm_stage driver_return output.

Definition save_input (input_file : pyval) : M X unit :=
  let* p := get_parser in
  match p with
  | VNone => raise (AquaChemistryError "Missing input information.")
  | VObj p => call (EvSaveToFile p input_file) (save_to_file E p input_file)
  | _ => raise (AttributeError "save_to_file")
  end.

(** Lines 162 to 164 of [_run_drive]: the declared parameters of the
    algorithm input and its name go under the key [input]. *)
Definition attach_input (driver_return : list pyval) : M X pyval :=
  (* driver_return[1]['input'] = driver_return[2].to_params() *)
  let* input_object := tuple_get driver_return 2 in
  let* declared :=
    match input_object with
    | VObj i => call (EvToParams i) (to_params E i)
    | _ => raise (AttributeError "to_params")
    end in
  let* target := tuple_get driver_return 1 in
  update_heap (fun h => Heap.setitem h target "input" declared) ;;
  (* driver_return[1]['input']['name'] = driver_return[2].configuration['name'] *)
  let* input_object := tuple_get driver_return 2 in
  let* name :=
    match input_object with
    | VObj i => call (EvConfigurationName i) (configuration_name E i)
    | _ => raise (AttributeError "configuration")
    end in
  let* target := tuple_get driver_return 1 in
  let* inner := on_heap (fun h => Heap.getitem h target "input") in
  update_heap (fun h => Heap.setitem h inner "name" name) ;;
  tuple_get driver_return 1.

Definition _run_drive (input : pyval) (save_json_algo_file : bool) : M X pyval :=
  parse_input input ;;
  let* p := get_parser in
  let* driver_return := _run_driver_from_parser p save_json_algo_file in
  attach_input driver_return.

Definition run_drive (input : pyval) : M X pyval := _run_drive input false.

(** Lines 121 to 124: the staged parameters go to the file. *)
Definition dump_json (jsonfile data : pyval) : M X unit :=
  call (EvOpenWrite jsonfile) (open_write E jsonfile) ;;
  finally (call (EvJsonDump jsonfile data) (json_dump E jsonfile data))
          (emit (EvClose jsonfile)) ;;
  let* name := py_str jsonfile in
  emit (EvStdout ("Algorithm input file saved: '" +:+ name +:+ "'")).

Definition run_drive_to_jsonfile (input jsonfile : pyval) : M X unit :=
  if is_none jsonfile then raise (AquaChemistryError "Missing json file")
  else
    let* data := _run_drive input true in
    if is_none data then logger_info "No data to save. No further process."
    else dump_json jsonfile data.

Definition run_algorithm_from_json (params output : pyval) : M X pyval :=
  let* result := call (EvRunAlgorithm params VNone) (run_algorithm E params VNone) in
  let* w := get_world in
  if negb (is_dict (w_heap w) result) then
    raise (AquaChemistryError not_a_dictionary)
  else
    call (EvConvert result) (convert_json_to_dict E result) ;;
    emit (EvStdout "Output:") ;;
    let* w := get_world in
    (if is_dict (w_heap w) result then
       let* items := on_heap (fun h => Heap.items h result) in
       for_each items (fun kv =>
         let* text := py_str (snd kv) in
         emit (EvStdout ("'" +:+ fst kv +:+ "': " +:+ text)))
     else
       let* text := py_str result in
       emit (EvStdout text)) ;;
    ret result.

Definition run_algorithm_from_jsonfile (jsonfile output : pyval) : M X pyval :=
  call (EvOpenRead jsonfile) (open_read E jsonfile) ;;
  finally
    (let* params := call (EvJsonLoad jsonfile) (json_load E jsonfile) in
     run_algorithm_from_json params output)
    (emit (EvClose jsonfile)).

End Methods.

End AquaChemistry.

(** ** Runs that reach the persistence of the molecule *)

Module Drive.

Import AquaChemistry.

Section Drive.

Context {X : Type} (E : Externals X).

(** Lines 203 and 204 on a path: a relative path is resolved against
    the working directory, when there is one. *)
Definition hdf5_path (work_path : option string) (f : string) : string :=
  match work_path with
  | Some wp => if negb (os_path_isabs E f) then os_path_abspath E (os_path_join E wp f) else f
  | None => f
  end.

(** The line that reports the persistence. *)
Definition saved_text (path : string) : string := "HDF5 file saved '" +:+ path +:+ "'".

(** What a run has found once the driver has run and the molecule is
    logged. *)
Record driven : Type := {
  dv_parser : nat;
  dv_name : string;
  dv_hdf5 : pyval;
  dv_section : sect;
  dv_data : string;
  dv_driver : nat;
  dv_molecule : nat;
  dv_document : document;
  dv_world : world X
}.

(** The stages PARSE and VALIDATE succeed on [input] from state [st]:
    the new parser [p] holds the validated document in the world [w]. *)
Inductive validates (input : pyval) (st : state X) (p : nat) (w : world X) : Prop :=
| validates_intro (w0 w1 : world X) :
    is_none input = false ->
    InputParser_new E input (wld st) = (Reply p, w0) ->
    parse E p w0 = (Reply tt, w1) ->
    validate_merge_defaults E p w1 = (Reply tt, w) ->
    validates input st p w.

(** The events of PARSE, VALIDATE and of the log of the experiment. *)
Definition validate_events (input : pyval) (p : nat) (d : document)
  (description : string) : list event :=
  [ EvNewParser input; EvParse p; EvValidate p;
    EvLog ("Running chemistry problem from input file: "
           +:+ format_filename (Parser.get_filename d));
    EvLog ("Experiment description: " +:+ description) ].

(** The stages PARSE, VALIDATE, RESOLVE_DRIVER and RUN_DRIVER succeed on
    [input] from state [st], the driver section of the validated
    document names the driver [dv_name] and gives [dv_hdf5] for the
    persistence path, and the log of the molecule succeeds. *)
Inductive drives (input : pyval) (st : state X) (dv : driven) : Prop :=
| drives_intro (w2 w3 w4 : world X) :
    validates input st (dv_parser dv) w2 ->
    dv_document dv = document_of E (dv_parser dv) (w_ext w2) ->
    Parser.get_section_property (dv_document dv) (w_heap w2) DRIVER NAME
      = VStr (dv_name dv) ->
    Parser.get_section_property (dv_document dv) (w_heap w2) DRIVER KEY_HDF5_OUTPUT
      = dv_hdf5 dv ->
    Parser.get_section (dv_document dv) (dv_name dv) = Some (dv_section dv) ->
    s_data (dv_section dv) = Some (dv_data dv) ->
    in_names (dv_name dv) (module_names E) = true ->
    get_driver_instance E (dv_name dv) w2 = (Reply (dv_driver dv), w3) ->
    driver_run E (dv_driver dv) (work_path_of E (dv_document dv)) (dv_section dv) w3
      = (Reply (dv_molecule dv), w4) ->
    molecule_log E (dv_molecule dv) w4 = (Reply tt, dv_world dv) ->
    drives input st dv.

(** The events of such a run, up to the log of the molecule. *)
Definition drive_events (input : pyval) (dv : driven) (description : string)
  : list event :=
  validate_events input (dv_parser dv) (dv_document dv) description ++
  [ EvGetDriver (dv_name dv);
    EvDriverRun (dv_driver dv) (work_path_of E (dv_document dv)) (dv_section dv);
    EvMoleculeLog (dv_molecule dv) ].

End Drive.

End Drive.

(** ** What a computation maintains *)

Module Rules.

(** The exceptions raised by the operations of the heap. *)
Definition heap_error (e : exn) : Prop :=
  match e with
  | TypeError _ | KeyError _ | AttributeError _ | SystemError _ | IndexError _
  | RecursionError => True
  | AquaChemistryError _ | Propagated _ => False
  end.

Section Rules.

Context {X : Type}.

(** A relation between the state before and after, the events that may
    be logged and the exceptions that may be raised. *)
Record rule : Type := {
  holds : state X -> state X -> Prop;
  admits : event -> Prop;
  permits : exn -> Prop;
  holds_refl : forall st, holds st st;
  holds_trans : forall a b c, holds a b -> holds b c -> holds a c;
  holds_world : forall st w, holds st (with_world st w);
  holds_core : forall st c, holds st (with_core st c);
  holds_logged : forall st ev, admits ev -> holds st (logged st [ev]);
  permits_heap : forall e, heap_error e -> permits e;
  permits_propagated : forall n, permits (Propagated n)
}.

(** [m] follows the rule [F]. *)
Definition follows (F : rule) {A} (m : M X A) : Prop :=
  forall st r st', m st = (r, st') ->
    holds F st st' /\ (forall e, r = Raises e -> permits F e).

(** The attribute [_parser] is not assigned. *)
Definition keeps_parser : rule.
Proof.
  refine {| holds := fun st st' => _parser st' = _parser st;
            admits := fun _ => True;
            permits := fun _ => True |}; try (intros; reflexivity); auto.
  intros a b c Hab Hbc. congruence.
Defined.

(** The log grows by events that satisfy [P]. *)
Definition only_logs (P : event -> Prop) : rule.
Proof.
  refine {| holds := fun st st' =>
              exists evs, trace st' = trace st ++ evs /\ Forall P evs;
            admits := P;
            permits := fun _ => True |}; auto.
  - intros st. exists []. rewrite app_nil_r. auto.
  - intros a b c (e1 & H1 & F1) (e2 & H2 & F2). exists (e1 ++ e2).
    rewrite H2, H1, app_assoc. split; [reflexivity|]. apply Forall_app. auto.
  - intros st w. exists []. simpl. rewrite app_nil_r. auto.
  - intros st c. exists []. simpl. rewrite app_nil_r. auto.
  - intros st ev Hev. exists [ev]. simpl. auto.
Defined.


End Rules.

Arguments rule X : clear implicits.

(** The classes of events the claims speak of. *)
Definition is_driver_event (e : event) : bool :=
  match e with
  | EvGetDriver _ | EvDriverRun _ _ _ => true
  | _ => false
  end.

Definition is_run_algorithm (e : event) : bool :=
  match e with
  | EvRunAlgorithm _ _ => true
  | _ => false
  end.

Definition is_file_write (e : event) : bool :=
  match e with
  | EvOpenWrite _ | EvPrintTo _ _ | EvJsonDump _ _ => true
  | _ => false
  end.

End Rules.

(** ** A small world to run the pipeline in *)

Module Demo.

Import AquaChemistry.

(** The external state of the demonstrations: the document of the one
    parser, and the computed properties of the operator. *)
Record xstate : Type := {
  x_doc : document;
  x_info : pyval
}.

(** The document of the demonstrations, its property maps allocated from
    [base] on: a driver section (with or without a persistence path), the
    section of the PySCF driver, the operator section, a problem section
    that carries the substitution marker, and an algorithm section with a
    nested list. *)
Definition demo_objects (base : nat) (hdf5 : bool) : list pyobj :=
  [ ODict (("name", VStr "PySCF")
           :: (if hdf5 then [("hdf5_output", VStr "molecule.hdf5")] else []));
    ODict [("basis", VStr "sto3g")];
    ODict [("name", VStr "hamiltonian")];
    ODict [("auto_substitutions", VBool true); ("energy", VStr "${computed_energy}")];
    ODict [("name", VStr "VQE"); ("initial_point", VRef (base + 5))];
    OList [VInt 0; VInt 1] ].

Definition demo_document (base : nat) (with_data : bool) : document :=
  {| d_filename := Some "h2.in";
     d_sections :=
       [ ("name", {| s_data := Some "H2 experiment  "; s_properties := None |});
         ("driver", {| s_data := None; s_properties := Some (VRef base) |});
         ("pyscf", {| s_data := if with_data then Some "atom=H .0 .0 .0; H .0 .0 0.735" else None;
                      s_properties := Some (VRef (base + 1)) |});
         ("operator", {| s_data := None; s_properties := Some (VRef (base + 2)) |});
         ("problem", {| s_data := None; s_properties := Some (VRef (base + 3)) |});
         ("algorithm", {| s_data := None; s_properties := Some (VRef (base + 4)) |}) ] |}.

Definition empty_document : document := {| d_filename := None; d_sections := [] |}.

Definition quiet {A} (a : A) : ext_op xstate A := fun w => (Reply a, w).

(** The substitution of the demonstrations writes the computed energy
    into the problem section. *)
Definition demo_substitute (w : world xstate) : reply pyval * world xstate :=
  match Parser.get_section_properties (x_doc (w_ext w)) "problem" with
  | Some problem =>
      match Heap.setitem (w_heap w) problem "energy" (VStr "-1.137") with
      | Returns h => (Reply VNone, {| w_heap := h; w_ext := w_ext w |})
      | Raises _ => (Throw 1, w)
      end
  | None => (Reply VNone, w)
  end.

(** The runner of the demonstrations answers a dictionary, or a string
    when [well_typed] is off. *)
Definition demo_run_algorithm (well_typed : bool) (w : world xstate)
  : reply pyval * world xstate :=
  if well_typed then
    (Reply (VRef (length (w_heap w))),
     {| w_heap := w_heap w ++ [ODict [("energy", VStr "-1.137")]]; w_ext := w_ext w |})
  else (Reply (VStr "-1.137"), w).

Definition demo_process_result (data : pyval) (w : world xstate)
  : reply (pyval * pyval) * world xstate :=
  let n := length (w_heap w) in
  (Reply (VRef n, VRef (S n)),
   {| w_heap := w_heap w ++ [OList [VStr "=== GROUND STATE ENERGY ==="; VStr "-1.137"];
                            ODict [("energy", VStr "-1.137")]];
      w_ext := w_ext w |}).

Definition demo_to_params (w : world xstate) : reply pyval * world xstate :=
  (Reply (VRef (length (w_heap w))),
   {| w_heap := w_heap w ++ [ODict [("qubit_op", VStr "IIZZ")]]; w_ext := w_ext w |}).

(** [hdf5] : the driver section configures a persistence path;
    [with_data] : the section of the driver has its raw payload;
    [registered] : the drivers of the configuration manager;
    [valid] : validation succeeds; [well_typed] : the runner answers a
    dictionary. *)
Definition demo_world (hdf5 with_data : bool) (registered : list string)
  (valid well_typed : bool) : Externals xstate :=
  {| InputParser_new := fun _ => quiet 7;
     parse := fun _ w =>
       (Reply tt,
        {| w_heap := w_heap w ++ demo_objects (length (w_heap w)) hdf5;
           w_ext := {| x_doc := demo_document (length (w_heap w)) with_data;
                       x_info := x_info (w_ext w) |} |});
     validate_merge_defaults := fun _ w => if valid then (Reply tt, w) else (Throw 3, w);
     process_substitutions := fun _ _ => demo_substitute;
     save_to_file := fun _ _ => quiet tt;
     document_of := fun _ x => x_doc x;
     module_names := registered;
     get_driver_instance := fun _ => quiet 11;
     driver_run := fun _ _ _ => quiet 12;
     molecule_log := fun _ => quiet tt;
     molecule_save := fun _ _ _ _ => quiet tt;
     get_chemistry_operator_instance := fun _ => quiet 13;
     init_params := fun _ _ => quiet tt;
     core_run := fun _ _ => quiet 14;
     molecule_info := fun _ x => x_info x;
     process_algorithm_result := fun _ => demo_process_result;
     to_params := fun _ => demo_to_params;
     configuration_name := fun _ => quiet (VStr "EnergyInput");
     run_algorithm := fun _ _ => demo_run_algorithm well_typed;
     convert_json_to_dict := fun _ => quiet tt;
     open_read := fun _ => quiet tt;
     open_write := fun _ => quiet tt;
     print_to := fun _ _ => quiet tt;
     json_dump := fun _ _ => quiet tt;
     json_load := fun _ => quiet (VObj 15);
     py_repr := fun _ _ => "<object>";
     os_path_isabs := fun f => String.prefix "/" f;
     os_path_abspath := fun f => f;
     os_path_join := fun a b => a +:+ "/" +:+ b;
     os_path_dirname := fun _ => "/work";
     os_path_realpath := fun f => f;
     recursion_limit := 1000 |}.

(** A fresh instance in an empty world. *)
Definition fresh : state xstate :=
  {| wld := {| w_heap := []; w_ext := {| x_doc := empty_document; x_info := VObj 16 |} |};
     _parser := VNone;
     _core := VNone;
     trace := [] |}.

(** The worlds of the demonstrations: the driver section with a
    persistence path, and without one. *)
Definition cached : Externals xstate := demo_world true true ["PySCF"] true true.

Definition plain : Externals xstate := demo_world false true ["PySCF"] true true.

(** The world once the document is parsed. *)
Definition parsed_world (hdf5 with_data : bool) : world xstate :=
  {| w_heap := demo_objects 0 hdf5;
     w_ext := {| x_doc := demo_document 0 with_data; x_info := VObj 16 |} |}.

(** The instance once the document is parsed. *)
Definition parsed (hdf5 : bool) : state xstate :=
  {| wld := parsed_world hdf5 true;
     _parser := VObj 7;
     _core := VNone;
     trace := [EvNewParser (VStr "h2.in"); EvParse 7] |}.

(** What the run of the driver finds in the world [cached]. *)
Definition demo_driven : Drive.driven :=
  {| Drive.dv_parser := 7;
     Drive.dv_name := "PySCF";
     Drive.dv_hdf5 := VStr "molecule.hdf5";
     Drive.dv_section :=
       {| s_data := Some "atom=H .0 .0 .0; H .0 .0 0.735";
          s_properties := Some (VRef 1) |};
     Drive.dv_data := "atom=H .0 .0 .0; H .0 .0 0.735";
     Drive.dv_driver := 11;
     Drive.dv_molecule := 12;
     Drive.dv_document := demo_document 0 true;
     Drive.dv_world := parsed_world true true |}.

End Demo.

(** The same document without a persistence path. *)

Module DemoPlain.

Import Drive.

(** What the run of the driver finds in the world [Demo.plain]. *)
Definition plain_driven : driven :=
  {| dv_parser := 7;
     dv_name := "PySCF";
     dv_hdf5 := VNone;
     dv_section := dv_section Demo.demo_driven;
     dv_data := dv_data Demo.demo_driven;
     dv_driver := 11;
     dv_molecule := 12;
     dv_document := Demo.demo_document 0 true;
     dv_world := Demo.parsed_world false true |}.

(** The objects of the document once the substitutions are processed. *)
Definition substituted (hdf5 : bool) : list pyobj :=
  <[3 := ODict [("auto_substitutions", VBool true); ("energy", VStr "-1.137")]]>
    (Demo.demo_objects 0 hdf5).

End DemoPlain.

(** ** Reachability and the mutations of a caller *)

Module Aliasing.

Import Heap.

(** The objects an owner of [v] can get at: an allocated object [v]
    refers to, and whatever the items of such an object lead to. *)
Inductive reach (h : heap) : pyval -> loc -> Prop :=
| reach_here l o :
    h !! l = Some o -> reach h (VRef l) l
| reach_inside l o v l' :
    h !! l = Some o -> v ∈ children o -> reach h v l' -> reach h (VRef l) l'.

(** A value a holder of [roots] can produce: an immediate value, or a
    reference to an object reachable from what is held. *)
Definition obtainable (roots : list pyval) (h : heap) (v : pyval) : Prop :=
  match v with
  | VRef l => exists r, r ∈ roots /\ reach h r l
  | _ => True
  end.

(** One mutation by a caller who holds [roots]: the contents of a
    reachable object are replaced by items the caller can produce, or a
    new object is created from such items, which the caller then holds. *)
Inductive caller_step : list pyval * heap -> list pyval * heap -> Prop :=
| caller_write roots h r l o :
    r ∈ roots -> reach h r l -> Forall (obtainable roots h) (children o) ->
    caller_step (roots, h) (roots, <[l := o]> h)
| caller_new roots h o :
    Forall (obtainable roots h) (children o) ->
    caller_step (roots, h) (VRef (length h) :: roots, h ++ [o]).

(** Any number of mutations. *)
Inductive caller_steps : list pyval * heap -> list pyval * heap -> Prop :=
| caller_done c : caller_steps c c
| caller_more c1 c2 c3 : caller_step c1 c2 -> caller_steps c2 c3 -> caller_steps c1 c3.

(** No object refers to a location that is not allocated. *)
Definition heap_closed (h : heap) : Prop :=
  forall l o l', h !! l = Some o -> VRef l' ∈ children o -> l' < length h.

(** [v] refers to nothing allocated before [n]. *)
Definition is_fresh (n : nat) (v : pyval) : Prop :=
  match v with
  | VRef l => n <= l
  | _ => True
  end.

(** The objects from [n] on only refer to objects from [n] on. *)
Definition young (n : nat) (h : heap) : Prop :=
  forall l o, n <= l -> h !! l = Some o -> Forall (is_fresh n) (children o).

(** [h'] has the objects of [h] below [n]. *)
Definition same_below (n : nat) (h h' : heap) : Prop :=
  forall l, l < n -> h' !! l = h !! l.

(** [v] is immediate, or an object allocated in [[n, b)]. *)
Definition fresh_in (n b : nat) (v : pyval) : Prop :=
  match v with
  | VRef l => n <= l < b
  | _ => True
  end.

(** The state of a deep copy with respect to a fence [n]: the objects
    below the fence are those of [h0], the objects above it and the
    copies of the memo stay above it. *)
Record copying (n : nat) (h0 h : heap) (m : memo) : Prop := {
  cp_old : same_below n h0 h;
  cp_len : n <= length h;
  cp_young : young n h;
  cp_memo : Forall (fun ab => n <= snd ab < length h) m
}.

Definition copier_ok (n : nat) (h0 : heap) (cp : copier) : Prop :=
  forall x h m v h' m',
    copying n h0 h m -> cp x h m = Returns (v, h', m') ->
    copying n h0 h' m' /\ length h <= length h' /\ fresh_in n (length h') v.


(** *** What the loop over the sections maintains *)

(** The names that may appear in the assembled parameters. *)
Definition allowed (sections : list (string * sect)) (driver_name k : string) : Prop :=
  k <> NAME /\ k <> DRIVER /\ k <> OPERATOR /\ k <> lower driver_name
  /\ exists section, (k, section) ∈ sections /\ s_properties section <> None.

(** [AUTO_SUBSTITUTIONS in v] is false. *)
Definition unmarked (h : heap) (v : pyval) : Prop :=
  Heap.contains h v AUTO_SUBSTITUTIONS = Returns false.

(** The heap while the parameters are assembled in the dictionary
    allocated at [n]. *)
Record assembling (n : nat) (sections : list (string * sect)) (driver_name : string)
  (h0 h : heap) : Prop := {
  as_old : same_below n h0 h;
  as_young : young n h;
  as_params : exists items,
    h !! n = Some (ODict items) /\
    forall k v, (k, v) ∈ items ->
      allowed sections driver_name k /\ fresh_in (S n) (length h) v
      /\ (k = PROBLEM -> unmarked h v)
}.

(** What the mutations of a caller maintain, when all they hold is
    above the fence [n]. *)
Definition above (n : nat) (h0 : list pyobj) (c : list pyval * list pyobj) : Prop :=
  same_below n h0 (snd c) /\ young n (snd c) /\ Forall (is_fresh n) (fst c)
  /\ n <= length (snd c).

(** The heap once a copy is stored under [name]: as [assembling], but
    the new entry may still carry the marker. *)
Definition stored (n : nat) (sections : list (string * sect)) (dn name : string)
  (copy : pyval) (h0 h : list pyobj) : Prop :=
  same_below n h0 h /\ young n h /\
  exists items,
    h !! n = Some (ODict items) /\ dict_get items name = Some copy /\
    forall k v, (k, v) ∈ items ->
      allowed sections dn k /\ fresh_in (S n) (length h) v
      /\ (k = PROBLEM -> unmarked h v \/ (k = name /\ v = copy)).

(** Only the heap differs. *)
Definition only_heap {X} (st st' : state X) : Prop :=
  w_ext (wld st') = w_ext (wld st) /\ _parser st' = _parser st
  /\ _core st' = _core st /\ trace st' = trace st.

End Aliasing.

(** ** What a caller can observe of a run *)

Module Observation.

Import AquaChemistry.

(** The messages of the [AquaChemistryError]s of the stages up to the
    input of the algorithm (lines 72, 157, 183, 189 and 192), and of
    [run] (with line 83). *)
Definition drive_errors (msg : string) : Prop :=
  msg = "Missing input."
  \/ msg = missing_property NAME DRIVER
  \/ (exists driver_name, msg = missing_property "data" driver_name)
  \/ (exists driver_name, msg = missing_driver driver_name).

Definition run_errors (msg : string) : Prop :=
  drive_errors msg \/ msg = not_a_dictionary.

(** The [AquaChemistryError] of an outcome, if it is one, is among [ok]. *)
Definition documented {A} (ok : string -> Prop) (r : outcome A) : Prop :=
  match r with
  | Raises (AquaChemistryError msg) => ok msg
  | _ => True
  end.

(** The rule of the computations that raise no other
    [AquaChemistryError] than those of [ok]. *)
Definition raises_only {X} (ok : string -> Prop) : Rules.rule X.
Proof.
  refine {| Rules.holds := fun _ _ => True;
            Rules.admits := fun _ => True;
            Rules.permits := fun e =>
              match e with
              | AquaChemistryError msg => ok msg
              | _ => True
              end |}; auto.
  intros [] H; simpl in H; try contradiction; exact I.
Defined.

(** [str(v)] in the world [w]. *)
Definition shown {X} (E : Externals X) (w : world X) (v : pyval) : string :=
  match v with
  | VStr s => s
  | _ => py_repr E v w
  end.

(** The line [run_algorithm_from_json] prints for an item of the result. *)
Definition item_line {X} (E : Externals X) (w : world X) (kv : string * pyval)
  : string :=
  "'" +:+ fst kv +:+ "': " +:+ shown E w (snd kv).

Definition is_molecule_save (e : event) : bool :=
  match e with
  | EvMoleculeSave _ _ _ _ => true
  | _ => false
  end.

(** The events that write a file: the output file of [run], the JSON
    file of the staging, the input file of [save_input] and the HDF5
    file of the molecule. *)
Definition writes_file (e : event) : bool :=
  match e with
  | EvOpenWrite _ | EvPrintTo _ _ | EvJsonDump _ _ | EvSaveToFile _ _
  | EvMoleculeSave _ _ _ _ => true
  | _ => false
  end.

(** The events that write another file than the HDF5 file of the
    molecule. *)
Definition writes_other_file (e : event) : bool :=
  writes_file e && negb (is_molecule_save e).

End Observation.

(** ** The content of an object *)

Module Content.

Import Heap Aliasing.

(** What an owner of [v] sees of it, to a given depth: the values, the
    keys and the order, not the identity of the objects. *)
#[warnings="-register-all"]
Inductive tree : Type :=
| TAtom (v : pyval)
| TDict (items : list (string * tree))
| TList (elems : list tree)
| TCut
| TDangling.

Fixpoint view (depth : nat) (h : heap) (v : pyval) : tree :=
  match depth with
  | O => TCut
  | S depth' =>
      match v with
      | VRef l =>
          match h !! l with
          | Some (ODict items) =>
              TDict (map (fun kv => (fst kv, view depth' h (snd kv))) items)
          | Some (OList elems) => TList (map (view depth' h) elems)
          | None => TDangling
          end
      | _ => TAtom v
      end
  end.

(** A dictionary without the key [k]. *)
Definition without (k : string) (t : tree) : tree :=
  match t with
  | TDict items => TDict (List.filter (fun kt => negb (String.eqb (fst kt) k)) items)
  | _ => t
  end.

(** [v] is immediate or an object below [n]. *)
Definition old (n : nat) (v : pyval) : Prop :=
  match v with
  | VRef a => a < n
  | _ => True
  end.

(** The objects below [n] refer to objects below [n], and their
    dictionaries have each key once. *)
Definition old_closed (n : nat) (h : heap) : Prop :=
  forall l o, l < n -> h !! l = Some o -> Forall (old n) (children o).

Definition distinct_keys (n : nat) (h : heap) : Prop :=
  forall l items, l < n -> h !! l = Some (ODict items) -> NoDup (map fst items).

(** [v'] stands for [v] in the copy: the same immediate value, or the
    copy the memo has of the object. *)
Definition rel (m : memo) (v v' : pyval) : Prop :=
  match v with
  | VRef a => exists b, memo_get m a = Some b /\ v' = VRef b
  | _ => v' = v
  end.

Definition item_rel (m : memo) (kv kv' : string * pyval) : Prop :=
  fst kv = fst kv' /\ rel m (snd kv) (snd kv').

Definition obj_rel (m : memo) (o o' : pyobj) : Prop :=
  match o, o' with
  | ODict items, ODict items' => Forall2 (item_rel m) items items'
  | OList elems, OList elems' => Forall2 (rel m) elems elems'
  | _, _ => False
  end.

(** The copy [b] of [a] is complete. *)
Definition finished (h0 : heap) (m : memo) (h : heap) (a b : nat) : Prop :=
  exists o o', h0 !! a = Some o /\ h !! b = Some o' /\ obj_rel m o o'.

(** The state of a deep copy of objects below [n] in the heap [h0]: the
    objects of [h0] are as they were, the new objects refer to new
    objects, and every copy of the memo is complete unless it is one of
    the copies [pending]. *)
Record inv (n : nat) (h0 : heap) (pending : list nat) (h : heap) (m : memo)
  : Prop := {
  inv_old : forall l, l < length h0 -> h !! l = h0 !! l;
  inv_len : length h0 <= length h;
  inv_sealed : forall l o, length h0 <= l -> h !! l = Some o ->
    Forall (fresh_in (length h0) (length h)) (children o);
  inv_memo : forall a b, memo_get m a = Some b ->
    a < n /\ length h0 <= b < length h /\ (b ∈ pending \/ finished h0 m h a b);
  inv_inj : forall a a' b, memo_get m a = Some b -> memo_get m a' = Some b -> a = a'
}.

Definition ext (m m' : memo) : Prop :=
  forall a b, memo_get m a = Some b -> memo_get m' a = Some b.

Definition newer (k : nat) (m m' : memo) : Prop :=
  forall a b, memo_get m' a = Some b -> memo_get m a = Some b \/ k <= b.

Definition content_ok (n : nat) (h0 : heap) (cp : copier) : Prop :=
  forall pending x h m y h' m',
    inv n h0 pending h m -> old n x -> cp x h m = Returns (y, h', m') ->
    inv n h0 pending h' m' /\ rel m' x y /\ ext m m' /\ newer (length h) m m'
    /\ (forall l, l < length h -> h' !! l = h !! l) /\ length h <= length h'.

(** The objects of [[f, e)] refer to objects of [[f, e)]. *)
Definition block (f e : nat) (h : heap) : Prop :=
  forall l o, f <= l < e -> h !! l = Some o -> Forall (fresh_in f e) (children o).

(** The heap [h] with the substitution marker deleted from the
    dictionary [v], if it is one. *)
Definition stripped (h : heap) (v : pyval) : heap :=
  match v with
  | VRef l =>
      match h !! l with
      | Some (ODict items) => <[l := ODict (dict_del items AUTO_SUBSTITUTIONS)]> h
      | _ => h
      end
  | _ => h
  end.

(** The heap in which the parameters of the section [name] have the
    content of its properties. *)
Definition expected_heap (name : string) (h0 : heap) (properties : pyval) : heap :=
  if String.eqb PROBLEM name then stripped h0 properties else h0.

(** The sections that enter the parameters. *)
Definition included (driver_name : string) (entry : string * sect) : bool :=
  negb (AquaChemistry.skipped (fst entry) driver_name (snd entry)).

(** The item [kv] of the parameters is the copy of the properties of
    the section [entry]: a value of a block of new objects with the
    content expected. *)
Definition entry_ok (n : nat) (h0 h : heap) (entry : string * sect)
  (kv : string * pyval) : Prop :=
  fst kv = fst entry
  /\ exists properties f e,
      s_properties (snd entry) = Some properties
      /\ n < f /\ e <= length h /\ fresh_in f e (snd kv) /\ block f e h
      /\ forall depth,
          view depth h (snd kv) =
            view depth (expected_heap (fst entry) h0 properties) properties.

(** The parameters [params] hold in the heap [h] one item for each
    section of [sections] that is not left out, in the order of the
    sections and under the name of the section, and the item has the
    content that the properties of the section have in [h0] (for the
    problem section, with the substitution marker deleted). *)
Definition carries (driver_name : string) (sections : list (string * sect))
  (h0 h : heap) (params : pyval) : Prop :=
  exists kvs,
    Heap.items h params = Returns kvs
    /\ Forall2
         (fun entry kv =>
            fst kv = fst entry
            /\ exists properties,
                s_properties (snd entry) = Some properties
                /\ forall depth,
                    view depth h (snd kv) =
                      view depth (expected_heap (fst entry) h0 properties) properties)
         (List.filter (included driver_name) sections) kvs.

(** The heap has no dangling reference, its dictionaries have each key
    once, the sections have distinct names and their properties are
    objects of the heap. *)
Definition well_formed (sections : list (string * sect)) (h0 : heap) : Prop :=
  heap_closed h0
  /\ distinct_keys (length h0) h0
  /\ NoDup (map fst sections)
  /\ forall name section properties,
      (name, section) ∈ sections -> s_properties section = Some properties ->
      old (length h0) properties.

(** The heap once the sections [processed] have been through the loop
    of lines 228 to 239, the parameters being the dictionary at [n]. *)
Record filling (n : nat) (h0 : heap) (driver_name : string)
  (processed : list (string * sect)) (h : heap) : Prop := {
  fl_old : forall l, l < n -> h !! l = h0 !! l;
  fl_len : n < length h;
  fl_params : exists items,
    h !! n = Some (ODict items)
    /\ Forall2 (entry_ok n h0 h) (List.filter (included driver_name) processed) items
}.

End Content.

(** * Properties *)

(** ** Deep copies only create new objects *)

Module HeapFacts.

Import Heap Aliasing.

Lemma fresh_in_is_fresh n b v : fresh_in n b v -> is_fresh n v.
Proof. destruct v; simpl; auto. lia. Qed.

Lemma fresh_in_mono n b b' v : b <= b' -> fresh_in n b v -> fresh_in n b' v.
Proof. destruct v; simpl; auto. lia. Qed.

Lemma dict_set_children (P : pyval -> Prop) items k v :
  Forall P (map snd items) -> P v -> Forall P (map snd (dict_set items k v)).
Proof.
  intros Hall Hv. induction items as [|[k' v'] rest IH]; simpl.
  - constructor; auto.
  - simpl in Hall. apply Forall_cons in Hall as [Hv' Hrest].
    destruct (String.eqb k' k); simpl; constructor; auto.
Qed.

Lemma dict_del_children (P : pyval -> Prop) items k :
  Forall P (map snd items) -> Forall P (map snd (dict_del items k)).
Proof.
  unfold dict_del. induction items as [|[k' v'] rest IH]; simpl; intros Hall.
  - constructor.
  - apply Forall_cons in Hall as [Hv' Hrest].
    destruct (negb (String.eqb k' k)); simpl; auto.
Qed.

Lemma memo_get_elem m l y : memo_get m l = Some y -> (l, y) ∈ m.
Proof.
  induction m as [|[a b] rest IH]; simpl; [done|].
  destruct (Nat.eqb a l) eqn:Hal.
  - intros [= <-]. apply Nat.eqb_eq in Hal as ->. left.
  - intros H. right. auto.
Qed.

(** Replacing a young object by one with young items keeps the fence. *)
Lemma overwrite_copying n h0 h m y o :
  copying n h0 h m -> n <= y -> Forall (is_fresh n) (children o) ->
  copying n h0 (<[y := o]> h) m.
Proof.
  intros [Hold Hlen Hyoung Hmemo] Hy Ho. split.
  - intros l Hl. rewrite list_lookup_insert_ne by lia. auto.
  - rewrite length_insert. exact Hlen.
  - intros l o' Hl Hlook.
    destruct (decide (y = l)) as [->|Hne].
    + assert (l < length h) as Hlt.
      { apply lookup_lt_Some in Hlook. rewrite length_insert in Hlook. exact Hlook. }
      rewrite list_lookup_insert_eq in Hlook by exact Hlt.
      injection Hlook as <-. exact Ho.
    + rewrite list_lookup_insert_ne in Hlook by exact Hne. eauto.
  - rewrite length_insert. exact Hmemo.
Qed.

Lemma setitem_copying n h0 h m y k v h' :
  copying n h0 h m -> n <= y -> is_fresh n v ->
  setitem h (VRef y) k v = Returns h' ->
  copying n h0 h' m /\ length h' = length h.
Proof.
  intros Hc Hy Hv. unfold setitem.
  destruct (h !! y) as [[items|elems]|] eqn:Hlook; try done.
  intros [= <-]. split; [|apply length_insert].
  apply overwrite_copying; auto. simpl.
  apply dict_set_children; auto.
  exact (cp_young _ _ _ _ Hc y (ODict items) Hy Hlook).
Qed.

Lemma append_copying n h0 h m y v h' :
  copying n h0 h m -> n <= y -> is_fresh n v ->
  append h y v = Returns h' ->
  copying n h0 h' m /\ length h' = length h.
Proof.
  intros Hc Hy Hv. unfold append.
  destruct (h !! y) as [[items|elems]|] eqn:Hlook; try done.
  intros [= <-]. split; [|apply length_insert].
  apply overwrite_copying; auto. simpl.
  apply Forall_app. split.
  - exact (cp_young _ _ _ _ Hc y (OList elems) Hy Hlook).
  - constructor; auto.
Qed.

Lemma copy_items_ok n h0 cp :
  copier_ok n h0 cp ->
  forall items y h m h' m',
    n <= y -> copying n h0 h m ->
    copy_items cp y items h m = Returns (h', m') ->
    copying n h0 h' m' /\ length h <= length h'.
Proof.
  intros Hcp items. induction items as [|[k v] rest IH]; cbn [copy_items]; intros y h m h' m' Hy Hc.
  - intros [= <- <-]. auto.
  - destruct (cp v h m) as [[[v1 h1] m1]|e] eqn:Hv; [|done].
    destruct (Hcp _ _ _ _ _ _ Hc Hv) as (Hc1 & Hlen1 & Hfresh).
    destruct (setitem h1 (VRef y) k v1) as [h2|e] eqn:Hset; [|done].
    destruct (setitem_copying _ _ _ _ _ _ _ _ Hc1 Hy (fresh_in_is_fresh _ _ _ Hfresh) Hset)
      as [Hc2 Hlen2].
    intros Hrest. destruct (IH _ _ _ _ _ Hy Hc2 Hrest) as [Hc' Hlen'].
    split; [exact Hc'|lia].
Qed.

Lemma copy_elems_ok n h0 cp :
  copier_ok n h0 cp ->
  forall elems y h m h' m',
    n <= y -> copying n h0 h m ->
    copy_elems cp y elems h m = Returns (h', m') ->
    copying n h0 h' m' /\ length h <= length h'.
Proof.
  intros Hcp elems. induction elems as [|v rest IH]; cbn [copy_elems]; intros y h m h' m' Hy Hc.
  - intros [= <- <-]. auto.
  - destruct (cp v h m) as [[[v1 h1] m1]|e] eqn:Hv; [|done].
    destruct (Hcp _ _ _ _ _ _ Hc Hv) as (Hc1 & Hlen1 & Hfresh).
    destruct (append h1 y v1) as [h2|e] eqn:Happ; [|done].
    destruct (append_copying _ _ _ _ _ _ _ Hc1 Hy (fresh_in_is_fresh _ _ _ Hfresh) Happ)
      as [Hc2 Hlen2].
    intros Hrest. destruct (IH _ _ _ _ _ Hy Hc2 Hrest) as [Hc' Hlen'].
    split; [exact Hc'|lia].
Qed.

(** A new, empty container entered in the memo. *)
Lemma start_copying n h0 h m l o :
  copying n h0 h m -> children o = [] ->
  copying n h0 (h ++ [o]) ((l, length h) :: m).
Proof.
  intros [Hold Hlen Hyoung Hmemo] Ho. split.
  - intros l' Hl'. rewrite lookup_app_l by lia. auto.
  - rewrite length_app. simpl. lia.
  - intros l' o' Hl' Hlook.
    destruct (decide (l' < length h)) as [Hlt|Hge].
    + rewrite lookup_app_l in Hlook by exact Hlt. eauto.
    + rewrite lookup_app_r in Hlook by lia.
      destruct (l' - length h) as [|i]; simpl in Hlook; [|done].
      injection Hlook as <-. rewrite Ho. constructor.
  - rewrite length_app. simpl. constructor.
    + simpl. lia.
    + eapply Forall_impl; [exact Hmemo|]. simpl. intros [a b]. simpl. lia.
Qed.

Lemma deepcopy_rec_ok n h0 depth : copier_ok n h0 (deepcopy_rec depth).
Proof.
  induction depth as [|depth IH]; intros x h m v h' m' Hc;
    (destruct x as [| | | |l|]; simpl;
     try (intros [= <- <- <-]; split; [exact Hc|split; [lia|exact I]])).
  - destruct (memo_get m l) as [y|] eqn:Hm; [|done].
    intros [= <- <- <-]. split; [exact Hc|split; [lia|]].
    apply memo_get_elem in Hm.
    pose proof (cp_memo _ _ _ _ Hc) as Hmemo.
    rewrite Forall_forall in Hmemo. exact (Hmemo _ Hm).
  - destruct (memo_get m l) as [y|] eqn:Hm.
    + intros [= <- <- <-]. split; [exact Hc|split; [lia|]].
      apply memo_get_elem in Hm.
      pose proof (cp_memo _ _ _ _ Hc) as Hmemo.
      rewrite Forall_forall in Hmemo. exact (Hmemo _ Hm).
    + pose proof (cp_len _ _ _ _ Hc) as Hlen.
      destruct (h !! l) as [[items|elems]|] eqn:Hlook; [| |done].
      * destruct (copy_items _ _ _ _ _) as [[h1 m1]|e] eqn:Hitems; [|done].
        intros [= <- <- <-].
        apply (copy_items_ok n h0 _ IH) in Hitems as [Hc1 Hlen1];
          [|exact Hlen|apply start_copying; auto].
        rewrite length_app in Hlen1. simpl in Hlen1.
        split; [exact Hc1|split; simpl; lia].
      * destruct (copy_elems _ _ _ _ _) as [[h1 m1]|e] eqn:Helems; [|done].
        intros [= <- <- <-].
        apply (copy_elems_ok n h0 _ IH) in Helems as [Hc1 Hlen1];
          [|exact Hlen|apply start_copying; auto].
        rewrite length_app in Hlen1. simpl in Hlen1.
        split; [exact Hc1|split; simpl; lia].
Qed.

(** A deep copy leaves every existing object as it was, and answers an
    immediate value or a new object; the new objects only refer to new
    objects. *)
Lemma deepcopy_new limit x h v h' :
  deepcopy limit x h = Returns (v, h') ->
  same_below (length h) h h' /\ young (length h) h'
  /\ length h <= length h' /\ fresh_in (length h) (length h') v.
Proof.
  unfold deepcopy.
  destruct (deepcopy_rec limit x h []) as [[[v1 h1] m1]|e] eqn:Hrec; [|done].
  intros [= <- <-].
  assert (copying (length h) h h []) as Hc.
  { split.
    - intros l _. reflexivity.
    - lia.
    - intros l o Hl Hlook. apply lookup_lt_Some in Hlook. lia.
    - constructor. }
  destruct (deepcopy_rec_ok _ _ _ _ _ _ _ _ _ Hc Hrec) as ([Hold _ Hyoung _] & Hlen & Hfresh).
  auto.
Qed.

(** The same, seen from an older fence. *)
Lemma deepcopy_frame limit x h v h' n h0 :
  deepcopy limit x h = Returns (v, h') ->
  n <= length h -> same_below n h0 h -> young n h ->
  same_below n h0 h' /\ young n h' /\ length h <= length h'
  /\ fresh_in (length h) (length h') v.
Proof.
  intros Hcopy Hn Hold Hyoung.
  destruct (deepcopy_new _ _ _ _ _ Hcopy) as (Hsame & Hy & Hlen & Hfresh).
  split; [|split; [|split]]; auto.
  - intros l Hl. rewrite Hsame by lia. auto.
  - intros l o Hl Hlook.
    destruct (decide (l < length h)) as [Hlt|Hge].
    + rewrite Hsame in Hlook by exact Hlt. eauto.
    + assert (length h <= l) as Hle by lia.
      eapply Forall_impl; [exact (Hy l o Hle Hlook)|].
      intros [| | | |l'|]; simpl; auto. lia.
Qed.

End HeapFacts.

(** ** The assembly of the algorithm parameters *)

Module AssemblyFacts.

Import Heap Aliasing HeapFacts AquaChemistry.

Lemma dict_get_set_same items k v : dict_get (dict_set items k v) k = Some v.
Proof.
  induction items as [|[k' v'] rest IH]; simpl.
  - rewrite String.eqb_refl. reflexivity.
  - destruct (String.eqb k' k) eqn:Hk; simpl; rewrite Hk; auto.
Qed.

Lemma dict_set_elem items k v k' v' :
  (k', v') ∈ dict_set items k v -> (k', v') ∈ items \/ (k' = k /\ v' = v).
Proof.
  induction items as [|[k0 v0] rest IH]; simpl.
  - intros Hin. apply list_elem_of_singleton in Hin. injection Hin as -> ->. auto.
  - destruct (String.eqb k0 k) eqn:Hk.
    + apply String.eqb_eq in Hk as ->.
      intros Hin. apply elem_of_cons in Hin as [Heq|Hin].
      * injection Heq as -> ->. auto.
      * left. right. exact Hin.
    + intros Hin. apply elem_of_cons in Hin as [Heq|Hin].
      * left. rewrite Heq. left.
      * destruct (IH Hin) as [Hold|Hnew]; auto. left. right. exact Hold.
Qed.

Lemma dict_has_del items k : dict_has (dict_del items k) k = false.
Proof.
  unfold dict_has, dict_del.
  induction items as [|[k' v'] rest IH]; simpl; auto.
  destruct (String.eqb k' k) eqn:Hk; simpl; auto.
  rewrite Hk. exact IH.
Qed.

(** Membership only looks at the object referred to. *)
Lemma contains_same h h' v k :
  (forall l, v = VRef l -> h' !! l = h !! l) -> contains h' v k = contains h v k.
Proof.
  intros Hsame. destruct v as [| | | |l|]; simpl; auto.
  rewrite (Hsame l eq_refl). reflexivity.
Qed.

Lemma setitem_inv h n k v h' :
  setitem h (VRef n) k v = Returns h' ->
  exists items, h !! n = Some (ODict items) /\ h' = <[n := ODict (dict_set items k v)]> h.
Proof.
  unfold setitem. destruct (h !! n) as [[items|elems]|] eqn:Hn; try done.
  intros ?; simplify_eq. eauto.
Qed.

Lemma delitem_inv h c k h' :
  delitem h c k = Returns h' ->
  exists y items, c = VRef y /\ h !! y = Some (ODict items)
    /\ h' = <[y := ODict (dict_del items k)]> h.
Proof.
  unfold delitem. destruct c as [| | | |y|]; try done.
  destruct (h !! y) as [[items|elems]|] eqn:Hy; try done.
  destruct (dict_has items k); try done.
  intros ?; simplify_eq. eauto.
Qed.

Lemma store_copy limit n sections dn h0 h props copy h1 name h2 :
  assembling n sections dn h0 h ->
  allowed sections dn name ->
  deepcopy limit props h = Returns (copy, h1) ->
  setitem h1 (VRef n) name copy = Returns h2 ->
  stored n sections dn name copy h0 h2 /\ fresh_in (S n) (length h2) copy.
Proof.
  intros [Hold Hyoung (items & Hn & Hitems)] Hname Hcopy Hset.
  assert (n < length h) as Hlt by (eapply lookup_lt_Some; eauto).
  destruct (deepcopy_new _ _ _ _ _ Hcopy) as (Hsame & _ & _ & _).
  assert (n <= length h) as Hle by lia.
  destruct (deepcopy_frame _ _ _ _ _ n h0 Hcopy Hle Hold Hyoung)
    as (Hold1 & Hyoung1 & Hlen1 & Hfresh).
  apply setitem_inv in Hset as (items1 & Hn1 & ->).
  assert (items1 = items) as -> by (rewrite Hsame in Hn1 by exact Hlt; congruence).
  assert (fresh_in (S n) (length h1) copy) as Hfresh'.
  { destruct copy; simpl in *; auto; lia. }
  assert (copying n h0 h1 []) as Hc.
  { split; auto; try lia. }
  assert (Forall (is_fresh n) (children (ODict (dict_set items name copy)))) as Hch.
  { simpl. apply dict_set_children.
    - exact (Hyoung1 n (ODict items) (le_n n) Hn1).
    - destruct copy; simpl in *; auto; lia. }
  destruct (overwrite_copying n h0 h1 [] n _ Hc (le_n n) Hch) as [Hold2 _ Hyoung2 _].
  unfold stored. rewrite !length_insert. split; [|exact Hfresh'].
  split; [exact Hold2|split; [exact Hyoung2|]].
  exists (dict_set items name copy). split; [|split].
  - apply list_lookup_insert_eq. lia.
  - apply dict_get_set_same.
  - intros k v Hin. apply dict_set_elem in Hin as [Hin|[-> ->]].
    + destruct (Hitems k v Hin) as (Hk & Hv & Hmark).
      split; [exact Hk|split].
      * eapply fresh_in_mono; [|exact Hv]. lia.
      * intros Hp. left. unfold unmarked in *. rewrite <- (Hmark Hp).
        apply contains_same. intros l ->. simpl in Hv.
        rewrite list_lookup_insert_ne by lia. apply Hsame. lia.
    + split; [exact Hname|split; [exact Hfresh'|]]. intros _. right. auto.
Qed.

Lemma strip_marker n sections dn name copy h0 h2 h3 :
  stored n sections dn name copy h0 h2 ->
  fresh_in (S n) (length h2) copy ->
  delitem h2 copy AUTO_SUBSTITUTIONS = Returns h3 ->
  assembling n sections dn h0 h3.
Proof.
  intros (Hold & Hyoung & items & Hn & Hget & Hitems) Hfresh Hdel.
  apply delitem_inv in Hdel as (y & its & -> & Hy & ->). simpl in Hfresh.
  assert (n < length h2) as Hlt by (eapply lookup_lt_Some; eauto).
  assert (copying n h0 h2 []) as Hc.
  { split; auto; try lia. }
  assert (Forall (is_fresh n) (children (ODict (dict_del its AUTO_SUBSTITUTIONS)))) as Hch.
  { simpl. apply dict_del_children. apply (Hyoung y (ODict its)); [lia|exact Hy]. }
  assert (n <= y) as Hny by lia.
  destruct (overwrite_copying n h0 h2 [] y _ Hc Hny Hch) as [Hold3 _ Hyoung3 _].
  split; [exact Hold3|exact Hyoung3|].
  exists items. split.
  - rewrite list_lookup_insert_ne by lia. exact Hn.
  - intros k v Hin. destruct (Hitems k v Hin) as (Hk & Hv & Hmark).
    rewrite length_insert. split; [exact Hk|split; [exact Hv|]].
    intros Hp. unfold unmarked in *.
    destruct (decide (v = VRef y)) as [->|Hne].
    + simpl. rewrite list_lookup_insert_eq by lia. rewrite dict_has_del. reflexivity.
    + destruct (Hmark Hp) as [Hun|[_ ->]]; [|congruence].
      rewrite <- Hun. apply contains_same. intros l ->.
      apply list_lookup_insert_ne. congruence.
Qed.

Lemma stored_unmarked n sections dn name copy h0 h2 :
  stored n sections dn name copy h0 h2 ->
  (name = PROBLEM -> unmarked h2 copy) ->
  assembling n sections dn h0 h2.
Proof.
  intros (Hold & Hyoung & items & Hn & Hget & Hitems) Hcopy.
  split; [exact Hold|exact Hyoung|].
  exists items. split; [exact Hn|].
  intros k v Hin. destruct (Hitems k v Hin) as (Hk & Hv & Hmark).
  split; [exact Hk|split; [exact Hv|]].
  intros Hp. destruct (Hmark Hp) as [Hun|[-> ->]]; auto.
Qed.

Lemma stored_getitem n sections dn name copy h0 h2 :
  stored n sections dn name copy h0 h2 -> getitem h2 (VRef n) name = Returns copy.
Proof.
  intros (_ & _ & items & Hn & Hget & _). unfold getitem. rewrite Hn, Hget. reflexivity.
Qed.

Section Loop.

Context {X : Type} (E : Externals X).

Ltac run_monad :=
  repeat progress
    (unfold bind, update_heap, on_heap, set_heap, get_world, ret, raise,
       with_heap, with_world, only_heap);
  cbn [wld w_heap w_ext _parser _core trace fst snd].

Ltac stop := intros ?; simplify_eq; split; [by repeat split|done].

Lemma skipped_false name dn sec :
  skipped name dn sec = false ->
  name <> NAME /\ name <> DRIVER /\ name <> OPERATOR /\ name <> lower dn
  /\ s_properties sec <> None.
Proof.
  unfold skipped. intros H.
  repeat (apply orb_false_iff in H as [H ?]).
  repeat split; try (intros ->; rewrite String.eqb_refl in *; discriminate).
  destruct (s_properties sec); simpl in *; congruence.
Qed.

Lemma assemble_section_step n sections dn h0 name sec (st : state X) r st' :
  (name, sec) ∈ sections ->
  assembling n sections dn h0 (w_heap (wld st)) ->
  assemble_section E (VRef n) dn (name, sec) st = (r, st') ->
  only_heap st st' /\
  (r = Returns tt -> assembling n sections dn h0 (w_heap (wld st'))).
Proof.
  intros Hin Hinv. unfold assemble_section. cbn [fst snd].
  destruct (skipped name dn sec) eqn:Hskip.
  { run_monad. intros ?; simplify_eq. split; [by repeat split|auto]. }
  apply skipped_false in Hskip as (HnN & HnD & HnO & Hndn & Hprops).
  destruct (s_properties sec) as [props|] eqn:Hsec; [|congruence].
  assert (allowed sections dn name) as Hname.
  { repeat split; auto. exists sec. split; [exact Hin|congruence]. }
  destruct st as [[h x] prs cor tr]. cbn [wld w_heap] in Hinv.
  run_monad.
  destruct (deepcopy (recursion_limit E) props h) as [[copy h1]|e] eqn:Hcopy; [|stop].
  run_monad.
  destruct (setitem h1 (VRef n) name copy) as [h2|e] eqn:Hset; [|stop].
  destruct (store_copy _ _ _ _ _ _ _ _ _ _ _ Hinv Hname Hcopy Hset) as [Hstored Hfresh].
  destruct (String.eqb PROBLEM name) eqn:Hproblem; run_monad.
  - rewrite (stored_getitem _ _ _ _ _ _ _ Hstored). run_monad.
    destruct (contains h2 copy AUTO_SUBSTITUTIONS) as [[|]|e] eqn:Hmarked;
      run_monad; [| |stop].
    + rewrite (stored_getitem _ _ _ _ _ _ _ Hstored). run_monad.
      destruct (delitem h2 copy AUTO_SUBSTITUTIONS) as [h3|e] eqn:Hdel; [|stop].
      intros ?; simplify_eq. split; [by repeat split|]. intros _.
      cbn [wld w_heap]. eapply strip_marker; eauto.
    + intros ?; simplify_eq. split; [by repeat split|]. intros _.
      cbn [wld w_heap]. eapply stored_unmarked; eauto.
  - intros ?; simplify_eq. split; [by repeat split|]. intros _.
    cbn [wld w_heap]. eapply stored_unmarked; eauto.
    intros ->. rewrite String.eqb_refl in Hproblem. discriminate.
Qed.

Lemma assemble_loop n sections dn h0 entries :
  forall (st : state X) r st',
    (forall entry, entry ∈ entries -> entry ∈ sections) ->
    assembling n sections dn h0 (w_heap (wld st)) ->
    for_each entries (assemble_section E (VRef n) dn) st = (r, st') ->
    only_heap st st' /\
    (r = Returns tt -> assembling n sections dn h0 (w_heap (wld st'))).
Proof.
  induction entries as [|[name sec] rest IH]; intros st r st' Hsub Hinv; cbn [for_each].
  - unfold ret. intros ?; simplify_eq. split; [by repeat split|auto].
  - unfold bind.
    destruct (assemble_section E (VRef n) dn (name, sec) st) as [[[]|e] st1] eqn:Hstep.
    + apply assemble_section_step with (sections := sections) (h0 := h0) in Hstep
        as [(Hx & Hp & Hc & Ht) Hinv1]; [|apply Hsub; left|exact Hinv].
      intros Hrest. apply IH in Hrest as [(Hx' & Hp' & Hc' & Ht') Hinv'].
      * split; [|exact Hinv']. repeat split; congruence.
      * intros entry Hin. apply Hsub. right. exact Hin.
      * auto.
    + apply assemble_section_step with (sections := sections) (h0 := h0) in Hstep
        as [Hframe _]; [|apply Hsub; left|exact Hinv].
      intros ?; simplify_eq. split; [exact Hframe|done].
Qed.

(** What [assemble_params] leaves: only the heap has changed, and the
    parameters are the dictionary allocated first. *)
Lemma assemble_params_spec p dn (st : state X) r st' :
  assemble_params E p dn st = (r, st') ->
  only_heap st st' /\
  forall params, r = Returns params ->
    params = VRef (length (w_heap (wld st))) /\
    assembling (length (w_heap (wld st)))
      (Parser.get_sections (document_of E p (w_ext (wld st)))) dn
      (w_heap (wld st)) (w_heap (wld st')).
Proof.
  unfold assemble_params, alloc, the_document, get_world, bind, ret.
  cbn [wld w_heap w_ext _parser _core trace fst snd with_heap with_world].
  set (h0 := w_heap (wld st)). set (n := length h0).
  set (sections := Parser.get_sections (document_of E p (w_ext (wld st)))).
  set (st1 := with_heap st (h0 ++ [ODict []])).
  assert (assembling n sections dn h0 (w_heap (wld st1))) as Hinv.
  { subst st1. cbn [with_heap with_world wld w_heap]. split.
    - intros l Hl. apply lookup_app_l. exact Hl.
    - intros l o Hl Hlook.
      assert (l = n) as ->.
      { apply lookup_lt_Some in Hlook. rewrite length_app in Hlook. simpl in Hlook.
        subst n. lia. }
      subst n. rewrite list_lookup_middle in Hlook by reflexivity.
      injection Hlook as <-. constructor.
    - exists []. split.
      + subst n. apply list_lookup_middle. reflexivity.
      + intros k v Hin. inversion Hin. }
  destruct (for_each sections (assemble_section E (VRef n) dn) st1) as [[[]|e] st2] eqn:Hloop;
    apply assemble_loop with (sections := sections) (h0 := h0) in Hloop
      as [(Hx & Hp & Hc & Ht) Hinv2]; auto;
    intros ?; simplify_eq; (split; [by repeat split|]).
  - intros params [= <-]. auto.
  - intros params. done.
Qed.

End Loop.

(** *** Mutations by a caller stay above the fence *)

Lemma reach_allocated h v l : reach h v l -> l < length h.
Proof.
  induction 1 as [l o Hl|l o v l' Hl Hv Hreach IH]; [|exact IH].
  eapply lookup_lt_Some; eauto.
Qed.

Lemma reach_young n h v l : young n h -> is_fresh n v -> reach h v l -> n <= l.
Proof.
  intros Hyoung Hv Hreach. induction Hreach as [l o Hl|l o v l' Hl Hin Hreach IH].
  - exact Hv.
  - apply IH. simpl in Hv.
    pose proof (Hyoung l o Hv Hl) as Hall. rewrite Forall_forall in Hall. auto.
Qed.

Lemma obtainable_fresh n roots h v :
  young n h -> Forall (is_fresh n) roots -> obtainable roots h v -> is_fresh n v.
Proof.
  intros Hyoung Hroots. destruct v as [| | | |l|]; simpl; auto.
  intros (r & Hr & Hreach). rewrite Forall_forall in Hroots.
  eapply reach_young; eauto.
Qed.

Lemma caller_step_above n h0 c c' : above n h0 c -> caller_step c c' -> above n h0 c'.
Proof.
  intros (Hold & Hyoung & Hroots & Hlen) Hstep.
  destruct Hstep as [roots h r l o Hr Hreach Hobj|roots h o Hobj];
    unfold above; cbn [fst snd] in *.
  - assert (n <= l) as Hl.
    { rewrite Forall_forall in Hroots. eapply reach_young; eauto. }
    assert (Forall (is_fresh n) (children o)) as Hch.
    { eapply Forall_impl; [exact Hobj|]. intros v. apply obtainable_fresh; auto. }
    assert (copying n h0 h []) as Hc by (split; auto).
    destruct (overwrite_copying n h0 h [] l o Hc Hl Hch) as [Hold' Hlen' Hyoung' _].
    repeat split; auto.
  - assert (Forall (is_fresh n) (children o)) as Hch.
    { eapply Forall_impl; [exact Hobj|]. intros v. apply obtainable_fresh; auto. }
    repeat split.
    + intros l Hl. rewrite lookup_app_l by lia. auto.
    + intros l o' Hl Hlook.
      destruct (decide (l < length h)) as [Hlt|Hge].
      * rewrite lookup_app_l in Hlook by exact Hlt. eauto.
      * rewrite lookup_app_r in Hlook by lia.
        destruct (l - length h) as [|i]; simpl in Hlook; [|done].
        injection Hlook as <-. exact Hch.
    + constructor; [exact Hlen|exact Hroots].
    + rewrite length_app. lia.
Qed.

Lemma caller_steps_above n h0 c c' : above n h0 c -> caller_steps c c' -> above n h0 c'.
Proof.
  intros Habove Hsteps. induction Hsteps as [c|c1 c2 c3 Hstep Hsteps IH]; auto.
  apply IH. eapply caller_step_above; eauto.
Qed.

(** With no dangling reference below the fence, what is reachable later
    from an old object was reachable before. *)
Lemma reach_back n h0 h v l :
  n = length h0 -> heap_closed h0 -> same_below n h0 h ->
  (forall l0, v = VRef l0 -> l0 < n) ->
  reach h v l -> reach h0 v l.
Proof.
  intros -> Hclosed Hold Hv Hreach.
  induction Hreach as [l o Hl|l o v l' Hl Hin Hreach IH].
  - rewrite Hold in Hl by auto. econstructor; eauto.
  - rewrite Hold in Hl by auto. eapply reach_inside; eauto.
    apply IH. intros l0 ->. eapply Hclosed; eauto.
Qed.

End AssemblyFacts.

(** ** Laws of the monad *)

Module MonadFacts.

Section Laws.

Context {X : Type}.

Lemma call_reply {A} (ev : event) (f : ext_op X A) (st : state X) a w :
  f (wld st) = (Reply a, w) ->
  call ev f st = (Returns a, with_world (logged st [ev]) w).
Proof. unfold call. intros ->. reflexivity. Qed.

Lemma call_throw {A} (ev : event) (f : ext_op X A) (st : state X) e w :
  f (wld st) = (Throw e, w) ->
  call ev f st = (Raises (Propagated e), with_world (logged st [ev]) w).
Proof. unfold call. intros ->. reflexivity. Qed.

Lemma bind_returns {A B} (m : M X A) (k : A -> M X B) st a st1 :
  m st = (Returns a, st1) -> bind m k st = k a st1.
Proof. unfold bind. intros ->. reflexivity. Qed.

Lemma bind_assoc {A B C} (m : M X A) (k1 : A -> M X B) (k2 : B -> M X C) st :
  bind (bind m k1) k2 st = bind m (fun a => bind (k1 a) k2) st.
Proof. unfold bind. destruct (m st) as [[a|e] st1]; reflexivity. Qed.

Lemma bind_inv {A B} (m : M X A) (k : A -> M X B) st b st' :
  bind m k st = (Returns b, st') ->
  exists a st1, m st = (Returns a, st1) /\ k a st1 = (Returns b, st').
Proof.
  unfold bind. destruct (m st) as [[a|e] st1]; [eauto|discriminate].
Qed.

Lemma bind_raises {A B} (m : M X A) (k : A -> M X B) st e st1 :
  m st = (Raises e, st1) -> bind m k st = (Raises e, st1).
Proof. unfold bind. intros ->. reflexivity. Qed.

End Laws.

End MonadFacts.

(** ** Rules of the monad *)

Module RuleFacts.

Import Heap Rules.

Lemma setitem_error h c k v e : setitem h c k v = Raises e -> heap_error e.
Proof.
  unfold setitem. destruct c as [| | | |l|]; try (intros [= <-]; exact I).
  destruct (h !! l) as [[|]|]; intros [= <-]; exact I.
Qed.

Lemma getitem_error h c k e : getitem h c k = Raises e -> heap_error e.
Proof.
  unfold getitem. destruct c as [| | | |l|]; try (intros [= <-]; exact I).
  destruct (h !! l) as [[items|]|]; try (intros [= <-]; exact I).
  destruct (dict_get items k); intros [= <-]; exact I.
Qed.

Lemma delitem_error h c k e : delitem h c k = Raises e -> heap_error e.
Proof.
  unfold delitem. destruct c as [| | | |l|]; try (intros [= <-]; exact I).
  destruct (h !! l) as [[items|]|]; try (intros [= <-]; exact I).
  destruct (dict_has items k); intros [= <-]; exact I.
Qed.

Lemma contains_error h c k e : contains h c k = Raises e -> heap_error e.
Proof.
  unfold contains. destruct c as [| | | |l|]; try (intros [= <-]; exact I); try done.
  destruct (h !! l) as [[|]|]; try done. intros [= <-]; exact I.
Qed.

Lemma append_error h y v e : append h y v = Raises e -> heap_error e.
Proof.
  unfold append. destruct (h !! y) as [[|]|]; try done; intros [= <-]; exact I.
Qed.

Lemma iterate_error h c e : iterate h c = Raises e -> heap_error e.
Proof.
  unfold iterate. destruct c as [| | | |l|]; try (intros [= <-]; exact I); try done.
  destruct (h !! l) as [[|]|]; try done. intros [= <-]; exact I.
Qed.

Lemma items_error h c e : items h c = Raises e -> heap_error e.
Proof.
  unfold items. destruct c as [| | | |l|]; try (intros [= <-]; exact I).
  destruct (h !! l) as [[|]|]; try done; intros [= <-]; exact I.
Qed.

Lemma copy_items_error cp :
  (forall x h m e, cp x h m = Raises e -> heap_error e) ->
  forall items y h m e, copy_items cp y items h m = Raises e -> heap_error e.
Proof.
  intros Hcp items. induction items as [|[k v] rest IH]; cbn [copy_items]; intros y h m e.
  - done.
  - destruct (cp v h m) as [[[v1 h1] m1]|e1] eqn:Hv.
    + destruct (setitem h1 (VRef y) k v1) as [h2|e2] eqn:Hset.
      * apply IH.
      * intros [= <-]. eapply setitem_error; eauto.
    + intros [= <-]. eapply Hcp; eauto.
Qed.

Lemma copy_elems_error cp :
  (forall x h m e, cp x h m = Raises e -> heap_error e) ->
  forall elems y h m e, copy_elems cp y elems h m = Raises e -> heap_error e.
Proof.
  intros Hcp elems. induction elems as [|v rest IH]; cbn [copy_elems]; intros y h m e.
  - done.
  - destruct (cp v h m) as [[[v1 h1] m1]|e1] eqn:Hv.
    + destruct (append h1 y v1) as [h2|e2] eqn:Happ.
      * apply IH.
      * intros [= <-]. eapply append_error; eauto.
    + intros [= <-]. eapply Hcp; eauto.
Qed.

Lemma deepcopy_rec_error depth :
  forall x h m e, deepcopy_rec depth x h m = Raises e -> heap_error e.
Proof.
  induction depth as [|depth IH]; intros x h m e;
    (destruct x as [| | | |l|]; simpl; try done).
  - destruct (memo_get m l); [done|]. intros [= <-]. exact I.
  - destruct (memo_get m l); [done|].
    destruct (h !! l) as [[items|elems]|]; [| |intros [= <-]; exact I].
    + destruct (copy_items _ _ _ _ _) as [[h1 m1]|e1] eqn:Hitems; [done|].
      intros [= <-]. eapply copy_items_error; eauto.
    + destruct (copy_elems _ _ _ _ _) as [[h1 m1]|e1] eqn:Helems; [done|].
      intros [= <-]. eapply copy_elems_error; eauto.
Qed.

Lemma deepcopy_error limit x h e : deepcopy limit x h = Raises e -> heap_error e.
Proof.
  unfold deepcopy.
  destruct (deepcopy_rec limit x h []) as [[[v h1] m1]|e1] eqn:Hrec; [done|].
  intros [= <-]. eapply deepcopy_rec_error; eauto.
Qed.

Section Follows.

Context {X : Type} (F : rule X).

Lemma follows_ret {A} (a : A) : follows F (ret a).
Proof.
  intros st r st' [= <- <-]. split; [apply holds_refl|done].
Qed.

Lemma follows_raise {A} e : permits F e -> follows F (@raise X A e).
Proof.
  intros He st r st' [= <- <-]. split; [apply holds_refl|].
  intros e' [= <-]. exact He.
Qed.

Lemma follows_bind {A B} (m : M X A) (k : A -> M X B) :
  follows F m -> (forall a, follows F (k a)) -> follows F (bind m k).
Proof.
  intros Hm Hk st r st'. unfold bind.
  destruct (m st) as [[a|e] st1] eqn:Hmst.
  - intros Hkst. destruct (Hm _ _ _ Hmst) as [H1 _].
    destruct (Hk a _ _ _ Hkst) as [H2 Hr].
    split; [eapply holds_trans; eauto|exact Hr].
  - intros [= <- <-]. destruct (Hm _ _ _ Hmst) as [H1 Hr].
    split; [exact H1|]. intros e' [= <-]. apply Hr. reflexivity.
Qed.

Lemma follows_emit ev : admits F ev -> follows F (emit ev).
Proof.
  intros Hev st r st' [= <- <-]. split; [apply holds_logged; exact Hev|done].
Qed.

Lemma follows_call {A} ev (f : ext_op X A) : admits F ev -> follows F (call ev f).
Proof.
  intros Hev st r st'. unfold call.
  destruct (f (wld st)) as [[a|e] w]; intros [= <- <-];
    (split; [eapply holds_trans; [apply holds_logged; exact Hev|apply holds_world]|]).
  - done.
  - intros e' [= <-]. apply permits_propagated.
Qed.

Lemma follows_get_world : follows F (@get_world X).
Proof. intros st r st' [= <- <-]. split; [apply holds_refl|done]. Qed.

Lemma follows_get_parser : follows F (@get_parser X).
Proof. intros st r st' [= <- <-]. split; [apply holds_refl|done]. Qed.

Lemma follows_get_core : follows F (@get_core X).
Proof. intros st r st' [= <- <-]. split; [apply holds_refl|done]. Qed.

Lemma follows_set_heap h : follows F (@set_heap X h).
Proof. intros st r st' [= <- <-]. split; [apply holds_world|done]. Qed.

Lemma follows_set_core c : follows F (@set_core X c).
Proof. intros st r st' [= <- <-]. split; [apply holds_core|done]. Qed.

Lemma follows_alloc o : follows F (@alloc X o).
Proof. intros st r st' [= <- <-]. split; [apply holds_world|done]. Qed.

Lemma follows_on_heap {A} (f : list pyobj -> outcome A) :
  (forall h e, f h = Raises e -> heap_error e) -> follows F (@on_heap X A f).
Proof.
  intros Hf st r st'. unfold on_heap.
  destruct (f (w_heap (wld st))) as [a|e] eqn:Hfh; intros [= <- <-];
    (split; [apply holds_refl|]); [done|].
  intros e' [= <-]. apply permits_heap. eapply Hf; eauto.
Qed.

Lemma follows_update_heap (f : list pyobj -> outcome (list pyobj)) :
  (forall h e, f h = Raises e -> heap_error e) -> follows F (@update_heap X f).
Proof.
  intros Hf. unfold update_heap. apply follows_bind.
  - apply follows_on_heap. exact Hf.
  - intros h. apply follows_set_heap.
Qed.

Lemma follows_tuple_get t i : follows F (@tuple_get X t i).
Proof.
  unfold tuple_get. destruct (t !! i).
  - apply follows_ret.
  - apply follows_raise. apply permits_heap. exact I.
Qed.

Lemma follows_for_each {A} (xs : list A) (body : A -> M X unit) :
  (forall x, follows F (body x)) -> follows F (for_each xs body).
Proof.
  intros Hbody. induction xs as [|x rest IH]; cbn [for_each].
  - apply follows_ret.
  - apply follows_bind; [apply Hbody|intros _; exact IH].
Qed.

Lemma follows_finally {A} (body : M X A) (handler : M X unit) :
  follows F body -> follows F handler -> follows F (finally body handler).
Proof.
  intros Hb Hh st r st'. unfold finally.
  destruct (body st) as [r1 st1] eqn:Hbody.
  destruct (Hb _ _ _ Hbody) as [H1 Hr1].
  destruct (handler st1) as [[[]|e] st2] eqn:Hhandler; intros [= <- <-];
    destruct (Hh _ _ _ Hhandler) as [H2 Hr2];
    (split; [eapply holds_trans; eauto|]).
  - exact Hr1.
  - intros e' [= <-]. apply Hr2. reflexivity.
Qed.

End Follows.

End RuleFacts.

(** The side conditions of the rules. *)
Ltac follow_side :=
  cbv beta;
  first
    [ exact I
    | reflexivity
    | discriminate
    | apply Rules.permits_heap; exact I
    | intros; discriminate
    | apply RuleFacts.getitem_error
    | apply RuleFacts.setitem_error
    | apply RuleFacts.delitem_error
    | apply RuleFacts.contains_error
    | apply RuleFacts.iterate_error
    | apply RuleFacts.items_error ].

(** A computation built from the operations of the monad follows a rule
    that its events and exceptions satisfy. *)
Ltac follow :=
  repeat lazymatch goal with
  | |- Rules.follows _ (bind _ _) => apply RuleFacts.follows_bind; [|intros]
  | |- Rules.follows _ (ret _) => apply RuleFacts.follows_ret
  | |- Rules.follows _ (raise _) => apply RuleFacts.follows_raise; follow_side
  | |- Rules.follows _ (emit _) => apply RuleFacts.follows_emit; follow_side
  | |- Rules.follows _ (call _ _) => apply RuleFacts.follows_call; follow_side
  | |- Rules.follows _ get_world => apply RuleFacts.follows_get_world
  | |- Rules.follows _ get_parser => apply RuleFacts.follows_get_parser
  | |- Rules.follows _ get_core => apply RuleFacts.follows_get_core
  | |- Rules.follows _ (set_heap _) => apply RuleFacts.follows_set_heap
  | |- Rules.follows _ (set_core _) => apply RuleFacts.follows_set_core
  | |- Rules.follows _ (alloc _) => apply RuleFacts.follows_alloc
  | |- Rules.follows _ (tuple_get _ _) => apply RuleFacts.follows_tuple_get
  | |- Rules.follows _ (on_heap _) =>
      apply RuleFacts.follows_on_heap; intros ? ?; follow_side
  | |- Rules.follows _ (update_heap _) =>
      apply RuleFacts.follows_update_heap; intros ? ?; follow_side
  | |- Rules.follows _ (for_each _ _) => apply RuleFacts.follows_for_each; intros
  | |- Rules.follows _ (finally _ _) => apply RuleFacts.follows_finally
  | |- Rules.follows _ (match Heap.deepcopy ?l ?x ?h with _ => _ end) =>
      let H := fresh "Hcopy" in
      destruct (Heap.deepcopy l x h) as [[? ?]|?] eqn:H;
      [|apply RuleFacts.follows_raise; apply Rules.permits_heap;
        exact (RuleFacts.deepcopy_error _ _ _ _ H)]
  | |- Rules.follows _ (match ?x with _ => _ end) => destruct x
  | |- Rules.follows _ (let _ := _ in _) => cbv zeta
  | |- Rules.follows _ _ =>
      progress unfold AquaChemistry.the_document, AquaChemistry.get_section_property,
        AquaChemistry.get_section_properties, AquaChemistry.logger_info,
        AquaChemistry.py_str, AquaChemistry.experiment_name,
        AquaChemistry.resolve_driver, AquaChemistry.run_driver,
        AquaChemistry.resolve_hdf5_file, AquaChemistry.persist,
        AquaChemistry.run_operator, AquaChemistry.assemble_section,
        AquaChemistry.assemble_params, AquaChemistry.algorithm_input,
        AquaChemistry._run_driver_from_parser, AquaChemistry._format_result,
        AquaChemistry.write_lines, AquaChemistry.algorithm_stage,
        AquaChemistry.dump_json, AquaChemistry.run_algorithm_from_json,
        AquaChemistry.attach_input
  end.

Module Stability.

Import AquaChemistry Rules RuleFacts.

Section Stability.

Context {X : Type} (E : Externals X).

Lemma run_driver_from_parser_keeps_parser p save :
  follows keeps_parser (_run_driver_from_parser E p save).
Proof. follow. Qed.

(** A call, then computations that only log: the call is the next event. *)
Lemma call_then_logs {A B} (P : event -> Prop) ev (f : ext_op X A)
  (k : A -> M X B) (st : state X) :
  (forall a, follows (only_logs P) (k a)) ->
  exists evs,
    trace (snd (bind (call ev f) k st)) = trace st ++ ev :: evs /\ Forall P evs.
Proof.
  intros Hk. unfold bind, call.
  destruct (f (wld st)) as [[a|e] w].
  - destruct (k a (with_world (logged st [ev]) w)) as [r st1] eqn:Hrun.
    destruct (Hk a _ _ _ Hrun) as [(evs & Htrace & Hevs) _].
    exists evs. cbn [snd]. rewrite Htrace. cbn [trace with_world logged].
    rewrite <- app_assoc. auto.
  - exists []. split; [reflexivity|constructor].
Qed.

(** The first thing [algorithm_input] does is to ask for the operator
    named in the document. *)
Lemma algorithm_input_resolves_operator p dn mol (st : state X) :
  exists evs,
    trace (snd (algorithm_input E p dn mol st)) =
      trace st ++
      EvGetOperator
        (Parser.get_section_property (document_of E p (w_ext (wld st)))
           (w_heap (wld st)) OPERATOR NAME) :: evs.
Proof.
  unfold algorithm_input, run_operator.
  rewrite !MonadFacts.bind_assoc.
  erewrite MonadFacts.bind_returns; [|reflexivity].
  cbv beta. rewrite MonadFacts.bind_assoc.
  edestruct (call_then_logs (A:=nat) (B:=list pyval) (fun _ => True))
    as (evs & Htrace & _); [|eexists; exact Htrace].
  intros core. follow.
Qed.




(** The mapping that [attach_input] returns is one it could write to. *)
Lemma attach_input_returns dr (st : state X) data st' :
  attach_input E dr st = (Returns data, st') ->
  exists l, data = VRef l /\ dr !! 1 = Some data.
Proof.
  unfold attach_input. intros H.
  apply MonadFacts.bind_inv in H as (io & st1 & _ & H).
  apply MonadFacts.bind_inv in H as (declared & st2 & _ & H).
  apply MonadFacts.bind_inv in H as (target & st3 & Htarget & H).
  apply MonadFacts.bind_inv in H as (u & st4 & Hset & H).
  apply MonadFacts.bind_inv in H as (io2 & st5 & _ & H).
  apply MonadFacts.bind_inv in H as (name & st6 & _ & H).
  apply MonadFacts.bind_inv in H as (target2 & st7 & _ & H).
  apply MonadFacts.bind_inv in H as (inner & st8 & _ & H).
  apply MonadFacts.bind_inv in H as (u2 & st9 & _ & H).
  unfold tuple_get in Htarget, H.
  destruct (dr !! 1) as [v|] eqn:Hdr; [|discriminate].
  unfold ret in Htarget, H.
  injection Htarget as -> _. injection H as -> _.
  unfold update_heap in Hset.
  apply MonadFacts.bind_inv in Hset as (h & st10 & Hset & _).
  unfold on_heap, Heap.setitem in Hset.
  destruct data as [| | | |l|]; try discriminate. eauto.
Qed.

(** Once the new parser is assigned, the rest of a run leaves it. *)
Lemma parse_input_assigns input (st : state X) p w0 :
  is_none input = false ->
  InputParser_new E input (wld st) = (Reply p, w0) ->
  parse_input E input st =
    call (EvParse p) (parse E p)
      {| wld := w0; _parser := VObj p; _core := _core st;
         trace := trace st ++ [EvNewParser input] |}.
Proof.
  intros Hin Hnew. unfold parse_input. rewrite Hin.
  unfold bind at 1. unfold call at 1. rewrite Hnew. reflexivity.
Qed.

Lemma assigned_parser_stays {A} input (k : M X A) (st : state X) p w0 :
  is_none input = false ->
  InputParser_new E input (wld st) = (Reply p, w0) ->
  follows keeps_parser k ->
  _parser (snd ((parse_input E input ;; k)%py st)) = VObj p.
Proof.
  intros Hin Hnew Hk. unfold bind. rewrite (parse_input_assigns _ _ _ _ Hin Hnew).
  destruct (call (EvParse p) (parse E p) _) as [[[]|e] st1] eqn:Hparse.
  - destruct (k st1) as [r st2] eqn:Hrest. cbn [snd].
    destruct (Hk _ _ _ Hrest) as [-> _].
    assert (follows keeps_parser (call (EvParse p) (parse E p))) as Hcall by follow.
    destruct (Hcall _ _ _ Hparse) as [-> _]. reflexivity.
  - cbn [snd].
    assert (follows keeps_parser (call (EvParse p) (parse E p))) as Hcall by follow.
    destruct (Hcall _ _ _ Hparse) as [-> _]. reflexivity.
Qed.



End Stability.

End Stability.

(** ** Evaluation of the stages *)

Ltac run_monad :=
  repeat progress
    (unfold bind, update_heap, on_heap, set_heap, get_world, get_parser, get_core,
       set_parser, set_core, emit, alloc, ret, raise, tuple_get,
       with_heap, with_world, with_parser, with_core, logged);
  cbn [wld w_heap w_ext _parser _core trace fst snd negb is_none].


Module Evaluation.

Import AquaChemistry Drive MonadFacts.

Section Evaluation.

Context {X : Type} (E : Externals X).

(** The state after PARSE. *)
Lemma parse_input_reply input (st : state X) p w0 w1 :
  is_none input = false ->
  InputParser_new E input (wld st) = (Reply p, w0) ->
  parse E p w0 = (Reply tt, w1) ->
  parse_input E input st =
    (Returns tt,
     {| wld := w1; _parser := VObj p; _core := _core st;
        trace := trace st ++ [EvNewParser input; EvParse p] |}).
Proof.
  intros Hin Hnew Hparse. unfold parse_input. rewrite Hin.
  unfold bind, call. rewrite Hnew. run_monad. unfold call. cbn [wld]. rewrite Hparse.
  run_monad. rewrite <- app_assoc. reflexivity.
Qed.

Lemma find_section_named secs name :
  in_names name (map fst secs) = true -> exists s, find_section secs name = Some s.
Proof.
  unfold in_names. induction secs as [|[n s] rest IH]; simpl; [done|].
  rewrite (String.eqb_sym name n).
  destruct (String.eqb n name); simpl; eauto.
Qed.

(** The description that is logged: the payload of the name section. *)
Lemma experiment_name_returns (d : document) (st : state X) :
  exists description, experiment_name d st = (Returns description, st).
Proof.
  unfold experiment_name.
  destruct (in_names NAME (Parser.get_section_names d)) eqn:Hin; [|eexists; reflexivity].
  apply find_section_named in Hin as [s Hs].
  unfold Parser.get_section. change (lower NAME) with NAME. rewrite Hs.
  destruct (s_data s); eexists; reflexivity.
Qed.

(** The state after VALIDATE and RESOLVE_DRIVER. *)
Lemma resolve_driver_reply p (st : state X) w2 dn hdf5 sec data :
  validate_merge_defaults E p (wld st) = (Reply tt, w2) ->
  Parser.get_section_property (document_of E p (w_ext w2)) (w_heap w2) DRIVER NAME
    = VStr dn ->
  Parser.get_section_property (document_of E p (w_ext w2)) (w_heap w2) DRIVER
    KEY_HDF5_OUTPUT = hdf5 ->
  Parser.get_section (document_of E p (w_ext w2)) dn = Some sec ->
  s_data sec = Some data ->
  in_names dn (module_names E) = true ->
  exists description,
    resolve_driver E p st =
      (Returns (dn, hdf5, sec, data),
       {| wld := w2; _parser := _parser st; _core := _core st;
          trace := trace st ++
            [EvValidate p;
             EvLog ("Running chemistry problem from input file: "
                    +:+ format_filename
                          (Parser.get_filename (document_of E p (w_ext w2))));
             EvLog ("Experiment description: " +:+ description)] |}).
Proof.
  intros Hval Hname Hhdf5 Hsec Hdata Hreg.
  unfold resolve_driver, get_section_property, the_document, logger_info, call.
  run_monad. rewrite Hval. run_monad.
  match goal with
  | |- context [experiment_name ?d ?s] =>
      destruct (experiment_name_returns d s) as [description Hdesc]; rewrite Hdesc
  end.
  exists (rstrip description). run_monad.
  rewrite Hname. run_monad. rewrite Hhdf5, Hsec, Hdata, Hreg. run_monad.
  rewrite <- !app_assoc. reflexivity.
Qed.

Lemma resolve_hdf5_file_path wp f (st : state X) :
  resolve_hdf5_file E wp (VStr f) st = (Returns (VStr (hdf5_path E wp f)), st).
Proof.
  unfold resolve_hdf5_file, hdf5_path.
  destruct wp as [wp|]; [|reflexivity]. destruct (os_path_isabs E f); reflexivity.
Qed.

Lemma resolve_hdf5_file_none wp (st : state X) :
  resolve_hdf5_file E wp VNone st = (Returns VNone, st).
Proof. destruct wp; reflexivity. Qed.

(** A run that [drives] reaches the persistence stage in this state. *)
Definition driven_state (input : pyval) (st : state X) (dv : driven)
  (description : string) : state X :=
  {| wld := dv_world dv; _parser := VObj (dv_parser dv); _core := _core st;
     trace := trace st ++ drive_events E input dv description |}.

Lemma drives_reaches input (st : state X) (dv : driven) (target : pyval) :
  drives E input st dv ->
  (forall s, resolve_hdf5_file E (work_path_of E (dv_document dv)) (dv_hdf5 dv) s
             = (Returns target, s)) ->
  exists st1 description,
    parse_input E input st = (Returns tt, st1)
    /\ _parser st1 = VObj (dv_parser dv)
    /\ forall save,
         _run_driver_from_parser E (VObj (dv_parser dv)) save st1 =
           (let* early :=
              persist E target (dv_name dv) (dv_data dv) (dv_molecule dv) save in
            match early with
            | Some answer => ret answer
            | None => algorithm_input E (dv_parser dv) (dv_name dv) (dv_molecule dv)
            end)%py (driven_state input st dv description).
Proof.
  intros [w2 w3 w4 [w0 w1 Hin Hnew Hparse Hval] Hdoc Hname Hhdf5 Hsec Hdata Hreg Hget Hrun Hlog]
    Htarget.
  eexists.
  rewrite Hdoc in Hname, Hhdf5, Hsec.
  destruct (resolve_driver_reply (dv_parser dv)
              {| wld := w1; _parser := VObj (dv_parser dv); _core := _core st;
                 trace := trace st ++ [EvNewParser input; EvParse (dv_parser dv)] |}
              w2 _ _ _ _ Hval Hname Hhdf5 Hsec Hdata Hreg) as [description Hres].
  exists description.
  split; [exact (parse_input_reply _ _ _ _ _ Hin Hnew Hparse)|]. split; [reflexivity|].
  intros save. unfold _run_driver_from_parser, run_driver, the_document.
  run_monad. rewrite Hres. run_monad. rewrite <- Hdoc.
  unfold call. run_monad. rewrite Hget. run_monad. rewrite Hrun. run_monad.
  rewrite Htarget. run_monad. rewrite Hlog. run_monad.
  unfold driven_state, drive_events, validate_events.
  rewrite <- !app_assoc. cbn [app]. reflexivity.
Qed.

Lemma persist_saves (f dn data : string) mol save (st : state X) w' :
  molecule_save E mol dn data (VStr f) (wld st) = (Reply tt, w') ->
  persist E (VStr f) dn data mol save st =
    (Returns (if save then None else Some [VInt _DRIVER_RUN_TO_HDF5; VStr (saved_text f)]),
     {| wld := w'; _parser := _parser st; _core := _core st;
        trace := trace st ++
          [EvMoleculeSave mol dn data (VStr f); EvLog (saved_text f)]
          ++ (if save then [] else [EvLog "Run ended with hdf5 file saved."]) |}).
Proof.
  intros Hsave. unfold persist. cbn [is_none negb].
  unfold py_str, logger_info, call. run_monad. rewrite Hsave.
  destruct save; run_monad; rewrite <- !app_assoc; reflexivity.
Qed.

Lemma persist_none dn data mol save (st : state X) :
  persist E VNone dn data mol save st = (Returns None, st).
Proof. reflexivity. Qed.

(** RESOLVE_DRIVER on a validated document, case by case. *)
Lemma resolve_driver_validated p (st : state X) w :
  validate_merge_defaults E p (wld st) = (Reply tt, w) ->
  exists description,
    let d := document_of E p (w_ext w) in
    let st' :=
      {| wld := w; _parser := _parser st; _core := _core st;
         trace := trace st ++
           [EvValidate p;
            EvLog ("Running chemistry problem from input file: "
                   +:+ format_filename (Parser.get_filename d));
            EvLog ("Experiment description: " +:+ description)] |} in
    resolve_driver E p st =
      match Parser.get_section_property d (w_heap w) DRIVER NAME with
      | VNone => (Raises (AquaChemistryError (missing_property NAME DRIVER)), st')
      | VStr dn =>
          match Parser.get_section d dn with
          | None => (Raises (TypeError "argument of type 'NoneType' is not iterable"), st')
          | Some section =>
              match s_data section with
              | None => (Raises (AquaChemistryError (missing_property "data" dn)), st')
              | Some data =>
                  if in_names dn (module_names E) then
                    (Returns
                       (dn,
                        Parser.get_section_property d (w_heap w) DRIVER KEY_HDF5_OUTPUT,
                        section, data), st')
                  else (Raises (AquaChemistryError (missing_driver dn)), st')
              end
          end
      | _ => (Raises (TypeError "section name must be a string"), st')
      end.
Proof.
  intros Hval.
  unfold resolve_driver, get_section_property, the_document, logger_info, call.
  run_monad. rewrite Hval. run_monad.
  match goal with
  | |- context [experiment_name ?d ?s] =>
      destruct (experiment_name_returns d s) as [description Hdesc]; rewrite Hdesc
  end.
  exists (rstrip description). run_monad. rewrite <- !app_assoc. cbn [app].
  destruct (Parser.get_section_property _ _ DRIVER NAME) as [| | |dn| |]; try reflexivity.
  destruct (Parser.get_section _ dn) as [section|]; [|reflexivity].
  destruct (s_data section); [|reflexivity].
  destruct (in_names dn (module_names E)); reflexivity.
Qed.

(** [run] and [_run_drive] after PARSE. *)
Lemma run_parsed input output (st st1 : state X) p :
  parse_input E input st = (Returns tt, st1) ->
  _parser st1 = VObj p ->
  run E input output st =
    (let* driver_return := _run_driver_from_parser E (VObj p) false in
     let* tag := tuple_get driver_return 0 in
     if py_eqb tag (VInt _DRIVER_RUN_TO_HDF5) then
       logger_info "No further process." ;;
       let* text := tuple_get driver_return 1 in
       let* lines := alloc (OList [text]) in
       alloc (ODict [("printable", lines)])
     else algorithm_stage E driver_return output)%py st1.
Proof.
  intros Hparse Hp. unfold run. rewrite (bind_returns _ _ _ _ _ Hparse).
  unfold bind at 1. unfold get_parser. rewrite Hp. reflexivity.
Qed.

Lemma run_drive_parsed input save (st st1 : state X) p :
  parse_input E input st = (Returns tt, st1) ->
  _parser st1 = VObj p ->
  _run_drive E input save st =
    (let* driver_return := _run_driver_from_parser E (VObj p) save in
     attach_input E driver_return)%py st1.
Proof.
  intros Hparse Hp. unfold _run_drive. rewrite (bind_returns _ _ _ _ _ Hparse).
  unfold bind at 1. unfold get_parser. rewrite Hp. reflexivity.
Qed.

(** A run that [drives] and persists: the tuple of the short circuit,
    or the continuation when staging. *)
Lemma drives_persists input (st : state X) (dv : driven) f w :
  drives E input st dv ->
  dv_hdf5 dv = VStr f ->
  molecule_save E (dv_molecule dv) (dv_name dv) (dv_data dv)
    (VStr (hdf5_path E (work_path_of E (dv_document dv)) f)) (dv_world dv)
    = (Reply tt, w) ->
  let path := hdf5_path E (work_path_of E (dv_document dv)) f in
  exists st1 description,
    parse_input E input st = (Returns tt, st1)
    /\ _parser st1 = VObj (dv_parser dv)
    /\ _run_driver_from_parser E (VObj (dv_parser dv)) false st1 =
         (Returns [VInt _DRIVER_RUN_TO_HDF5; VStr (saved_text path)],
          {| wld := w; _parser := VObj (dv_parser dv); _core := _core st;
             trace := trace st ++ drive_events E input dv description ++
               [EvMoleculeSave (dv_molecule dv) (dv_name dv) (dv_data dv) (VStr path);
                EvLog (saved_text path); EvLog "Run ended with hdf5 file saved."] |})
    /\ _run_driver_from_parser E (VObj (dv_parser dv)) true st1 =
         algorithm_input E (dv_parser dv) (dv_name dv) (dv_molecule dv)
          {| wld := w; _parser := VObj (dv_parser dv); _core := _core st;
             trace := trace st ++ drive_events E input dv description ++
               [EvMoleculeSave (dv_molecule dv) (dv_name dv) (dv_data dv) (VStr path);
                EvLog (saved_text path)] |}.
Proof.
  intros Hdrives Hhdf5 Hsave path.
  destruct (drives_reaches input st dv (VStr path) Hdrives) as (st1 & description & Hparse & Hp & Hrun).
  { intros s. rewrite Hhdf5. apply resolve_hdf5_file_path. }
  exists st1, description. split; [exact Hparse|]. split; [exact Hp|].
  rewrite !Hrun. unfold driven_state.
  split.
  - erewrite bind_returns; [|apply persist_saves; exact Hsave].
    cbn [_parser _core trace]. unfold ret. rewrite <- !app_assoc. reflexivity.
  - erewrite bind_returns; [|apply persist_saves; exact Hsave].
    cbn [_parser _core trace app]. rewrite <- !app_assoc. reflexivity.
Qed.

End Evaluation.

End Evaluation.

(** ** Deep copies have the content of the original *)

Module ContentFacts.

Import Heap Aliasing Content.

Lemma rel_ext m m' v v' : ext m m' -> rel m v v' -> rel m' v v'.
Proof.
  intros Hext. destruct v; simpl; auto. intros (b & Hb & ->). eauto.
Qed.

Lemma obj_rel_ext m m' o o' : ext m m' -> obj_rel m o o' -> obj_rel m' o o'.
Proof.
  intros Hext. destruct o as [items|elems], o' as [items'|elems']; simpl; auto.
  - intros H. eapply Forall2_impl; [exact H|].
    intros kv kv' [Hk Hv]. split; [exact Hk|]. eapply rel_ext; eauto.
  - intros H. eapply Forall2_impl; [exact H|]. intros v v'. apply rel_ext. exact Hext.
Qed.

Lemma rel_fresh n h0 pending h m x y :
  inv n h0 pending h m -> rel m x y -> fresh_in (length h0) (length h) y.
Proof.
  intros Hinv. destruct x; simpl; try (intros ->; exact I).
  intros (b & Hb & ->). simpl. apply (inv_memo _ _ _ _ _ Hinv) in Hb. tauto.
Qed.

Lemma ext_trans m1 m2 m3 : ext m1 m2 -> ext m2 m3 -> ext m1 m3.
Proof. unfold ext. eauto. Qed.

Lemma newer_trans k1 k2 m1 m2 m3 :
  k1 <= k2 -> newer k1 m1 m2 -> newer k2 m2 m3 -> newer k1 m1 m3.
Proof.
  intros Hk H12 H23 a b Hb. destruct (H23 _ _ Hb) as [Hb'|Hle]; [auto|right; lia].
Qed.

Lemma dict_set_new acc k v :
  k ∉ map fst acc -> dict_set acc k v = acc ++ [(k, v)].
Proof.
  induction acc as [|[k' v'] rest IH]; simpl; [reflexivity|].
  intros Hnot. destruct (String.eqb k' k) eqn:Heq.
  - apply String.eqb_eq in Heq. subst. exfalso. apply Hnot. left.
  - rewrite IH; [reflexivity|]. intros Hin. apply Hnot. right. exact Hin.
Qed.

(** Writing into a pending copy. *)
Lemma inv_overwrite n h0 pending h m y o :
  inv n h0 (y :: pending) h m -> length h0 <= y ->
  Forall (fresh_in (length h0) (length h)) (children o) ->
  inv n h0 (y :: pending) (<[y := o]> h) m.
Proof.
  intros [Hold Hlen Hsealed Hmemo Hinj] Hy Ho. split; [| | | |exact Hinj].
  - intros l Hl. rewrite list_lookup_insert_ne by lia. auto.
  - rewrite length_insert. exact Hlen.
  - intros l o' Hl Hlook. rewrite length_insert.
    destruct (decide (y = l)) as [->|Hne].
    + assert (l < length h) as Hlt.
      { apply lookup_lt_Some in Hlook. rewrite length_insert in Hlook. exact Hlook. }
      rewrite list_lookup_insert_eq in Hlook by exact Hlt.
      injection Hlook as <-. exact Ho.
    + rewrite list_lookup_insert_ne in Hlook by exact Hne. eauto.
  - intros a b Hb. destruct (Hmemo _ _ Hb) as (Ha & Hrange & Hstate).
    rewrite length_insert. split; [exact Ha|]. split; [exact Hrange|].
    destruct (decide (b = y)) as [->|Hne]; [left; left|].
    destruct Hstate as [Hin|(o1 & o2 & H1 & H2 & Hrel)]; [left; exact Hin|].
    right. exists o1, o2. rewrite list_lookup_insert_ne by congruence. auto.
Qed.

Lemma copy_items_content n h0 cp :
  content_ok n h0 cp ->
  forall kvs pending y acc h m h' m',
    inv n h0 (y :: pending) h m -> length h0 <= y ->
    h !! y = Some (ODict acc) ->
    Forall (old n) (map snd kvs) ->
    NoDup (map fst acc ++ map fst kvs) ->
    copy_items cp y kvs h m = Returns (h', m') ->
    inv n h0 (y :: pending) h' m' /\ ext m m' /\ newer (length h) m m'
    /\ (forall l, l < length h -> l <> y -> h' !! l = h !! l)
    /\ length h <= length h'
    /\ exists acc', h' !! y = Some (ODict (acc ++ acc'))
                    /\ Forall2 (item_rel m') kvs acc'.
Proof.
  intros Hcp. induction kvs as [|[k v] rest IH];
    intros pending y acc h m h' m' Hinv Hy Hlook Hold Hdup; cbn [copy_items].
  - intros [= <- <-]. split; [exact Hinv|]. split; [intros a b; auto|].
    split; [intros a b; auto|]. split; [auto|]. split; [lia|].
    exists []. rewrite app_nil_r. split; [exact Hlook|constructor].
  - destruct (cp v h m) as [[[v' h1] m1]|e] eqn:Hv; [|discriminate].
    cbn [map] in Hold, Hdup. apply Forall_cons in Hold as [Hv_old Hrest_old].
    destruct (Hcp _ _ _ _ _ _ _ Hinv Hv_old Hv)
      as (Hinv1 & Hrel1 & Hext1 & Hnew1 & Hframe1 & Hlen1).
    assert (y < length h) as Hylt by (eapply lookup_lt_Some; eauto).
    assert (h1 !! y = Some (ODict acc)) as Hlook1 by (rewrite Hframe1; auto).
    unfold setitem. rewrite Hlook1.
    assert (k ∉ map fst acc) as Hk.
    { apply NoDup_app in Hdup as (_ & Hdisj & _). intros Hin.
      apply (Hdisj _ Hin). left. }
    rewrite (dict_set_new _ _ _ Hk).
    set (h2 := <[y := ODict (acc ++ [(k, v')])]> h1).
    assert (inv n h0 (y :: pending) h2 m1) as Hinv2.
    { apply inv_overwrite; [exact Hinv1|exact Hy|].
      cbn [children]. rewrite map_app. apply Forall_app. split.
      - exact (inv_sealed _ _ _ _ _ Hinv1 _ _ Hy Hlook1).
      - constructor; [|constructor]. cbn [snd]. eapply rel_fresh; eauto. }
    intros Hrest.
    assert (h2 !! y = Some (ODict (acc ++ [(k, v')]))) as Hlook2.
    { subst h2. apply list_lookup_insert_eq. lia. }
    assert (NoDup (map fst (acc ++ [(k, v')]) ++ map fst rest)) as Hdup2.
    { rewrite map_app, <- app_assoc. exact Hdup. }
    destruct (IH _ _ _ _ _ _ _ Hinv2 Hy Hlook2 Hrest_old Hdup2 Hrest)
      as (Hinv' & Hext' & Hnew' & Hframe' & Hlen' & acc' & Hlook' & Hrel').
    assert (length h2 = length h1) as Hlen2 by (subst h2; apply length_insert).
    split; [exact Hinv'|]. split; [eapply ext_trans; eauto|].
    split; [eapply newer_trans; [|exact Hnew1|]; [exact Hlen1|]; rewrite <- Hlen2; exact Hnew'|].
    split.
    { intros l Hl Hne. rewrite Hframe' by (rewrite ?Hlen2; lia || exact Hne).
      subst h2. rewrite list_lookup_insert_ne by congruence. auto. }
    split; [lia|].
    exists ((k, v') :: acc'). rewrite <- app_assoc in Hlook'. split; [exact Hlook'|].
    constructor; [|exact Hrel'].
    split; [reflexivity|]. cbn [snd]. eapply rel_ext; eauto.
Qed.

Lemma copy_elems_content n h0 cp :
  content_ok n h0 cp ->
  forall elems pending y acc h m h' m',
    inv n h0 (y :: pending) h m -> length h0 <= y ->
    h !! y = Some (OList acc) ->
    Forall (old n) elems ->
    copy_elems cp y elems h m = Returns (h', m') ->
    inv n h0 (y :: pending) h' m' /\ ext m m' /\ newer (length h) m m'
    /\ (forall l, l < length h -> l <> y -> h' !! l = h !! l)
    /\ length h <= length h'
    /\ exists acc', h' !! y = Some (OList (acc ++ acc'))
                    /\ Forall2 (rel m') elems acc'.
Proof.
  intros Hcp. induction elems as [|v rest IH];
    intros pending y acc h m h' m' Hinv Hy Hlook Hold; cbn [copy_elems].
  - intros [= <- <-]. split; [exact Hinv|]. split; [intros a b; auto|].
    split; [intros a b; auto|]. split; [auto|]. split; [lia|].
    exists []. rewrite app_nil_r. split; [exact Hlook|constructor].
  - destruct (cp v h m) as [[[v' h1] m1]|e] eqn:Hv; [|discriminate].
    apply Forall_cons in Hold as [Hv_old Hrest_old].
    destruct (Hcp _ _ _ _ _ _ _ Hinv Hv_old Hv)
      as (Hinv1 & Hrel1 & Hext1 & Hnew1 & Hframe1 & Hlen1).
    assert (y < length h) as Hylt by (eapply lookup_lt_Some; eauto).
    assert (h1 !! y = Some (OList acc)) as Hlook1 by (rewrite Hframe1; auto).
    unfold append. rewrite Hlook1.
    set (h2 := <[y := OList (acc ++ [v'])]> h1).
    assert (inv n h0 (y :: pending) h2 m1) as Hinv2.
    { apply inv_overwrite; [exact Hinv1|exact Hy|].
      cbn [children]. apply Forall_app. split.
      - exact (inv_sealed _ _ _ _ _ Hinv1 _ _ Hy Hlook1).
      - constructor; [|constructor]. eapply rel_fresh; eauto. }
    intros Hrest.
    assert (h2 !! y = Some (OList (acc ++ [v']))) as Hlook2.
    { subst h2. apply list_lookup_insert_eq. lia. }
    destruct (IH _ _ _ _ _ _ _ Hinv2 Hy Hlook2 Hrest_old Hrest)
      as (Hinv' & Hext' & Hnew' & Hframe' & Hlen' & acc' & Hlook' & Hrel').
    assert (length h2 = length h1) as Hlen2 by (subst h2; apply length_insert).
    split; [exact Hinv'|]. split; [eapply ext_trans; eauto|].
    split; [eapply newer_trans; [|exact Hnew1|]; [exact Hlen1|]; rewrite <- Hlen2; exact Hnew'|].
    split.
    { intros l Hl Hne. rewrite Hframe' by (rewrite ?Hlen2; lia || exact Hne).
      subst h2. rewrite list_lookup_insert_ne by congruence. auto. }
    split; [lia|].
    exists (v' :: acc'). rewrite <- app_assoc in Hlook'. split; [exact Hlook'|].
    constructor; [|exact Hrel']. eapply rel_ext; eauto.
Qed.

(** A new, empty copy enters the memo as pending. *)
Lemma inv_start n h0 pending h m l o :
  inv n h0 pending h m -> l < n -> memo_get m l = None -> children o = [] ->
  inv n h0 (length h :: pending) (h ++ [o]) ((l, length h) :: m).
Proof.
  intros [Hold Hlen Hsealed Hmemo Hinj] Hl Hmiss Ho.
  assert (ext m ((l, length h) :: m)) as Hext.
  { intros a b Hb. cbn [memo_get]. destruct (Nat.eqb l a) eqn:Heq; [|exact Hb].
    apply Nat.eqb_eq in Heq. subst. congruence. }
  split; [| | | |].
  - intros l' Hl'. rewrite lookup_app_l by lia. auto.
  - rewrite length_app. simpl. lia.
  - intros l' o' Hl' Hlook. rewrite length_app. simpl.
    destruct (decide (l' < length h)) as [Hlt|Hge].
    + rewrite lookup_app_l in Hlook by exact Hlt.
      eapply Forall_impl; [exact (Hsealed _ _ Hl' Hlook)|].
      intros v. apply HeapFacts.fresh_in_mono. lia.
    + assert (l' = length h) as ->.
      { apply lookup_lt_Some in Hlook. rewrite length_app in Hlook. simpl in Hlook. lia. }
      rewrite list_lookup_middle in Hlook by reflexivity. injection Hlook as <-.
      rewrite Ho. constructor.
  - intros a b Hb. cbn [memo_get] in Hb. rewrite length_app. simpl.
    destruct (Nat.eqb l a) eqn:Heq.
    + apply Nat.eqb_eq in Heq. subst a. injection Hb as <-.
      split; [exact Hl|]. split; [lia|]. left. left.
    + destruct (Hmemo _ _ Hb) as (Ha & Hrange & Hstate).
      split; [exact Ha|]. split; [lia|].
      destruct Hstate as [Hin|(o1 & o2 & H1 & H2 & Hrel)]; [left; right; exact Hin|].
      right. exists o1, o2. split; [exact H1|]. split.
      * rewrite lookup_app_l by lia. exact H2.
      * eapply obj_rel_ext; eauto.
  - intros a a' b Ha Ha'. cbn [memo_get] in Ha, Ha'.
    destruct (Nat.eqb l a) eqn:Heq, (Nat.eqb l a') eqn:Heq'.
    + apply Nat.eqb_eq in Heq, Heq'. congruence.
    + injection Ha as <-. apply Hmemo in Ha'. lia.
    + injection Ha' as <-. apply Hmemo in Ha. lia.
    + eauto.
Qed.

(** The copy that was pending is complete. *)
Lemma inv_finish n h0 pending m m' h' l y o o' :
  inv n h0 (y :: pending) h' m' ->
  newer (S y) ((l, y) :: m) m' ->
  (forall a, memo_get m a = Some y -> False) ->
  h0 !! l = Some o -> h' !! y = Some o' -> obj_rel m' o o' ->
  inv n h0 pending h' m'.
Proof.
  intros [Hold Hlen Hsealed Hmemo Hinj] Hnew Hnot Ho Ho' Hrel.
  split; auto.
  intros a b Hb. destruct (Hmemo _ _ Hb) as (Ha & Hrange & Hstate).
  split; [exact Ha|]. split; [exact Hrange|].
  destruct Hstate as [Hin|Hdone]; [|right; exact Hdone].
  apply elem_of_cons in Hin as [->|Hin]; [|left; exact Hin].
  right. assert (a = l) as ->.
  { destruct (Hnew _ _ Hb) as [Hb'|Hle]; [|lia].
    cbn [memo_get] in Hb'. destruct (Nat.eqb l a) eqn:Heq.
    - apply Nat.eqb_eq in Heq. auto.
    - exfalso. eapply Hnot. exact Hb'. }
  exists o, o'. auto.
Qed.

Lemma deepcopy_rec_content n h0 :
  n <= length h0 -> old_closed n h0 -> distinct_keys n h0 ->
  forall depth, content_ok n h0 (deepcopy_rec depth).
Proof.
  intros Hn Hclosed Hkeys. induction depth as [|depth IH];
    intros pending x h m y h' m' Hinv Hx; cbn [deepcopy_rec];
    (destruct x as [| | | |l|];
     try (intros [= <- <- <-]; split; [exact Hinv|]; split; [reflexivity|];
          split; [intros ? ?; auto|]; split; [intros ? ?; auto|]; split; [auto|lia])).
  - destruct (memo_get m l) as [b|] eqn:Hmemo; [|discriminate].
    intros [= <- <- <-]. split; [exact Hinv|]. split; [simpl; eauto|].
    split; [intros a c; auto|]. split; [intros a c; auto|]. split; [auto|lia].
  - destruct (memo_get m l) as [b|] eqn:Hmemo.
    { intros [= <- <- <-]. split; [exact Hinv|]. split; [simpl; eauto|].
      split; [intros a c; auto|]. split; [intros a c; auto|]. split; [auto|lia]. }
    simpl in Hx.
    assert (h !! l = h0 !! l) as Hsame by (apply (inv_old _ _ _ _ _ Hinv); lia).
    assert (forall a, memo_get m a = Some (length h) -> False) as Hnot.
    { intros a Ha. apply (inv_memo _ _ _ _ _ Hinv) in Ha. lia. }
    assert (ext m ((l, length h) :: m)) as Hext0.
    { intros a b Hb. cbn [memo_get]. destruct (Nat.eqb l a) eqn:Heq; [|exact Hb].
      apply Nat.eqb_eq in Heq. subst. congruence. }
    assert (length h0 <= length h) as Hlen0 by apply (inv_len _ _ _ _ _ Hinv).
    destruct (h !! l) as [[kvs|elems]|] eqn:Hl; [| |discriminate].
    + pose proof (inv_start _ _ _ _ _ l (ODict []) Hinv Hx Hmemo eq_refl) as Hinv1.
      destruct (copy_items (deepcopy_rec depth) (length h) kvs (h ++ [ODict []])
                  ((l, length h) :: m)) as [[h1 m1]|e] eqn:Hcopy; [|discriminate].
      intros [= <- <- <-].
      destruct (copy_items_content n h0 _ IH kvs pending (length h) [] _ _ h1 m1
                  Hinv1 Hlen0) as (Hinv' & Hext' & Hnew' & Hframe' & Hlen' & acc' & Hlook' & Hrel');
        [apply list_lookup_middle; reflexivity
        |exact (Hclosed _ _ Hx (eq_sym Hsame))
        |exact (Hkeys _ _ Hx (eq_sym Hsame))
        |exact Hcopy|].
      rewrite length_app in Hnew', Hlen', Hframe'. simpl in Hnew', Hlen', Hframe'.
      rewrite Nat.add_1_r in Hnew'.
      split.
      { eapply inv_finish; eauto. }
      split; [simpl; exists (length h); split; [apply Hext'; cbn [memo_get]; rewrite Nat.eqb_refl; reflexivity|reflexivity]|].
      split; [eapply ext_trans; eauto|].
      split.
      { intros a b Hb. destruct (Hnew' _ _ Hb) as [Hb'|Hle]; [|right; lia].
        cbn [memo_get] in Hb'. destruct (Nat.eqb l a); [|left; exact Hb'].
        injection Hb' as <-. right. lia. }
      split; [|lia].
      intros l' Hl'. rewrite Hframe' by lia. apply lookup_app_l. exact Hl'.
    + pose proof (inv_start _ _ _ _ _ l (OList []) Hinv Hx Hmemo eq_refl) as Hinv1.
      destruct (copy_elems (deepcopy_rec depth) (length h) elems (h ++ [OList []])
                  ((l, length h) :: m)) as [[h1 m1]|e] eqn:Hcopy; [|discriminate].
      intros [= <- <- <-].
      destruct (copy_elems_content n h0 _ IH elems pending (length h) [] _ _ h1 m1
                  Hinv1 Hlen0) as (Hinv' & Hext' & Hnew' & Hframe' & Hlen' & acc' & Hlook' & Hrel');
        [apply list_lookup_middle; reflexivity
        |exact (Hclosed _ _ Hx (eq_sym Hsame))
        |exact Hcopy|].
      rewrite length_app in Hnew', Hlen', Hframe'. simpl in Hnew', Hlen', Hframe'.
      rewrite Nat.add_1_r in Hnew'.
      split.
      { eapply inv_finish; eauto. }
      split; [simpl; exists (length h); split; [apply Hext'; cbn [memo_get]; rewrite Nat.eqb_refl; reflexivity|reflexivity]|].
      split; [eapply ext_trans; eauto|].
      split.
      { intros a b Hb. destruct (Hnew' _ _ Hb) as [Hb'|Hle]; [|right; lia].
        cbn [memo_get] in Hb'. destruct (Nat.eqb l a); [|left; exact Hb'].
        injection Hb' as <-. right. lia. }
      split; [|lia].
      intros l' Hl'. rewrite Hframe' by lia. apply lookup_app_l. exact Hl'.
Qed.

(** Related values have the same content in two heaps whose objects
    are related along the memo. *)
Lemma related_view m hA hB :
  (forall a b, memo_get m a = Some b ->
     exists o o', hA !! a = Some o /\ hB !! b = Some o' /\ obj_rel m o o') ->
  forall depth v v', rel m v v' -> view depth hB v' = view depth hA v.
Proof.
  intros Hall. induction depth as [|depth IH]; intros v v' Hrel; [reflexivity|].
  destruct v as [| | | |a|]; simpl in Hrel; try (subst v'; reflexivity).
  destruct Hrel as (b & Hb & ->). cbn [view].
  destruct (Hall _ _ Hb) as (o & o' & Ho & Ho' & Hrel).
  rewrite Ho, Ho'. destruct o as [kvs|elems], o' as [kvs'|elems']; simpl in Hrel;
    try contradiction.
  - f_equal. clear Ho Ho'.
    induction Hrel as [|[k v] [k' v'] rest rest' [Hk Hv] Hrest IHrest];
      [reflexivity|].
    cbn [map fst snd] in *. subst k'. rewrite (IH _ _ Hv), IHrest. reflexivity.
  - f_equal. clear Ho Ho'.
    induction Hrel as [|v v' rest rest' Hv Hrest IHrest]; [reflexivity|].
    cbn [map]. rewrite (IH _ _ Hv), IHrest. reflexivity.
Qed.

Lemma inv_finished n h0 h m a b :
  inv n h0 [] h m -> memo_get m a = Some b -> finished h0 m h a b.
Proof.
  intros Hinv Hb.
  destruct (inv_memo _ _ _ _ _ Hinv _ _ Hb) as (_ & _ & [Hin|Hdone]);
    [inversion Hin|exact Hdone].
Qed.

(** What [copy.deepcopy] leaves, with the memo of the copy. *)
Lemma deepcopy_related n limit x h y h' :
  n <= length h -> old_closed n h -> distinct_keys n h -> old n x ->
  deepcopy limit x h = Returns (y, h') ->
  exists m, inv n h [] h' m /\ rel m x y
            /\ (forall l, l < length h -> h' !! l = h !! l)
            /\ length h <= length h'.
Proof.
  intros Hn Hclosed Hkeys Hx. unfold deepcopy.
  destruct (deepcopy_rec limit x h []) as [[[y1 h1] m1]|e] eqn:Hrec; [|discriminate].
  intros [= <- <-].
  assert (inv n h [] h []) as Hinv.
  { split; auto.
    - intros l o Hl Hlook. apply lookup_lt_Some in Hlook. lia.
    - intros a b Hb. discriminate.
    - intros a a' b Hb. discriminate. }
  destruct (deepcopy_rec_content n h Hn Hclosed Hkeys limit _ _ _ _ _ _ _ Hinv Hx Hrec)
    as (Hinv' & Hrel & _ & _ & Hframe & Hlen).
  exists m1. auto.
Qed.

(** [copy.deepcopy] of a value whose objects are below [n], in a heap
    whose objects below [n] are closed and have distinct keys: the
    objects that were there are as they were, the copy refers to new
    objects only, which form a block, and it has the content of the
    original. *)
Lemma deepcopy_content n limit x h y h' :
  n <= length h -> old_closed n h -> distinct_keys n h -> old n x ->
  deepcopy limit x h = Returns (y, h') ->
  (forall l, l < length h -> h' !! l = h !! l)
  /\ length h <= length h'
  /\ fresh_in (length h) (length h') y
  /\ block (length h) (length h') h'
  /\ forall depth, view depth h' y = view depth h x.
Proof.
  intros Hn Hclosed Hkeys Hx Hcopy.
  destruct (deepcopy_related n _ _ _ _ _ Hn Hclosed Hkeys Hx Hcopy)
    as (m & Hinv & Hrel & Hframe & Hlen).
  split; [exact Hframe|]. split; [exact Hlen|].
  split; [eapply rel_fresh; eauto|]. split.
  - intros l o [Hl _] Hlook. exact (inv_sealed _ _ _ _ _ Hinv _ _ Hl Hlook).
  - intros depth. apply (related_view m); [|exact Hrel].
    intros a b Hb. exact (inv_finished _ _ _ _ _ _ Hinv Hb).
Qed.

(** The content of a value of a block depends on the block only. *)
Lemma view_block f e h h' :
  block f e h -> (forall l, f <= l < e -> h' !! l = h !! l) ->
  forall depth v, fresh_in f e v -> view depth h' v = view depth h v.
Proof.
  intros Hblock Hsame. induction depth as [|depth IH]; intros v Hv; [reflexivity|].
  destruct v as [| | | |l|]; try reflexivity. simpl in Hv. cbn [view].
  rewrite (Hsame _ Hv). destruct (h !! l) as [o|] eqn:Hl; [|reflexivity].
  pose proof (Hblock _ _ Hv Hl) as Hchildren.
  clear Hl. destruct o as [kvs|elems]; cbn [children] in Hchildren; f_equal.
  - induction kvs as [|[k v] rest IHrest]; [reflexivity|].
    cbn [map fst snd] in *. apply Forall_cons in Hchildren as [Hv' Hrest].
    rewrite (IH _ Hv'), (IHrest Hrest). reflexivity.
  - induction elems as [|v rest IHrest]; [reflexivity|].
    cbn [map]. apply Forall_cons in Hchildren as [Hv' Hrest].
    rewrite (IH _ Hv'), (IHrest Hrest). reflexivity.
Qed.

Lemma block_same f e h h' :
  block f e h -> (forall l, f <= l < e -> h' !! l = h !! l) -> block f e h'.
Proof.
  intros Hblock Hsame l o Hl Hlook. rewrite (Hsame _ Hl) in Hlook. eauto.
Qed.

Lemma closed_old h : heap_closed h -> old_closed (length h) h.
Proof.
  intros Hclosed l o _ Hlook. apply Forall_forall. intros v Hv.
  destruct v as [| | | |l'|]; simpl; auto. eapply Hclosed; eauto.
Qed.

Lemma old_closed_same n h0 h :
  old_closed n h0 -> (forall l, l < n -> h !! l = h0 !! l) -> old_closed n h.
Proof. intros Hclosed Hsame l o Hl Hlook. rewrite Hsame in Hlook by exact Hl. eauto. Qed.

Lemma distinct_keys_same n h0 h :
  distinct_keys n h0 -> (forall l, l < n -> h !! l = h0 !! l) -> distinct_keys n h.
Proof. intros Hkeys Hsame l kvs Hl Hlook. rewrite Hsame in Hlook by exact Hl. eauto. Qed.

(** Below [n] the content of an old value is that of the closed heap. *)
Lemma view_old n h0 h :
  old_closed n h0 -> (forall l, l < n -> h !! l = h0 !! l) ->
  forall depth v, old n v -> view depth h v = view depth h0 v.
Proof.
  intros Hclosed Hsame depth v Hv. apply (view_block 0 n).
  - intros l o [_ Hl] Hlook. eapply Forall_impl; [exact (Hclosed _ _ Hl Hlook)|].
    intros [| | | |l'|]; simpl; auto. lia.
  - intros l [_ Hl]. auto.
  - destruct v; simpl in *; auto. lia.
Qed.

(** Deleting a key keeps the items related. *)
Lemma dict_del_rel m kvs kvs' k :
  Forall2 (item_rel m) kvs kvs' ->
  Forall2 (item_rel m) (dict_del kvs k) (dict_del kvs' k).
Proof.
  unfold dict_del. induction 1 as [|[k1 v1] [k2 v2] rest rest' [Hk Hv] Hrest IH];
    cbn [List.filter]; [constructor|].
  cbn [fst snd] in *. subst k2.
  destruct (negb (String.eqb k1 k)); [constructor; [split; auto|exact IH]|exact IH].
Qed.

Lemma dict_has_rel m kvs kvs' k :
  Forall2 (item_rel m) kvs kvs' -> dict_has kvs' k = dict_has kvs k.
Proof.
  unfold dict_has. induction 1 as [|[k1 v1] [k2 v2] rest rest' [Hk Hv] Hrest IH];
    cbn [dict_get]; [reflexivity|].
  cbn [fst snd] in *. subst k2. destruct (String.eqb k1 k); [reflexivity|exact IH].
Qed.

Lemma dict_del_absent kvs k : dict_has kvs k = false -> dict_del kvs k = kvs.
Proof.
  unfold dict_has, dict_del. induction kvs as [|[k1 v1] rest IH];
    cbn [dict_get List.filter fst]; [reflexivity|].
  destruct (String.eqb k1 k); [discriminate|]. intros H. cbn [negb]. rewrite IH; auto.
Qed.

End ContentFacts.



(** ** The parameters have the content of the sections *)

Module ParamsFacts.

Import Heap Aliasing Content ContentFacts AquaChemistry.

Lemma entry_ok_same n h0 h h' entry kv :
  entry_ok n h0 h entry kv ->
  (forall l, n < l < length h -> h' !! l = h !! l) ->
  length h <= length h' ->
  entry_ok n h0 h' entry kv.
Proof.
  intros (Hk & props & f & e & Hprops & Hf & He & Hfresh & Hblock & Hview) Hsame Hlen.
  split; [exact Hk|]. exists props, f, e.
  assert (forall l, f <= l < e -> h' !! l = h !! l) as Hin by (intros l Hl; apply Hsame; lia).
  split; [exact Hprops|]. split; [exact Hf|]. split; [lia|]. split; [exact Hfresh|].
  split; [eapply block_same; eauto|].
  intros depth. rewrite <- Hview. eapply view_block; eauto.
Qed.

Lemma items_names n h0 h dn processed kvs :
  Forall2 (entry_ok n h0 h) (List.filter (included dn) processed) kvs ->
  forall k, k ∈ map fst kvs -> k ∈ map fst processed.
Proof.
  intros Hall.
  assert (forall entries, Forall2 (entry_ok n h0 h) entries kvs ->
            map fst kvs = map fst entries) as Hnames.
  { clear. intros entries Hall.
    induction Hall as [|entry kv rest rest' [Hfst _] _ IH]; [reflexivity|].
    cbn [map]. rewrite Hfst, IH. reflexivity. }
  intros k Hk. rewrite (Hnames _ Hall) in Hk. apply list_elem_of_fmap in Hk as (entry & -> & Hin).
  apply list_elem_of_In, filter_In in Hin as [Hin _].
  apply list_elem_of_fmap. exists entry. split; [reflexivity|].
  apply list_elem_of_In. exact Hin.
Qed.

(** One turn of the loop on a section that enters the parameters, on
    the heap: the copy, its storage under the name of the section and,
    for the problem section, the deletion of the marker. *)
Lemma section_content limit n h0 dn processed name sec props h copy h1 h2 hF :
  n = length h0 -> heap_closed h0 -> distinct_keys n h0 ->
  old n props -> s_properties sec = Some props ->
  included dn (name, sec) = true ->
  name ∉ map fst processed ->
  filling n h0 dn processed h ->
  deepcopy limit props h = Returns (copy, h1) ->
  setitem h1 (VRef n) name copy = Returns h2 ->
  (hF = h2 /\ (String.eqb PROBLEM name = false
               \/ contains h2 copy AUTO_SUBSTITUTIONS = Returns false))
  \/ (String.eqb PROBLEM name = true
      /\ delitem h2 copy AUTO_SUBSTITUTIONS = Returns hF) ->
  getitem h2 (VRef n) name = Returns copy
  /\ filling n h0 dn (processed ++ [(name, sec)]) hF.
Proof.
  intros Hn Hclosed Hkeys Hprops Hsec Hincl Hnew [Hold Hlen (kvs & Hparams & Hentries)]
    Hcopy Hset Hend.
  assert (old_closed n h) as Hclosed'.
  { eapply old_closed_same; [|exact Hold]. subst n. apply closed_old. exact Hclosed. }
  assert (distinct_keys n h) as Hkeys' by (eapply distinct_keys_same; eauto).
  destruct (deepcopy_related n _ _ _ _ _ (Nat.lt_le_incl _ _ Hlen) Hclosed' Hkeys'
              Hprops Hcopy) as (m & Hinv & Hrel & Hframe & Hlen1).
  assert (fresh_in (length h) (length h1) copy) as Hfresh by (eapply rel_fresh; eauto).
  assert (block (length h) (length h1) h1) as Hblock.
  { intros l o [Hl _] Hlook. exact (inv_sealed _ _ _ _ _ Hinv _ _ Hl Hlook). }
  assert (h1 !! n = Some (ODict kvs)) as Hparams1 by (rewrite Hframe; auto).
  unfold setitem in Hset. rewrite Hparams1 in Hset. injection Hset as <-.
  assert (name ∉ map fst kvs) as Hfree.
  { intros Hin. apply Hnew. eapply items_names; eauto. }
  rewrite (dict_set_new _ _ _ Hfree) in *.
  set (h2 := <[n := ODict (kvs ++ [(name, copy)])]> h1) in *.
  assert (n < length h1) as Hn1 by lia.
  assert (h2 !! n = Some (ODict (kvs ++ [(name, copy)]))) as Hparams2.
  { subst h2. apply list_lookup_insert_eq. exact Hn1. }
  assert (forall l, l <> n -> h2 !! l = h1 !! l) as Hframe2.
  { intros l Hl. subst h2. apply list_lookup_insert_ne. congruence. }
  assert (length h2 = length h1) as Hlen2 by (subst h2; apply length_insert).
  clearbody h2.
  split.
  { unfold getitem. rewrite Hparams2.
    rewrite <- (dict_set_new _ _ _ Hfree), AssemblyFacts.dict_get_set_same. reflexivity. }
  (* the copies of the memo, in the heap of the document and in [h2] *)
  assert (forall a b, memo_get m a = Some b ->
            exists o o', h0 !! a = Some o /\ h2 !! b = Some o' /\ obj_rel m o o'
                         /\ a < n /\ length h <= b < length h1) as Hmemo.
  { intros a b Hb. destruct (inv_memo _ _ _ _ _ Hinv _ _ Hb) as (Ha & Hrange & _).
    destruct (inv_finished _ _ _ _ _ _ Hinv Hb) as (o & o' & Ho & Ho' & Hobj).
    exists o, o'. rewrite <- Hold by exact Ha. rewrite Hframe2 by lia. auto. }
  (* what remains to show once the last heap is known *)
  assert (forall hF,
            (forall l, l < length h -> l <> n -> hF !! l = h !! l) ->
            hF !! n = Some (ODict (kvs ++ [(name, copy)])) ->
            length h1 <= length hF ->
            block (length h) (length h1) hF ->
            (forall depth,
               view depth hF copy = view depth (expected_heap name h0 props) props) ->
            filling n h0 dn (processed ++ [(name, sec)]) hF) as Hfinish.
  { intros hF' Hsame Hn' Hlen' Hblock' Hview. split.
    - intros l Hl. rewrite Hsame by lia. auto.
    - lia.
    - exists (kvs ++ [(name, copy)]). split; [exact Hn'|].
      rewrite List.filter_app. cbn [List.filter]. rewrite Hincl.
      apply Forall2_app.
      + eapply Forall2_impl; [exact Hentries|]. intros entry kv Hok.
        eapply entry_ok_same; [exact Hok| |lia].
        intros l Hl. apply Hsame; lia.
      + constructor; [|constructor]. split; [reflexivity|].
        exists props, (length h), (length h1). cbn [fst snd].
        split; [exact Hsec|]. split; [exact Hlen|]. split; [exact Hlen'|].
        split; [exact Hfresh|]. split; [exact Hblock'|exact Hview]. }
  assert (forall depth, view depth h2 copy = view depth h0 props) as Hview2.
  { intros depth. apply (related_view m); [|exact Hrel].
    intros a b Hb. destruct (Hmemo _ _ Hb) as (o & o' & Ho & Ho' & Hobj & _). eauto. }
  assert (block (length h) (length h1) h2) as Hblock2.
  { eapply block_same; [exact Hblock|]. intros l Hl. apply Hframe2. lia. }
  destruct Hend as [[-> Hcase]|[Hproblem Hdel]].
  - apply Hfinish;
      [intros l Hl Hne; rewrite Hframe2 by exact Hne; auto|exact Hparams2|lia
      |exact Hblock2|].
    intros depth. rewrite Hview2. unfold expected_heap.
    destruct (String.eqb PROBLEM name) eqn:Hproblem; [|reflexivity].
    destruct Hcase as [?|Hunmarked]; [discriminate|].
    (* the problem section without the marker *)
    assert (stripped h0 props = h0) as ->; [|reflexivity].
    unfold stripped. destruct props as [| | | |l0|]; try reflexivity.
    destruct Hrel as (c & Hc & ->).
    destruct (Hmemo _ _ Hc) as (o & o' & Ho & Ho' & Hobj & _). rewrite Ho.
    destruct o as [kvs0|elems0]; [|reflexivity].
    destruct o' as [kvs'|elems']; [|contradiction]. simpl in Hobj.
    unfold contains in Hunmarked. rewrite Ho' in Hunmarked. injection Hunmarked as Hhas.
    rewrite (dict_has_rel _ _ _ _ Hobj) in Hhas.
    rewrite (dict_del_absent _ _ Hhas). apply list_insert_id. exact Ho.
  - (* the problem section with the marker *)
    unfold delitem in Hdel. destruct copy as [| | | |c|]; try discriminate.
    destruct (h2 !! c) as [[kvs'|elems']|] eqn:Hc2; try discriminate.
    destruct (dict_has kvs' AUTO_SUBSTITUTIONS); [|discriminate].
    injection Hdel as <-. simpl in Hfresh.
    assert (c <> n) as Hcn by lia.
    assert (c < length h2) as Hclt by (eapply lookup_lt_Some; eauto).
    destruct props as [| | | |l0|]; try (simpl in Hrel; discriminate).
    destruct Hrel as (c' & Hc & [= <-]).
    destruct (Hmemo _ _ Hc) as (o & o' & Ho & Ho' & Hobj & Hl0 & _).
    rewrite Hc2 in Ho'. injection Ho' as <-.
    destruct o as [kvs0|elems0]; [|contradiction]. simpl in Hobj.
    apply Hfinish.
    + intros l Hl Hne. rewrite list_lookup_insert_ne by lia.
      rewrite Hframe2 by exact Hne. auto.
    + rewrite list_lookup_insert_ne by exact Hcn. exact Hparams2.
    + rewrite length_insert. lia.
    + intros l o Hl Hlook. destruct (decide (c = l)) as [<-|Hne].
      * rewrite list_lookup_insert_eq in Hlook by exact Hclt. injection Hlook as <-.
        pose proof (Hblock2 _ _ Hl Hc2) as Hchildren. cbn [children] in *.
        unfold dict_del. clear -Hchildren.
        induction kvs' as [|[k v] rest IH]; cbn [List.filter map] in *; [constructor|].
        apply Forall_cons in Hchildren as [Hv Hrest].
        destruct (negb (String.eqb (fst (k, v)) AUTO_SUBSTITUTIONS)); auto.
        cbn [map]. constructor; auto.
      * rewrite list_lookup_insert_ne in Hlook by exact Hne. eauto.
    + intros depth. unfold expected_heap. rewrite Hproblem. unfold stripped. rewrite Ho.
      apply (related_view m); [|simpl; eauto].
      intros a b Hb. destruct (decide (a = l0)) as [->|Hne].
      * assert (b = c) as -> by congruence.
        exists (ODict (dict_del kvs0 AUTO_SUBSTITUTIONS)),
               (ODict (dict_del kvs' AUTO_SUBSTITUTIONS)).
        split; [apply list_lookup_insert_eq; eapply lookup_lt_Some; eauto|].
        split; [apply list_lookup_insert_eq; exact Hclt|].
        simpl. apply dict_del_rel. exact Hobj.
      * assert (b <> c) as Hbc.
        { intros ->. apply Hne. eapply (inv_inj _ _ _ _ _ Hinv); eauto. }
        destruct (Hmemo _ _ Hb) as (o1 & o2 & Ho1 & Ho2 & Hobj1 & _).
        exists o1, o2. rewrite !list_lookup_insert_ne by congruence. auto.
Qed.

Section Loop.

Context {X : Type} (E : Externals X).

Lemma assemble_section_content n h0 dn processed name sec (st st' : state X) :
  n = length h0 -> heap_closed h0 -> distinct_keys n h0 ->
  (forall props, s_properties sec = Some props -> old n props) ->
  name ∉ map fst processed ->
  filling n h0 dn processed (w_heap (wld st)) ->
  assemble_section E (VRef n) dn (name, sec) st = (Returns tt, st') ->
  filling n h0 dn (processed ++ [(name, sec)]) (w_heap (wld st')).
Proof.
  intros Hn Hclosed Hkeys Hold Hnew Hfill. unfold assemble_section. cbn [fst snd].
  destruct (skipped name dn sec) eqn:Hskip.
  { intros [= <-]. destruct Hfill as [Ho Hl (kvs & Hp & Hall)]. split; auto.
    exists kvs. split; [exact Hp|]. rewrite List.filter_app. cbn [List.filter].
    unfold included at 2. cbn [fst snd]. rewrite Hskip. cbn [negb].
    rewrite app_nil_r. exact Hall. }
  assert (included dn (name, sec) = true) as Hincl.
  { unfold included. cbn [fst snd]. rewrite Hskip. reflexivity. }
  destruct (s_properties sec) as [props|] eqn:Hsec.
  2: { unfold raise. discriminate. }
  specialize (Hold props eq_refl).
  destruct st as [[h x] prs cor tr]. cbn [wld w_heap] in Hfill.
  run_monad.
  destruct (deepcopy (recursion_limit E) props h) as [[copy h1]|e] eqn:Hcopy;
    [|discriminate].
  run_monad.
  destruct (setitem h1 (VRef n) name copy) as [h2|e] eqn:Hset; [|discriminate].
  assert (getitem h2 (VRef n) name = Returns copy) as Hmine.
  { unfold getitem. unfold setitem in Hset.
    destruct (h1 !! n) as [[kvs|elems]|] eqn:Hn1; try discriminate.
    injection Hset as <-.
    rewrite list_lookup_insert_eq by (eapply lookup_lt_Some; eauto).
    rewrite AssemblyFacts.dict_get_set_same. reflexivity. }
  assert (forall hF,
            (hF = h2 /\ (String.eqb PROBLEM name = false
                         \/ contains h2 copy AUTO_SUBSTITUTIONS = Returns false))
            \/ (String.eqb PROBLEM name = true
                /\ delitem h2 copy AUTO_SUBSTITUTIONS = Returns hF) ->
            filling n h0 dn (processed ++ [(name, sec)]) hF) as Hstep.
  { intros hF Hend.
    exact (proj2 (section_content _ n h0 dn processed name sec props h copy h1 h2 hF
                    Hn Hclosed Hkeys Hold Hsec Hincl Hnew Hfill Hcopy Hset Hend)). }
  clear Hcopy Hset.
  destruct (String.eqb PROBLEM name) eqn:Hproblem; run_monad.
  - rewrite Hmine. run_monad.
    destruct (contains h2 copy AUTO_SUBSTITUTIONS) as [[|]|e] eqn:Hmarked;
      run_monad; [| |discriminate].
    + rewrite Hmine. run_monad.
      destruct (delitem h2 copy AUTO_SUBSTITUTIONS) as [h3|e] eqn:Hdel; [|discriminate].
      intros [= <-]. cbn [wld w_heap]. apply Hstep. right. auto.
    + intros [= <-]. cbn [wld w_heap]. apply Hstep. left. auto.
  - intros [= <-]. cbn [wld w_heap]. apply Hstep. left. auto.
Qed.

Lemma assemble_loop_content n h0 dn entries :
  n = length h0 -> heap_closed h0 -> distinct_keys n h0 ->
  forall processed (st st' : state X),
    NoDup (map fst (processed ++ entries)) ->
    (forall name sec props,
       (name, sec) ∈ entries -> s_properties sec = Some props -> old n props) ->
    filling n h0 dn processed (w_heap (wld st)) ->
    for_each entries (assemble_section E (VRef n) dn) st = (Returns tt, st') ->
    filling n h0 dn (processed ++ entries) (w_heap (wld st')).
Proof.
  intros Hn Hclosed Hkeys. induction entries as [|[name sec] rest IH];
    intros processed st st' Hdup Hold Hfill; cbn [for_each].
  - intros [= <-]. rewrite app_nil_r. exact Hfill.
  - intros Hrun. apply MonadFacts.bind_inv in Hrun as ([] & st1 & Hstep & Hrest).
    assert (name ∉ map fst processed) as Hnew.
    { rewrite map_app in Hdup. apply NoDup_app in Hdup as (_ & Hdisj & _).
      intros Hin. apply (Hdisj _ Hin). left. }
    apply (assemble_section_content n h0 dn processed) in Hstep; auto.
    2: { intros props Hprops. eapply Hold; [left|exact Hprops]. }
    replace (processed ++ (name, sec) :: rest)
      with ((processed ++ [(name, sec)]) ++ rest) by (rewrite <- app_assoc; reflexivity).
    eapply IH; [|intros; eapply Hold; [right|]; eauto|exact Hstep|exact Hrest].
    rewrite <- app_assoc. exact Hdup.
Qed.

(** What [assemble_params] returns carries the content of the sections. *)
Lemma assemble_params_content p dn (st : state X) params st' :
  well_formed (Parser.get_sections (document_of E p (w_ext (wld st))))
    (w_heap (wld st)) ->
  assemble_params E p dn st = (Returns params, st') ->
  carries dn (Parser.get_sections (document_of E p (w_ext (wld st))))
    (w_heap (wld st)) (w_heap (wld st')) params.
Proof.
  intros (Hclosed & Hkeys & Hdup & Hold) Hrun.
  unfold assemble_params in Hrun.
  apply MonadFacts.bind_inv in Hrun as (v & st1 & Halloc & Hrun).
  unfold alloc in Halloc. injection Halloc as <- <-.
  apply MonadFacts.bind_inv in Hrun as (d & st2 & Hdoc & Hrun).
  unfold the_document, bind, get_world, ret in Hdoc. injection Hdoc as <- <-.
  apply MonadFacts.bind_inv in Hrun as ([] & st3 & Hloop & Hret).
  injection Hret as <- <-.
  cbn [wld w_ext with_heap with_world] in Hloop.
  apply (assemble_loop_content (length (w_heap (wld st))) (w_heap (wld st)) dn
           (Parser.get_sections (document_of E p (w_ext (wld st))))
           eq_refl Hclosed Hkeys []) in Hloop; [|exact Hdup|exact Hold|].
  - destruct Hloop as [_ _ (kvs & Hparams & Hall)]. exists kvs.
    unfold Heap.items. cbn [wld w_heap] in *. rewrite Hparams.
    split; [reflexivity|].
    eapply Forall2_impl; [exact Hall|].
    intros entry kv (Hk & props & f & e & Hprops & _ & _ & _ & _ & Hview).
    split; [exact Hk|]. exists props. auto.
  - cbn [wld w_heap with_heap with_world]. split.
    + intros l Hl. apply lookup_app_l. exact Hl.
    + rewrite length_app. simpl. lia.
    + exists []. split; [apply list_lookup_middle; reflexivity|constructor].
Qed.

End Loop.

End ParamsFacts.

(** ** The stages after the persistence *)

Module Continuation.

Import AquaChemistry MonadFacts Aliasing.

Section Continuation.

Context {X : Type} (E : Externals X).

Lemma call_inv {A} ev (f : ext_op X A) (st : state X) a st' :
  call ev f st = (Returns a, st') ->
  exists w, f (wld st) = (Reply a, w) /\ st' = with_world (logged st [ev]) w.
Proof.
  unfold call. destruct (f (wld st)) as [[a'|e] w]; [|discriminate].
  intros [= <- <-]. eauto.
Qed.

Lemma get_section_properties_inv p section (st : state X) v st' :
  get_section_properties E p section st = (Returns v, st') ->
  trace st' = trace st /\ _core st' = _core st /\ _parser st' = _parser st
  /\ w_ext (wld st') = w_ext (wld st).
Proof.
  unfold get_section_properties, the_document, bind, get_world, ret, alloc.
  destruct (Parser.get_section_properties _ section); intros [= <- <-]; auto.
Qed.

(** Lines 219 to 225 when they succeed: the operator is resolved,
    initialised and run, and the substitutions are processed, in this
    order; the operator is then the [_core] of the instance. *)
Lemma run_operator_returns p mol (st : state X) io st2 :
  run_operator E p mol st = (Returns io, st2) ->
  exists core properties info,
    trace st2 =
      trace st ++
      [EvGetOperator
         (Parser.get_section_property (document_of E p (w_ext (wld st)))
            (w_heap (wld st)) OPERATOR NAME);
       EvInitParams core properties; EvCoreRun core mol; EvSubstitute p info]
    /\ _core st2 = VObj core /\ _parser st2 = _parser st.
Proof.
  unfold run_operator. intros H.
  erewrite bind_returns in H; [|reflexivity]. cbv beta in H.
  apply bind_inv in H as (core & s1 & Hcore & H).
  apply call_inv in Hcore as (w1 & _ & ->).
  apply bind_inv in H as ([] & s2 & Hset & H). injection Hset as <-.
  apply bind_inv in H as (properties & s3 & Hprops & H).
  apply get_section_properties_inv in Hprops as (Ht3 & Hc3 & Hp3 & _).
  apply bind_inv in H as ([] & s4 & Hinit & H).
  apply call_inv in Hinit as (w4 & _ & ->).
  apply bind_inv in H as (io' & s5 & Hrun & H).
  apply call_inv in Hrun as (w5 & _ & ->).
  apply bind_inv in H as (w & s6 & Hw & H). injection Hw as <- <-.
  apply bind_inv in H as (r & s7 & Hsub & H).
  apply call_inv in Hsub as (w7 & _ & ->).
  injection H as <- <-.
  exists core, properties,
    (molecule_info E core
       (w_ext (wld (with_world (logged (with_world (logged s3
          [EvInitParams core properties]) w4) [EvCoreRun core mol]) w5)))).
  cbn [trace _core _parser wld with_world logged with_core] in *.
  rewrite Ht3, Hc3, Hp3. rewrite <- !app_assoc. auto.
Qed.

End Continuation.

End Continuation.

(** * The claims of the specification *)

Section Claims.

Import Heap Aliasing HeapFacts AssemblyFacts AquaChemistry Drive Rules MonadFacts
  Evaluation Content ContentFacts ParamsFacts Continuation.

Context {X : Type} (E : Externals X).

(** C3. For every well-formed document (section names in lower case),
    the parameters assembled by lines 227 to 239 are a dictionary whose
    keys are never the name section, the driver section, the operator
    section, or the section of the driver itself (whatever the case of
    the resolved driver name); every key names a section of the document
    that has properties; and the entry of the problem section does not
    contain the auto-substitution marker. *)
Theorem assembled_params_exclusions (p : nat) (driver_name : string)
  (st : state X) (params : pyval) (st' : state X) :
  Parser.lower_case_names (document_of E p (w_ext (wld st))) ->
  assemble_params E p driver_name st = (Returns params, st') ->
  exists l items,
    params = VRef l /\ w_heap (wld st') !! l = Some (ODict items) /\
    forall k v, (k, v) ∈ items ->
      k <> NAME /\ k <> DRIVER /\ k <> OPERATOR
      /\ lower k <> lower driver_name
      /\ (exists section,
            (k, section) ∈ Parser.get_sections (document_of E p (w_ext (wld st)))
            /\ s_properties section <> None)
      /\ (k = PROBLEM ->
          Heap.contains (w_heap (wld st')) v AUTO_SUBSTITUTIONS = Returns false).
Proof.
  intros Hlower Hrun.
  apply assemble_params_spec in Hrun as [_ Hspec].
  destruct (Hspec params eq_refl) as [-> [_ _ (items & Hl & Hitems)]].
  exists (length (w_heap (wld st))), items. split; [reflexivity|split; [exact Hl|]].
  intros k v Hin.
  destruct (Hitems k v Hin) as ((HN & HD & HO & Hdn & sec & Hsec & Hprops) & _ & Hmark).
  repeat split; auto.
  - unfold Parser.lower_case_names in Hlower. rewrite Forall_forall in Hlower.
    pose proof (Hlower _ Hsec) as Hk. simpl in Hk. rewrite Hk. exact Hdn.
  - exists sec. auto.
Qed.

(** C7. The parameters assembled by lines 227 to 239 hold deep copies.
    Every item of the returned mapping is a new object, and in a
    well-formed heap the mapping has one item for each section that is
    not left out, with the content of the properties of that section.
    Whatever a caller then does to the returned mapping, to what it
    reaches and to objects the caller creates, the document of the
    parser is the same, every object that existed before the assembly is
    as it was, and so is every object reachable from the properties of a
    section, whose content is therefore what it was; and in a heap
    without dangling references nothing else has become reachable from
    them. *)
Theorem params_are_deep_copies (p : nat) (driver_name : string)
  (st : state X) (params : pyval) (st' : state X)
  (held : list pyval) (h' : list pyobj) :
  assemble_params E p driver_name st = (Returns params, st') ->
  caller_steps ([params], w_heap (wld st')) (held, h') ->
  let h0 := w_heap (wld st) in
  let doc := document_of E p (w_ext (wld st)) in
  document_of E p (w_ext (wld st')) = doc
  /\ (forall l, l < length h0 -> h' !! l = h0 !! l)
  /\ (forall name section properties l,
        (name, section) ∈ Parser.get_sections doc ->
        s_properties section = Some properties ->
        reach h0 properties l -> h' !! l = h0 !! l)
  /\ (heap_closed h0 ->
      forall name section properties l,
        (name, section) ∈ Parser.get_sections doc ->
        s_properties section = Some properties ->
        (forall l0, properties = VRef l0 -> l0 < length h0) ->
        reach h' properties l -> reach h0 properties l)
  /\ (exists kvs,
        Heap.items (w_heap (wld st')) params = Returns kvs
        /\ forall k v, (k, v) ∈ kvs ->
             fresh_in (S (length h0)) (length (w_heap (wld st'))) v)
  /\ (well_formed (Parser.get_sections doc) h0 ->
      carries driver_name (Parser.get_sections doc) h0 (w_heap (wld st')) params
      /\ forall name section properties depth,
           (name, section) ∈ Parser.get_sections doc ->
           s_properties section = Some properties ->
           view depth h' properties = view depth h0 properties).
Proof.
  intros Hrun Hsteps h0 doc.
  pose proof Hrun as Hcontent.
  apply assemble_params_spec in Hrun as [(Hx & _) Hspec].
  destruct (Hspec params eq_refl) as [-> [Hold Hyoung (items & Hl & Hitems)]].
  fold h0 in Hold, Hyoung, Hl, Hsteps, Hitems.
  assert (above (length h0) h0 ([VRef (length h0)], w_heap (wld st'))) as Habove.
  { unfold above. cbn [fst snd]. split; [exact Hold|split; [exact Hyoung|split]].
    - constructor; [simpl; lia|constructor].
    - apply lookup_lt_Some in Hl. lia. }
  apply (caller_steps_above _ _ _ _ Habove) in Hsteps as (Hold' & _).
  cbn [snd] in Hold'.
  split; [subst doc; rewrite Hx; reflexivity|].
  split; [exact Hold'|]. split; [|split; [|split]].
  - intros name section properties l _ _ Hreach.
    apply Hold'. eapply reach_allocated; eauto.
  - intros Hclosed name section properties l _ _ Hroot Hreach.
    exact (reach_back (length h0) h0 h' properties l eq_refl Hclosed Hold' Hroot Hreach).
  - exists items. unfold Heap.items. fold h0. rewrite Hl. split; [reflexivity|].
    intros k v Hin. exact (proj1 (proj2 (Hitems k v Hin))).
  - intros Hwf. split; [exact (assemble_params_content E _ _ _ _ _ Hwf Hcontent)|].
    destruct Hwf as (Hclosed & _ & _ & Hprops).
    intros name section properties depth Hin Hsec.
    apply (view_old (length h0)); [apply closed_old; exact Hclosed|exact Hold'|].
    eapply Hprops; eauto.
Qed.

(** C1. When the driver section of the validated document configures a
    persistence path and the stages up to the driver succeed, [run]
    saves the molecule under the resolved path and returns a new
    dictionary whose only key is [printable], bound to a new list of one
    line that quotes that path; the log of the run has the save of the
    molecule and no call of the algorithm runner. *)
Theorem run_persists_and_stops (input output : pyval) (st : state X)
  (dv : driven) (f : string) (w : world X) :
  drives E input st dv ->
  dv_hdf5 dv = VStr f ->
  molecule_save E (dv_molecule dv) (dv_name dv) (dv_data dv)
    (VStr (hdf5_path E (work_path_of E (dv_document dv)) f)) (dv_world dv)
    = (Reply tt, w) ->
  let path := hdf5_path E (work_path_of E (dv_document dv)) f in
  let n := length (w_heap w) in
  exists description st',
    let evs :=
      drive_events E input dv description ++
      [EvMoleculeSave (dv_molecule dv) (dv_name dv) (dv_data dv) (VStr path);
       EvLog (saved_text path); EvLog "Run ended with hdf5 file saved.";
       EvLog "No further process."] in
    run E input output st = (Returns (VRef (S n)), st')
    /\ w_heap (wld st') =
         w_heap w ++ [OList [VStr (saved_text path)]; ODict [("printable", VRef n)]]
    /\ trace st' = trace st ++ evs
    /\ Forall (fun e => is_run_algorithm e = false) evs.
Proof.
  intros Hdrives Hhdf5 Hsave path n.
  destruct (drives_persists E input st dv f w Hdrives Hhdf5 Hsave)
    as (st1 & description & Hparse & Hp & Hrun & _).
  exists description. eexists. cbv zeta.
  rewrite (run_parsed E _ _ _ _ _ Hparse Hp).
  rewrite (bind_returns _ _ _ _ _ Hrun).
  unfold logger_info. run_monad. cbn [lookup list_lookup py_eqb Z.eqb _DRIVER_RUN_TO_HDF5 Pos.eqb].
  run_monad. rewrite length_app. cbn [length]. rewrite Nat.add_1_r.
  split; [reflexivity|]. split.
  - rewrite <- app_assoc. reflexivity.
  - split.
    + fold path. rewrite <- !app_assoc. reflexivity.
    + repeat constructor.
Qed.

(** C2. In staged mode the molecule is still saved when the driver
    section configures a persistence path, and the pipeline goes on:
    [_run_driver_from_parser] is then the stages of lines 218 to 241
    run from the state the persistence leaves, and the next call after
    the report of the save is the resolution of the operator.  Whenever
    the staged call returns, the operator was resolved, initialised and
    run and the substitutions were processed, in this order, after the
    save; the parameters were then assembled; and what is returned is
    the tuple tagged [_DRIVER_RUN_TO_ALGO_INPUT] of the assembled
    mapping and the input of the algorithm, the mapping having, in a
    well-formed heap, one item for each section that is not left out
    with the content of its properties. *)
Theorem staging_persists_and_continues (input : pyval) (st : state X)
  (dv : driven) (f : string) (w : world X) :
  drives E input st dv ->
  dv_hdf5 dv = VStr f ->
  molecule_save E (dv_molecule dv) (dv_name dv) (dv_data dv)
    (VStr (hdf5_path E (work_path_of E (dv_document dv)) f)) (dv_world dv)
    = (Reply tt, w) ->
  let path := hdf5_path E (work_path_of E (dv_document dv)) f in
  exists st1 description,
    let saved :=
      {| wld := w; _parser := VObj (dv_parser dv); _core := _core st;
         trace := trace st ++ drive_events E input dv description ++
           [EvMoleculeSave (dv_molecule dv) (dv_name dv) (dv_data dv) (VStr path);
            EvLog (saved_text path)] |} in
    let operator :=
      Parser.get_section_property
        (document_of E (dv_parser dv) (w_ext w)) (w_heap w) OPERATOR NAME in
    parse_input E input st = (Returns tt, st1)
    /\ _parser st1 = VObj (dv_parser dv)
    /\ _run_driver_from_parser E (VObj (dv_parser dv)) true st1 =
         algorithm_input E (dv_parser dv) (dv_name dv) (dv_molecule dv) saved
    /\ _run_drive E input true st =
         (let* driver_return :=
            algorithm_input E (dv_parser dv) (dv_name dv) (dv_molecule dv) in
          attach_input E driver_return)%py saved
    /\ (exists evs,
         trace (snd (_run_driver_from_parser E (VObj (dv_parser dv)) true st1)) =
           trace saved ++ EvGetOperator operator :: evs)
    /\ forall driver_return st3,
         _run_driver_from_parser E (VObj (dv_parser dv)) true st1
           = (Returns driver_return, st3) ->
         exists core properties info input_object st2 params,
           let sections :=
             Parser.get_sections
               (document_of E (dv_parser dv) (w_ext (wld st2))) in
           run_operator E (dv_parser dv) (dv_molecule dv) saved
             = (Returns input_object, st2)
           /\ trace st2 =
                trace saved ++
                [EvGetOperator operator; EvInitParams core properties;
                 EvCoreRun core (dv_molecule dv);
                 EvSubstitute (dv_parser dv) info]
           /\ assemble_params E (dv_parser dv) (dv_name dv) st2
                = (Returns params, st3)
           /\ driver_return =
                [VInt _DRIVER_RUN_TO_ALGO_INPUT; params; VObj input_object]
           /\ trace st3 = trace st2
           /\ _core st3 = VObj core
           /\ (exists l, params = VRef l /\ is_dict (w_heap (wld st3)) params = true)
           /\ (well_formed sections (w_heap (wld st2)) ->
               carries (dv_name dv) sections (w_heap (wld st2))
                 (w_heap (wld st3)) params).
Proof.
  intros Hdrives Hhdf5 Hsave path.
  destruct (drives_persists E input st dv f w Hdrives Hhdf5 Hsave)
    as (st1 & description & Hparse & Hp & _ & Hrun).
  exists st1, description. cbv zeta.
  split; [exact Hparse|]. split; [exact Hp|]. split; [exact Hrun|]. split; [|split].
  - rewrite (run_drive_parsed E _ _ _ _ _ Hparse Hp).
    unfold bind at 1. rewrite Hrun. reflexivity.
  - rewrite Hrun. apply Stability.algorithm_input_resolves_operator.
  - intros dr st3 Hreturns. rewrite Hrun in Hreturns.
    unfold algorithm_input in Hreturns.
    apply bind_inv in Hreturns as (io & st2 & Hop & Hreturns).
    apply bind_inv in Hreturns as (params & st3' & Hparams & Hret).
    injection Hret as <- <-.
    destruct (run_operator_returns E _ _ _ _ _ Hop)
      as (core & properties & info & Htrace & Hcore & _).
    exists core, properties, info, io, st2, params.
    split; [exact Hop|]. split; [exact Htrace|]. split; [exact Hparams|].
    split; [reflexivity|].
    destruct (assemble_params_spec E _ _ _ _ _ Hparams) as [(_ & _ & Hc & Ht) Hspec].
    split; [exact Ht|]. split; [congruence|]. split.
    + destruct (Hspec params eq_refl) as [-> [_ _ (items & Hl & _)]].
      eexists. split; [reflexivity|]. unfold is_dict. rewrite Hl. reflexivity.
    + intros Hwf. exact (assemble_params_content E _ _ _ _ _ Hwf Hparams).
Qed.

(** C8. When the driver section of the validated document configures a
    persistence path, the tuple [_run_driver_from_parser] hands to
    [run_drive] is the tag and the line that reports the save, and
    [run_drive] raises [IndexError] on line 162, which is no
    [AquaChemistryError]; it returns no mapping. *)
Theorem run_drive_breaks_after_persisting (input : pyval) (st : state X)
  (dv : driven) (f : string) (w : world X) :
  drives E input st dv ->
  dv_hdf5 dv = VStr f ->
  molecule_save E (dv_molecule dv) (dv_name dv) (dv_data dv)
    (VStr (hdf5_path E (work_path_of E (dv_document dv)) f)) (dv_world dv)
    = (Reply tt, w) ->
  let path := hdf5_path E (work_path_of E (dv_document dv)) f in
  exists st1 st',
    parse_input E input st = (Returns tt, st1)
    /\ _run_driver_from_parser E (_parser st1) false st1 =
         (Returns [VInt _DRIVER_RUN_TO_HDF5; VStr (saved_text path)], st')
    /\ run_drive E input st = (Raises (IndexError "tuple index out of range"), st')
    /\ (forall msg, IndexError "tuple index out of range" <> AquaChemistryError msg)
    /\ wld st' = w.
Proof.
  intros Hdrives Hhdf5 Hsave path.
  destruct (drives_persists E input st dv f w Hdrives Hhdf5 Hsave)
    as (st1 & description & Hparse & Hp & Hrun & _).
  exists st1. eexists. split; [exact Hparse|]. rewrite Hp.
  split; [exact Hrun|]. split; [|split; [discriminate|reflexivity]].
  unfold run_drive. rewrite (run_drive_parsed E _ _ _ _ _ Hparse Hp).
  rewrite (bind_returns _ _ _ _ _ Hrun). reflexivity.
Qed.

(** C4. On a document that parses and validates, [run] fails in the
    resolution of the driver before any driver is resolved or run: with
    the missing-property error when the driver section has no [name];
    with the missing-data error when the section of the named driver has
    no raw payload, whether the driver is registered or not; and with
    the unknown-driver error when the payload is there and the driver is
    not registered.  The log then ends with the validation and the two
    lines about the experiment. *)
Theorem driver_resolution_fails_first (input output : pyval) (st : state X)
  (p : nat) (w : world X) :
  validates E input st p w ->
  let d := document_of E p (w_ext w) in
  let name := Parser.get_section_property d (w_heap w) DRIVER NAME in
  exists description,
    let evs := validate_events input p d description in
    let st' :=
      {| wld := w; _parser := VObj p; _core := _core st; trace := trace st ++ evs |} in
    Forall (fun e => is_driver_event e = false) evs
    /\ (name = VNone ->
        run E input output st =
          (Raises (AquaChemistryError (missing_property NAME DRIVER)), st'))
    /\ (forall dn section,
          name = VStr dn -> Parser.get_section d dn = Some section ->
          s_data section = None ->
          run E input output st =
            (Raises (AquaChemistryError (missing_property "data" dn)), st'))
    /\ (forall dn section data,
          name = VStr dn -> Parser.get_section d dn = Some section ->
          s_data section = Some data -> in_names dn (module_names E) = false ->
          run E input output st =
            (Raises (AquaChemistryError (missing_driver dn)), st')).
Proof.
  intros [w0 w1 Hin Hnew Hparse Hval] d name.
  pose proof (parse_input_reply E _ _ _ _ _ Hin Hnew Hparse) as Hparsed.
  destruct (resolve_driver_validated E p
              {| wld := w1; _parser := VObj p; _core := _core st;
                 trace := trace st ++ [EvNewParser input; EvParse p] |} w Hval)
    as [description Hres].
  cbv zeta in Hres. cbn [_parser _core trace] in Hres. fold d name in Hres.
  exists description. cbv zeta.
  assert (forall e,
            resolve_driver E p
              {| wld := w1; _parser := VObj p; _core := _core st;
                 trace := trace st ++ [EvNewParser input; EvParse p] |} =
              (Raises e,
               {| wld := w; _parser := VObj p; _core := _core st;
                  trace := (trace st ++ [EvNewParser input; EvParse p]) ++
                    [EvValidate p;
                     EvLog ("Running chemistry problem from input file: "
                            +:+ format_filename (Parser.get_filename d));
                     EvLog ("Experiment description: " +:+ description)] |}) ->
            run E input output st =
              (Raises e,
               {| wld := w; _parser := VObj p; _core := _core st;
                  trace := trace st ++ validate_events input p d description |}))
    as Hfail.
  { intros e He. rewrite (run_parsed E _ _ _ _ p Hparsed eq_refl).
    unfold _run_driver_from_parser. rewrite bind_assoc.
    rewrite (bind_raises _ _ _ _ _ He). unfold validate_events.
    rewrite <- app_assoc. reflexivity. }
  split; [repeat constructor|]. split; [|split].
  - intros Hname. apply Hfail. rewrite Hres, Hname. reflexivity.
  - intros dn section Hname Hsec Hdata. apply Hfail.
    rewrite Hres, Hname, Hsec, Hdata. reflexivity.
  - intros dn section data Hname Hsec Hdata Hreg. apply Hfail.
    rewrite Hres, Hname, Hsec, Hdata, Hreg. reflexivity.
Qed.

(** [run_algorithm_from_json] and [run_algorithm_from_jsonfile] have an
    [output] they never use: whatever the path, nothing is opened for
    writing and no line is printed to a file, and the call behaves as
    the call without an output path. *)
Lemma output_is_ignored (params jsonfile output : pyval) (st : state X) :
  run_algorithm_from_json E params output st = run_algorithm_from_json E params VNone st
  /\ run_algorithm_from_jsonfile E jsonfile output st =
       run_algorithm_from_jsonfile E jsonfile VNone st
  /\ (exists evs,
        trace (snd (run_algorithm_from_json E params output st)) = trace st ++ evs
        /\ Forall (fun e => is_file_write e = false) evs)
  /\ (exists evs,
        trace (snd (run_algorithm_from_jsonfile E jsonfile output st)) = trace st ++ evs
        /\ Forall (fun e => is_file_write e = false) evs).
Proof.
  split; [reflexivity|]. split; [reflexivity|]. split.
  - assert (follows (only_logs (fun e => is_file_write e = false))
              (run_algorithm_from_json E params output)) as Hrule by follow.
    destruct (run_algorithm_from_json E params output st) as [r st'] eqn:Hrun.
    exact (proj1 (Hrule _ _ _ Hrun)).
  - assert (follows (only_logs (fun e => is_file_write e = false))
              (run_algorithm_from_jsonfile E jsonfile output)) as Hrule.
    { unfold run_algorithm_from_jsonfile. follow. }
    destruct (run_algorithm_from_jsonfile E jsonfile output st) as [r st'] eqn:Hrun.
    exact (proj1 (Hrule _ _ _ Hrun)).
Qed.


(** C9. [run], [run_drive] and [run_drive_to_jsonfile] assign the new
    parser to the instance before it parses and before the document is
    validated, and nothing assigns the attribute again: whatever the
    outcome of the call, and so after every failure of a later stage,
    the instance holds the new parser, and [save_input] does not raise
    the missing-input error but asks that parser to save itself.  On an
    instance that never ran, [save_input] raises the missing-input
    error. *)
Theorem failed_run_keeps_new_parser (input output jsonfile : pyval)
  (st : state X) (p : nat) (w0 : world X) :
  is_none input = false ->
  InputParser_new E input (wld st) = (Reply p, w0) ->
  is_none jsonfile = false ->
  let kept (st' : state X) :=
    _parser st' = VObj p
    /\ forall file,
        save_input E file st' =
          call (EvSaveToFile p file) (save_to_file E p file) st' in
  (forall r st', run E input output st = (r, st') -> kept st')
  /\ (forall r st', run_drive E input st = (r, st') -> kept st')
  /\ (forall r st', run_drive_to_jsonfile E input jsonfile st = (r, st') -> kept st')
  /\ (_parser st = VNone ->
      forall file,
        save_input E file st =
          (Raises (AquaChemistryError "Missing input information."), st)).
Proof.
  intros Hin Hnew Hjson kept.
  assert (forall st', _parser st' = VObj p -> kept st') as Hkept.
  { intros st' Hp. split; [exact Hp|]. intros file.
    unfold save_input, bind, get_parser. rewrite Hp. reflexivity. }
  split; [|split; [|split]].
  - intros r st' Hrun. apply Hkept.
    change st' with (snd (r, st')). rewrite <- Hrun. unfold run.
    apply (Stability.assigned_parser_stays E _ _ _ _ _ Hin Hnew). follow.
  - intros r st' Hrun. apply Hkept.
    change st' with (snd (r, st')). rewrite <- Hrun. unfold run_drive, _run_drive.
    apply (Stability.assigned_parser_stays E _ _ _ _ _ Hin Hnew). follow.
  - intros r st' Hrun. apply Hkept.
    change st' with (snd (r, st')). rewrite <- Hrun.
    unfold run_drive_to_jsonfile, _run_drive. rewrite Hjson. cbv iota.
    rewrite bind_assoc.
    apply (Stability.assigned_parser_stays E _ _ _ _ _ Hin Hnew). follow.
  - intros Hp file. unfold save_input, bind, get_parser. rewrite Hp. reflexivity.
Qed.


End Claims.

(** ** The claims on the demonstration document *)

Module Scenario.

Import AquaChemistry Drive.

Lemma demo_validates hdf5 with_data registered well_typed :
  validates (Demo.demo_world hdf5 with_data registered true well_typed)
    (VStr "h2.in") Demo.fresh 7 (Demo.parsed_world hdf5 with_data).
Proof.
  apply (validates_intro _ _ _ _ _ (wld Demo.fresh) (Demo.parsed_world hdf5 with_data));
    reflexivity.
Qed.

Lemma demo_drives : drives Demo.cached (VStr "h2.in") Demo.fresh Demo.demo_driven.
Proof.
  apply (drives_intro _ _ _ _ (Demo.parsed_world true true)
           (Demo.parsed_world true true) (Demo.parsed_world true true));
    try reflexivity.
  apply demo_validates.
Qed.

End Scenario.

Module ScenarioHeap.

Import Aliasing Content.

Ltac each_object l H tac :=
  do 6 (destruct l as [|l]; [cbn in H; tac|]); try discriminate.

Lemma demo_closed (hdf5 after : bool) :
  heap_closed (if after then DemoPlain.substituted hdf5
               else Demo.demo_objects 0 hdf5).
Proof.
  intros l o l' Hl Hin.
  destruct hdf5, after;
    each_object l Hl
      ltac:(injection Hl as <-; cbn in Hin;
            repeat (apply elem_of_cons in Hin as [Hin|Hin];
                    [try discriminate; injection Hin as ->; simpl; lia|]);
            inversion Hin).
Qed.

Lemma demo_distinct (hdf5 after : bool) :
  distinct_keys 6 (if after then DemoPlain.substituted hdf5
                   else Demo.demo_objects 0 hdf5).
Proof.
  intros l kvs _ Hl.
  destruct hdf5, after;
    each_object l Hl
      ltac:(first [discriminate
                  |injection Hl as <-; apply (bool_decide_unpack _); vm_compute;
                   exact I]).
Qed.

(** The heap of the demonstration is well formed, before and after the
    substitutions. *)
Lemma demo_well_formed (hdf5 after : bool) :
  well_formed (d_sections (Demo.demo_document 0 true))
    (if after then DemoPlain.substituted hdf5 else Demo.demo_objects 0 hdf5).
Proof.
  split; [apply demo_closed|]. split.
  { replace (length _) with 6 by (destruct hdf5, after; reflexivity).
    apply demo_distinct. }
  split; [apply (bool_decide_unpack _); vm_compute; exact I|].
  intros name section properties Hin Hprops.
  replace (length _) with 6 by (destruct hdf5, after; reflexivity).
  cbn in Hin.
  repeat (apply elem_of_cons in Hin as [Hin|Hin];
          [injection Hin as -> ->; cbn in Hprops; try discriminate;
           injection Hprops as <-; simpl; lia|]).
  inversion Hin.
Qed.

End ScenarioHeap.

Lemma run_persists_and_stops_witness :
  fst (AquaChemistry.run Demo.cached (VStr "h2.in") (VStr "out.txt") Demo.fresh)
    = Returns (VRef 7)
  /\ w_heap (wld (snd (AquaChemistry.run Demo.cached (VStr "h2.in") (VStr "out.txt")
                        Demo.fresh)))
       = Demo.demo_objects 0 true ++
         [OList [VStr "HDF5 file saved '/work/molecule.hdf5'"];
          ODict [("printable", VRef 6)]].
Proof.
  destruct (run_persists_and_stops Demo.cached (VStr "h2.in") (VStr "out.txt")
              Demo.fresh Demo.demo_driven "molecule.hdf5" (Demo.parsed_world true true)
              Scenario.demo_drives eq_refl eq_refl)
    as (description & st' & Hrun & Hheap & _).
  rewrite Hrun. cbn [fst snd]. rewrite Hheap. split; reflexivity.
Defined.

Lemma staging_persists_and_continues_witness :
  let staged :=
    AquaChemistry._run_driver_from_parser Demo.cached (VObj 7) true
      (Demo.parsed true) in
  (exists description,
     trace (snd staged)
       = [EvNewParser (VStr "h2.in"); EvParse 7; EvValidate 7;
          EvLog "Running chemistry problem from input file: h2.in";
          EvLog ("Experiment description: " +:+ description);
          EvGetDriver "PySCF";
          EvDriverRun 11 (Some "/work") (Drive.dv_section Demo.demo_driven);
          EvMoleculeLog 12;
          EvMoleculeSave 12 "PySCF" "atom=H .0 .0 .0; H .0 .0 0.735"
            (VStr "/work/molecule.hdf5");
          EvLog "HDF5 file saved '/work/molecule.hdf5'";
          EvGetOperator (VStr "hamiltonian");
          EvInitParams 13 (VRef 2); EvCoreRun 13 12; EvSubstitute 7 (VObj 16)])
  /\ fst staged = Returns [VInt 2; VRef 6; VObj 14]
  /\ Content.carries "PySCF" (d_sections (Demo.demo_document 0 true))
       (DemoPlain.substituted true) (w_heap (wld (snd staged))) (VRef 6).
Proof.
  intros staged.
  destruct (staging_persists_and_continues Demo.cached (VStr "h2.in")
              Demo.fresh Demo.demo_driven "molecule.hdf5" (Demo.parsed_world true true)
              Scenario.demo_drives eq_refl eq_refl)
    as (st1 & description & Hparse & _ & Hrun & _ & _ & Hnext).
  assert (st1 = Demo.parsed true) as -> by (injection Hparse as <-; reflexivity).
  split; [|split; [vm_compute; reflexivity|]].
  - exists description.
    etransitivity; [exact (f_equal (fun r => trace (snd r)) Hrun)|].
    vm_compute. reflexivity.
  - destruct (Hnext [VInt 2; VRef 6; VObj 14] (snd staged))
      as (core & properties & info & io & st2 & params & Hop & _ & _ & Hdr & _ & _ & _
          & Hcarries).
    { vm_compute. reflexivity. }
    injection Hdr as <- _.
    apply (f_equal (fun r => wld (snd r))) in Hop.
    cbv beta in Hop. change (wld (snd (Returns io, st2))) with (wld st2) in Hop.
    cbv zeta in Hcarries. rewrite <- Hop in Hcarries.
    refine (_ (Hcarries _)).
    + intros H. vm_compute in H. vm_compute. exact H.
    + pose proof (ScenarioHeap.demo_well_formed true true) as H.
      vm_compute in H. vm_compute. exact H.
Defined.

Lemma assembled_params_exclusions_witness :
  exists l items,
    w_heap (wld (snd (AquaChemistry.assemble_params Demo.plain 7 "PySCF"
                        (Demo.parsed false)))) !! l = Some (ODict items)
    /\ (forall v, (Parser.NAME, v) ∉ items)
    /\ (forall v, (Parser.DRIVER, v) ∉ items)
    /\ (forall v, (Parser.OPERATOR, v) ∉ items)
    /\ (forall v, ("pyscf", v) ∉ items).
Proof.
  destruct (assembled_params_exclusions Demo.plain 7 "PySCF" (Demo.parsed false)
              (VRef 6)
              (snd (AquaChemistry.assemble_params Demo.plain 7 "PySCF"
                      (Demo.parsed false))))
    as (l & items & _ & Hl & Hitems).
  - repeat constructor.
  - vm_compute. reflexivity.
  - exists l, items. split; [exact Hl|].
    repeat split; intros v Hin; destruct (Hitems _ _ Hin) as (HN & HD & HO & Hdn & _);
      [apply HN|apply HD|apply HO|apply Hdn]; reflexivity.
Defined.

Lemma params_are_deep_copies_witness :
  let st := Demo.parsed false in
  let st' := snd (AquaChemistry.assemble_params Demo.plain 7 "PySCF" st) in
  let h' := <[7 := ODict [("energy", VStr "0")]]> (w_heap (wld st')) in
  h' !! 7 = Some (ODict [("energy", VStr "0")])
  /\ h' !! 3 = w_heap (wld st) !! 3
  /\ h' !! 4 = w_heap (wld st) !! 4
  /\ h' !! 5 = w_heap (wld st) !! 5
  /\ Content.carries "PySCF" (d_sections (Demo.demo_document 0 true))
       (Demo.demo_objects 0 false) (w_heap (wld st')) (VRef 6)
  /\ Content.view 2 h' (VRef 3) = Content.view 2 (w_heap (wld st)) (VRef 3).
Proof.
  intros st st' h'.
  destruct (params_are_deep_copies Demo.plain 7 "PySCF" st (VRef 6) st'
              [VRef 6] h') as (_ & Hold & _ & _ & _ & Hcontent).
  - vm_compute. reflexivity.
  - eapply Aliasing.caller_more; [|apply Aliasing.caller_done].
    apply (Aliasing.caller_write [VRef 6] (w_heap (wld st')) (VRef 6) 7
             (ODict [("energy", VStr "0")])).
    + apply list_elem_of_here.
    + eapply (Aliasing.reach_inside _ 6 _ (VRef 7) 7).
      * vm_compute. reflexivity.
      * apply list_elem_of_here.
      * eapply Aliasing.reach_here. vm_compute. reflexivity.
    + repeat constructor.
  - destruct (Hcontent (ScenarioHeap.demo_well_formed false false))
      as [Hcarries Hviews].
    split; [reflexivity|].
    split; [apply Hold; vm_compute; lia|].
    split; [apply Hold; vm_compute; lia|].
    split; [apply Hold; vm_compute; lia|].
    split; [exact Hcarries|].
    apply (Hviews "problem"
             {| s_data := None; s_properties := Some (VRef 3) |} (VRef 3) 2);
      [|reflexivity].
    cbn. do 4 apply list_elem_of_further. apply list_elem_of_here.
Defined.

Lemma driver_resolution_fails_first_witness :
  fst (AquaChemistry.run (Demo.demo_world false false [] true true)
         (VStr "h2.in") VNone Demo.fresh)
    = Raises (AquaChemistryError (AquaChemistry.missing_property "data" "PySCF"))
  /\ trace (snd (AquaChemistry.run (Demo.demo_world false false [] true true)
                   (VStr "h2.in") VNone Demo.fresh))
       = [EvNewParser (VStr "h2.in"); EvParse 7; EvValidate 7;
          EvLog "Running chemistry problem from input file: h2.in";
          EvLog "Experiment description: H2 experiment"].
Proof.
  destruct (driver_resolution_fails_first (Demo.demo_world false false [] true true)
              (VStr "h2.in") VNone Demo.fresh 7 (Demo.parsed_world false false)
              (Scenario.demo_validates false false [] true))
    as (description & _ & _ & Hdata & _).
  split; [rewrite (Hdata "PySCF" _ eq_refl eq_refl eq_refl); reflexivity|].
  vm_compute. reflexivity.
Defined.


Lemma run_drive_breaks_after_persisting_witness :
  fst (AquaChemistry.run_drive Demo.cached (VStr "h2.in") Demo.fresh)
    = Raises (IndexError "tuple index out of range")
  /\ wld (snd (AquaChemistry.run_drive Demo.cached (VStr "h2.in") Demo.fresh))
       = Demo.parsed_world true true.
Proof.
  destruct (run_drive_breaks_after_persisting Demo.cached (VStr "h2.in")
              Demo.fresh Demo.demo_driven "molecule.hdf5" (Demo.parsed_world true true)
              Scenario.demo_drives eq_refl eq_refl)
    as (st1 & st' & _ & _ & Hrun & _ & Hworld).
  rewrite Hrun. split; [reflexivity|exact Hworld].
Defined.

Lemma failed_run_keeps_new_parser_witness :
  let E := Demo.demo_world false true [] true true in
  let failed := AquaChemistry.run E (VStr "h2.in") VNone Demo.fresh in
  fst failed = Raises (AquaChemistryError (AquaChemistry.missing_driver "PySCF"))
  /\ _parser (snd failed) = VObj 7
  /\ AquaChemistry.save_input E (VStr "saved.in") (snd failed)
       = (Returns tt, logged (snd failed) [EvSaveToFile 7 (VStr "saved.in")]).
Proof.
  intros E failed.
  destruct (failed_run_keeps_new_parser E (VStr "h2.in") VNone (VStr "h2.json")
              Demo.fresh 7 (wld Demo.fresh) eq_refl eq_refl eq_refl)
    as (Hrun & _).
  destruct (Hrun (fst failed) (snd failed)) as [Hp Hsave].
  - apply surjective_pairing.
  - split; [vm_compute; reflexivity|]. split; [exact Hp|].
    rewrite Hsave. reflexivity.
Defined.


(** C5. [run_algorithm_from_json] does not perform the PERSIST stage.
    On the parameters staged from the demonstration document and the
    output path [out.txt], it returns the result of the runner and its
    log has the runner, the conversion and the lines printed to the
    standard output, and no write to a file; [run] with the same path
    prints the lines of the result to it. *)
Theorem staged_run_leaves_output_unwritten :
  let staged :=
    AquaChemistry._run_drive Demo.plain (VStr "h2.in") true Demo.fresh in
  let rerun :=
    AquaChemistry.run_algorithm_from_json Demo.plain (VRef 6) (VStr "out.txt")
      (snd staged) in
  fst staged = Returns (VRef 6)
  /\ fst rerun = Returns (VRef 11)
  /\ trace (snd rerun) =
       trace (snd staged) ++
       [EvRunAlgorithm (VRef 6) VNone; EvConvert (VRef 11);
        EvStdout "Output:"; EvStdout "'energy': -1.137"]
  /\ filter (fun e => Rules.is_file_write e = true) (trace (snd rerun)) = []
  /\ filter (fun e => Rules.is_file_write e = true)
       (trace (snd (AquaChemistry.run Demo.plain (VStr "h2.in") (VStr "out.txt")
                      Demo.fresh)))
     = [EvOpenWrite (VStr "out.txt");
        EvPrintTo (VStr "out.txt") "=== GROUND STATE ENERGY ===";
        EvPrintTo (VStr "out.txt") "-1.137"].
Proof.
  cbv zeta. split; [|split; [|split; [|split]]]; vm_compute; reflexivity.
Qed.

(** * More of the class *)

Section Coverage.

Import Heap Aliasing HeapFacts AssemblyFacts AquaChemistry Drive Rules MonadFacts
  Evaluation Observation Content ContentFacts ParamsFacts Continuation.

Context {X : Type} (E : Externals X).

(** X1. The guards of lines 71, 113 and 156 come before any effect: a call
    without input, or without a JSON file, raises and leaves the
    instance, the world and the log as they were (no parser is created),
    and in [run_drive_to_jsonfile] the test of the JSON file comes
    first. *)
Theorem guards_come_first (input output jsonfile : pyval) (save : bool)
  (st : state X) :
  run E VNone output st = (Raises (AquaChemistryError "Missing input."), st)
  /\ _run_drive E VNone save st = (Raises (AquaChemistryError "Missing input."), st)
  /\ run_drive E VNone st = (Raises (AquaChemistryError "Missing input."), st)
  /\ run_drive_to_jsonfile E input VNone st =
       (Raises (AquaChemistryError "Missing json file"), st)
  /\ (is_none jsonfile = false ->
      run_drive_to_jsonfile E VNone jsonfile st =
        (Raises (AquaChemistryError "Missing input."), st)).
Proof.
  split; [reflexivity|]. split; [reflexivity|]. split; [reflexivity|].
  split; [reflexivity|]. intros Hjson. unfold run_drive_to_jsonfile.
  rewrite Hjson. reflexivity.
Qed.

(** PARSE either fails with the missing input or with an exception of
    the parser, or leaves the new parser in the instance. *)
Lemma parse_input_outcome input (st : state X) r st1 :
  parse_input E input st = (r, st1) ->
  match r with
  | Returns _ => exists p, _parser st1 = VObj p
  | Raises e => e = AquaChemistryError "Missing input." \/ exists n, e = Propagated n
  end.
Proof.
  unfold parse_input. destruct (is_none input).
  { intros [= <- <-]. left. reflexivity. }
  unfold bind, call, set_parser.
  destruct (InputParser_new E input (wld st)) as [[p|n] w0].
  - cbn [wld with_parser with_world logged _parser _core trace].
    destruct (parse E p w0) as [[[]|n] w1]; intros [= <- <-].
    + exists p. reflexivity.
    + right. eauto.
  - intros [= <- <-]. right. eauto.
Qed.

Lemma follows_documented {A} (ok : string -> Prop) (m : M X A) (st : state X) :
  follows (raises_only ok) m -> documented ok (fst (m st)).
Proof.
  intros Hm. destruct (m st) as [[a|e] st'] eqn:Hrun; cbn [fst documented]; [exact I|].
  destruct (Hm _ _ _ Hrun) as [_ Hraise]. specialize (Hraise e eq_refl).
  destruct e; auto.
Qed.

Lemma drive_errors_run msg : drive_errors msg -> run_errors msg.
Proof. left. assumption. Qed.

Ltac documented_raise :=
  apply RuleFacts.follows_raise; cbn [permits raises_only];
  unfold run_errors, drive_errors; eauto 8.

Lemma run_driver_from_parser_documented p save :
  follows (raises_only drive_errors) (_run_driver_from_parser E (VObj p) save).
Proof. unfold _run_driver_from_parser. follow; documented_raise. Qed.

Lemma drive_errors_not_missing_parser : ~ drive_errors "Missing parser".
Proof.
  unfold drive_errors, missing_property, missing_driver.
  intros [H|[H|[[dn H]|[dn H]]]]; discriminate.
Qed.

(** X2. The [AquaChemistryError]s of [run], [run_drive] and
    [run_drive_to_jsonfile] are those of lines 72 (157), 183, 189 and
    192, with line 83 for [run] and line 114 for
    [run_drive_to_jsonfile]; the error of line 168 (missing parser) is
    never raised by them.  Every other exception is one of a
    collaborator or of the interpreter. *)
Theorem entry_points_raise_documented_errors (input output jsonfile : pyval)
  (st : state X) :
  documented run_errors (fst (run E input output st))
  /\ documented drive_errors (fst (run_drive E input st))
  /\ documented (fun msg => drive_errors msg \/ msg = "Missing json file")
       (fst (run_drive_to_jsonfile E input jsonfile st))
  /\ ~ run_errors "Missing parser"
  /\ "Missing parser" <> "Missing json file".
Proof.
  assert (forall save, documented drive_errors (fst (_run_drive E input save st)))
    as Hdrive.
  { intros save. unfold _run_drive, bind at 1.
    destruct (parse_input E input st) as [[[]|e] st1] eqn:Hparse;
      apply parse_input_outcome in Hparse.
    - destruct Hparse as [p Hp]. unfold bind at 1, get_parser. rewrite Hp.
      apply (follows_documented drive_errors
               (let* driver_return := _run_driver_from_parser E (VObj p) save in
                attach_input E driver_return)%py).
      apply RuleFacts.follows_bind; [apply run_driver_from_parser_documented|].
      intros dr. follow.
    - cbn [fst documented]. destruct Hparse as [->|[n ->]]; [|exact I].
      left. reflexivity. }
  split; [|split; [|split; [|split]]].
  - unfold run, bind at 1.
    destruct (parse_input E input st) as [[[]|e] st1] eqn:Hparse;
      apply parse_input_outcome in Hparse.
    + destruct Hparse as [p Hp]. unfold bind at 1, get_parser. rewrite Hp.
      match goal with |- documented _ (fst (?m st1)) =>
        apply (follows_documented run_errors m)
      end.
      apply RuleFacts.follows_bind.
      * unfold _run_driver_from_parser. follow; documented_raise.
      * intros dr. follow. documented_raise.
    + cbn [fst documented]. destruct Hparse as [->|[n ->]]; [|exact I].
      left. left. reflexivity.
  - apply Hdrive.
  - unfold run_drive_to_jsonfile. destruct (is_none jsonfile).
    { right. reflexivity. }
    unfold bind at 1. specialize (Hdrive true).
    destruct (_run_drive E input true st) as [[data|e] st1].
    + match goal with |- documented _ (fst (?m st1)) =>
        apply (follows_documented _ m)
      end.
      follow.
    + cbn [fst documented] in *. destruct e; auto.
  - intros [H|H]; [exact (drive_errors_not_missing_parser H)|discriminate].
  - discriminate.
Qed.

Lemma follows_trace {A} (P : event -> Prop) (m : M X A) (st : state X) :
  follows (only_logs P) m ->
  exists evs, trace (snd (m st)) = trace st ++ evs /\ Forall P evs.
Proof.
  intros Hm. destruct (m st) as [r st'] eqn:Hrun.
  exact (proj1 (Hm _ _ _ Hrun)).
Qed.

Lemma set_parser_only_logs (P : event -> Prop) p :
  follows (only_logs P) (@set_parser X p).
Proof.
  intros st r st' [= <- <-]. split; [|discriminate].
  exists []. cbn. rewrite app_nil_r. auto.
Qed.

Lemma parse_input_only_logs (P : event -> Prop) input :
  (forall v, P (EvNewParser v)) -> (forall p, P (EvParse p)) ->
  follows (only_logs P) (parse_input E input).
Proof.
  intros Hnew Hparse. unfold parse_input. destruct (is_none input).
  - apply RuleFacts.follows_raise. exact I.
  - apply RuleFacts.follows_bind; [apply RuleFacts.follows_call; apply Hnew|].
    intros p. apply RuleFacts.follows_bind; [apply set_parser_only_logs|].
    intros _. apply RuleFacts.follows_call. apply Hparse.
Qed.

Lemma bind_congr {A B} (m m' : M X A) (k : A -> M X B) (st st' : state X) :
  m st = m' st' -> bind m k st = bind m' k st'.
Proof. unfold bind. intros ->. reflexivity. Qed.

(** X3. Without an output path the only file [run] and [run_drive] can
    write is the HDF5 file of the molecule: whatever the outcome, they
    open no file for writing, print no line to a file, dump nothing and
    save no input file.  When moreover the driver section configures no
    [hdf5_output] and the stages up to the driver succeed, they write
    no file at all. *)
Theorem nothing_written_without_output (input : pyval) (st : state X) :
  (exists evs,
     trace (snd (run E input VNone st)) = trace st ++ evs
     /\ Forall (fun e => writes_other_file e = false) evs)
  /\ (exists evs,
       trace (snd (run_drive E input st)) = trace st ++ evs
       /\ Forall (fun e => writes_other_file e = false) evs)
  /\ forall dv,
       drives E input st dv -> dv_hdf5 dv = VNone ->
       (exists evs,
          trace (snd (run E input VNone st)) = trace st ++ evs
          /\ Forall (fun e => writes_file e = false) evs)
       /\ (exists evs,
            trace (snd (run_drive E input st)) = trace st ++ evs
            /\ Forall (fun e => writes_file e = false) evs).
Proof.
  split; [|split].
  - apply follows_trace. unfold run, algorithm_stage. cbn [is_none negb].
    apply RuleFacts.follows_bind; [apply parse_input_only_logs; reflexivity|].
    intros _. follow.
  - apply follows_trace. unfold run_drive, _run_drive.
    apply RuleFacts.follows_bind; [apply parse_input_only_logs; reflexivity|].
    intros _. follow.
  - intros dv Hdrives Hnone.
    destruct (drives_reaches E input st dv VNone Hdrives) as
      (st1 & description & Hparse & Hp & Hrun).
    { intros s. rewrite Hnone. apply resolve_hdf5_file_none. }
    assert (forall save,
              _run_driver_from_parser E (VObj (dv_parser dv)) save st1 =
                algorithm_input E (dv_parser dv) (dv_name dv) (dv_molecule dv)
                  (driven_state E input st dv description)) as Hgoes.
    { intros save. rewrite Hrun. reflexivity. }
    assert (forall {A} (k : list pyval -> M X A),
              (forall dr, follows (only_logs (fun e => writes_file e = false)) (k dr)) ->
              exists evs,
                trace (snd (bind (algorithm_input E (dv_parser dv) (dv_name dv)
                                    (dv_molecule dv)) k
                              (driven_state E input st dv description)))
                  = trace st ++ evs
                /\ Forall (fun e => writes_file e = false) evs) as Hrest.
    { intros A k Hk.
      destruct (follows_trace (fun e => writes_file e = false)
                  (bind (algorithm_input E (dv_parser dv) (dv_name dv)
                           (dv_molecule dv)) k)
                  (driven_state E input st dv description)) as (evs & Htrace & Hevs).
      { apply RuleFacts.follows_bind; [follow|exact Hk]. }
      exists (drive_events E input dv description ++ evs).
      rewrite Htrace. cbn [trace driven_state]. rewrite <- app_assoc.
      split; [reflexivity|]. apply Forall_app. split; [repeat constructor|exact Hevs]. }
    split.
    + rewrite (run_parsed E _ _ _ _ _ Hparse Hp).
      rewrite (bind_congr _ _ _ _ _ (Hgoes false)).
      apply Hrest. intros dr. unfold algorithm_stage. cbn [is_none negb]. follow.
    + unfold run_drive. rewrite (run_drive_parsed E _ _ _ _ _ Hparse Hp).
      rewrite (bind_congr _ _ _ _ _ (Hgoes false)).
      apply Hrest. intros dr. follow.
Qed.

(** X4. [with open(output, 'w') as f] in [run] (lines 94 to 96): when the
    file cannot be opened the exception propagates and nothing else
    happens; once it is open it is closed however the loop ends, and
    between the opening and the closing the log only has lines printed
    to that file. *)
Theorem output_file_is_closed (output lines : pyval) (st : state X) :
  match open_write E output (wld st) with
  | (Throw e, w) =>
      write_lines E output lines st =
        (Raises (Propagated e), with_world (logged st [EvOpenWrite output]) w)
  | (Reply _, w) =>
      exists evs,
        trace (snd (write_lines E output lines st)) =
          trace st ++ EvOpenWrite output :: evs ++ [EvClose output]
        /\ Forall (fun e => exists text, e = EvPrintTo output text) evs
  end.
Proof.
  destruct (open_write E output (wld st)) as [[[]|e] w] eqn:Hopen;
    unfold write_lines, bind at 1, call at 1; rewrite Hopen; [|reflexivity].
  set (st1 := with_world (logged st [EvOpenWrite output]) w).
  unfold finally.
  match goal with |- context [?body st1] =>
    match type of body with M X unit =>
      assert (follows (only_logs (fun e => exists text, e = EvPrintTo output text)) body)
        as Hbody by (follow; apply RuleFacts.follows_call; cbn; eauto);
      destruct (body st1) as [r st2] eqn:Hrun
    end
  end.
  destruct (Hbody _ _ _ Hrun) as [(evs & Htrace & Hevs) _].
  exists evs. split; [|exact Hevs].
  unfold emit. cbn [snd trace logged]. rewrite Htrace.
  subst st1. cbn [trace with_world logged]. rewrite <- !app_assoc. reflexivity.
Qed.

Lemma print_each output (texts : list string) :
  (forall text w, exists w', print_to E output text w = (Reply tt, w')) ->
  forall st : state X,
    exists st',
      for_each (map VStr texts)
        (fun line =>
           let* text := py_str E line in
           call (EvPrintTo output text) (print_to E output text))%py st
        = (Returns tt, st')
      /\ trace st' = trace st ++ map (EvPrintTo output) texts.
Proof.
  intros Hprint. induction texts as [|text rest IH]; intros st; cbn [map for_each].
  - exists st. rewrite app_nil_r. split; reflexivity.
  - destruct (Hprint text (wld st)) as [w' Hw].
    destruct (IH (with_world (logged st [EvPrintTo output text]) w')) as (st' & Hrest & Htrace).
    exists st'. unfold bind at 1. unfold py_str, bind, ret, call. rewrite Hw.
    split; [exact Hrest|]. rewrite Htrace. cbn [trace with_world logged].
    rewrite <- app_assoc. reflexivity.
Qed.

(** X5. Lines 94 to 96 when nothing fails: the file is opened, the lines of
    the result are printed to it one by one in their order, and the file
    is closed. *)
Theorem output_lines_in_order (output lines : pyval) (texts : list string)
  (st : state X) (w : world X) :
  open_write E output (wld st) = (Reply tt, w) ->
  Heap.iterate (w_heap w) lines = Returns (map VStr texts) ->
  (forall text w, exists w', print_to E output text w = (Reply tt, w')) ->
  fst (write_lines E output lines st) = Returns tt
  /\ trace (snd (write_lines E output lines st)) =
       trace st ++ EvOpenWrite output :: map (EvPrintTo output) texts
                ++ [EvClose output].
Proof.
  intros Hopen Hlines Hprint.
  set (st1 := with_world (logged st [EvOpenWrite output]) w).
  destruct (print_each output texts Hprint st1) as (st' & Hrun & Htrace).
  assert (write_lines E output lines st = (Returns tt, logged st' [EvClose output]))
    as ->.
  { unfold write_lines.
    rewrite (bind_returns _ _ _ _ _ (call_reply _ _ _ _ _ Hopen)). fold st1.
    unfold finally.
    assert (on_heap (fun h => Heap.iterate h lines) st1
              = (Returns (map VStr texts), st1)) as Hitems.
    { unfold on_heap. subst st1. cbn [wld with_world w_heap]. rewrite Hlines.
      reflexivity. }
    rewrite (bind_returns _ _ _ _ _ Hitems). rewrite Hrun. reflexivity. }
  cbn [fst snd trace logged]. split; [reflexivity|].
  rewrite Htrace. subst st1. cbn [trace with_world logged].
  rewrite <- !app_assoc. reflexivity.
Qed.

(** X6. [with open(jsonfile) as json_file] in [run_algorithm_from_jsonfile]
    (lines 127 and 128): a file that cannot be opened is not closed and
    nothing is loaded; a file that is open is closed whatever the load
    and the algorithm do; when the load fails the runner is not called;
    and otherwise the outcome is that of [run_algorithm_from_json] on
    the loaded parameters. *)
Theorem json_file_is_closed (jsonfile output : pyval) (st : state X) :
  match open_read E jsonfile (wld st) with
  | (Throw e, w) =>
      run_algorithm_from_jsonfile E jsonfile output st =
        (Raises (Propagated e), with_world (logged st [EvOpenRead jsonfile]) w)
  | (Reply _, w) =>
      let opened := with_world (logged st [EvOpenRead jsonfile]) w in
      (exists evs,
         trace (snd (run_algorithm_from_jsonfile E jsonfile output st)) =
           trace st ++ EvOpenRead jsonfile :: evs ++ [EvClose jsonfile])
      /\ match json_load E jsonfile w with
         | (Throw e, w') =>
             run_algorithm_from_jsonfile E jsonfile output st =
               (Raises (Propagated e),
                logged (with_world (logged opened [EvJsonLoad jsonfile]) w')
                  [EvClose jsonfile])
         | (Reply params, w') =>
             let loaded := with_world (logged opened [EvJsonLoad jsonfile]) w' in
             run_algorithm_from_jsonfile E jsonfile output st =
               (fst (run_algorithm_from_json E params output loaded),
                logged (snd (run_algorithm_from_json E params output loaded))
                  [EvClose jsonfile])
         end
  end.
Proof.
  destruct (open_read E jsonfile (wld st)) as [[[]|e] w] eqn:Hopen;
    [|unfold run_algorithm_from_jsonfile, bind at 1, call at 1; rewrite Hopen;
      reflexivity].
  cbv zeta. set (opened := with_world (logged st [EvOpenRead jsonfile]) w).
  assert (run_algorithm_from_jsonfile E jsonfile output st =
            finally
              (let* params := call (EvJsonLoad jsonfile) (json_load E jsonfile) in
               run_algorithm_from_json E params output)%py
              (emit (EvClose jsonfile)) opened) as ->.
  { unfold run_algorithm_from_jsonfile, bind at 1, call at 1. rewrite Hopen.
    reflexivity. }
  split.
  - unfold finally.
    match goal with |- context [?body opened] =>
      match type of body with M X pyval =>
        assert (follows (only_logs (fun _ => True)) body) as Hbody by follow;
        destruct (body opened) as [r st2] eqn:Hrun
      end
    end.
    destruct (Hbody _ _ _ Hrun) as [(evs & Htrace & _) _].
    exists evs. unfold emit. cbn [snd trace logged]. rewrite Htrace.
    subst opened. cbn [trace with_world logged]. rewrite <- !app_assoc. reflexivity.
  - destruct (json_load E jsonfile w) as [[params|e] w'] eqn:Hload; unfold finally.
    + rewrite (bind_returns _ _ _ _ _ (call_reply _ _ opened _ _ Hload)).
      destruct (run_algorithm_from_json E params output
                  (with_world (logged opened [EvJsonLoad jsonfile]) w')) as [r st2].
      reflexivity.
    + rewrite (bind_raises _ _ _ _ _ (call_throw _ _ opened _ _ Hload)).
      reflexivity.
Qed.

(** X7. Lines 121 to 124 of [run_drive_to_jsonfile], after a drive step
    that returned [data]: the JSON file is closed whether the dump
    succeeds or not, and the line that reports the saved file is printed
    only after a dump that succeeded. *)
Theorem dump_reports_after_success (input : pyval) (name : string) (data : pyval)
  (st st' : state X) :
  _run_drive E input true st = (Returns data, st') ->
  let jsonfile := VStr name in
  match open_write E jsonfile (wld st') with
  | (Throw e, w) =>
      run_drive_to_jsonfile E input jsonfile st =
        (Raises (Propagated e), with_world (logged st' [EvOpenWrite jsonfile]) w)
  | (Reply _, w) =>
      match json_dump E jsonfile data w with
      | (Throw e, w') =>
          run_drive_to_jsonfile E input jsonfile st =
            (Raises (Propagated e),
             with_world
               (logged st'
                  [EvOpenWrite jsonfile; EvJsonDump jsonfile data; EvClose jsonfile])
               w')
      | (Reply _, w') =>
          run_drive_to_jsonfile E input jsonfile st =
            (Returns tt,
             with_world
               (logged st'
                  [EvOpenWrite jsonfile; EvJsonDump jsonfile data; EvClose jsonfile;
                   EvStdout ("Algorithm input file saved: '" +:+ name +:+ "'")])
               w')
      end
  end.
Proof.
  intros Hdrive jsonfile. subst jsonfile.
  assert (is_none data = false) as Hdata.
  { pose proof Hdrive as Hreturned. unfold _run_drive in Hreturned.
    apply bind_inv in Hreturned as (u & s1 & _ & Hreturned).
    apply bind_inv in Hreturned as (q & s2 & _ & Hreturned).
    apply bind_inv in Hreturned as (dr & s3 & _ & Hreturned).
    apply Stability.attach_input_returns in Hreturned as (l & -> & _). reflexivity. }
  unfold run_drive_to_jsonfile.
  cbn [is_none].
  rewrite (bind_returns _ _ _ _ _ Hdrive). rewrite Hdata.
  destruct (open_write E (VStr name) (wld st')) as [[[]|e] w] eqn:Hopen;
    unfold dump_json.
  2: { rewrite (bind_raises _ _ _ _ _ (call_throw _ _ _ _ _ Hopen)). reflexivity. }
  rewrite (bind_returns _ _ _ _ _ (call_reply _ _ _ _ _ Hopen)).
  set (st1 := with_world (logged st' [EvOpenWrite (VStr name)]) w).
  destruct (json_dump E (VStr name) data w) as [[[]|e] w'] eqn:Hdump.
  - assert (finally (call (EvJsonDump (VStr name) data) (json_dump E (VStr name) data))
              (emit (EvClose (VStr name))) st1
            = (Returns tt,
               logged (with_world (logged st1 [EvJsonDump (VStr name) data]) w')
                 [EvClose (VStr name)])) as Hfin.
    { unfold finally. rewrite (call_reply _ _ st1 _ _ Hdump). reflexivity. }
    rewrite (bind_returns _ _ _ _ _ Hfin).
    unfold emit, py_str, bind, ret, logged, with_world. subst st1.
    cbn [wld _parser _core trace with_world logged]. rewrite <- !app_assoc. reflexivity.
  - assert (finally (call (EvJsonDump (VStr name) data) (json_dump E (VStr name) data))
              (emit (EvClose (VStr name))) st1
            = (Raises (Propagated e),
               logged (with_world (logged st1 [EvJsonDump (VStr name) data]) w')
                 [EvClose (VStr name)])) as Hfin.
    { unfold finally. rewrite (call_throw _ _ st1 _ _ Hdump). reflexivity. }
    rewrite (bind_raises _ _ _ _ _ Hfin).
    unfold logged, with_world. subst st1.
    cbn [wld _parser _core trace with_world logged]. rewrite <- !app_assoc. reflexivity.
Qed.

Lemma bind_trace_extends {A B} (P : event -> Prop) (m : M X A) (k : A -> M X B)
  (st : state X) :
  (forall a, follows (only_logs P) (k a)) ->
  exists evs,
    trace (snd (bind m k st)) = trace (snd (m st)) ++ evs /\ Forall P evs.
Proof.
  intros Hk. unfold bind. destruct (m st) as [[a|e] st1]; cbn [snd].
  - apply follows_trace. apply Hk.
  - exists []. rewrite app_nil_r. auto.
Qed.

Lemma algorithm_input_logs (P : event -> Prop) p dn mol (st : state X) :
  (forall e, is_molecule_save e = false -> P e) ->
  exists operator evs,
    trace (snd (algorithm_input E p dn mol st)) =
      trace st ++ EvGetOperator operator :: evs
    /\ Forall P evs.
Proof.
  intros HP. unfold algorithm_input, run_operator.
  rewrite !bind_assoc.
  erewrite bind_returns; [|reflexivity].
  cbv beta. rewrite bind_assoc. eexists.
  apply (Stability.call_then_logs (A:=nat) (B:=list pyval)).
  intros core.
  assert (forall {A} (m : M X A),
            follows (only_logs (fun e => is_molecule_save e = false)) m ->
            follows (only_logs P) m) as Hweaken.
  { intros A m Hm s r s' Hrun. destruct (Hm _ _ _ Hrun) as [(evs & Htrace & Hevs) _].
    split; [|intros; exact I]. exists evs. split; [exact Htrace|].
    eapply Forall_impl; [exact Hevs|]. exact HP. }
  apply Hweaken. follow.
Qed.

(** X8. Lines 208 to 216 when the driver section has no [hdf5_output]: the
    molecule is never saved, the flag of the staging makes no
    difference to the drive step, and [run] goes on to the operator once
    the molecule is logged. *)
Theorem no_path_no_save (input output : pyval) (st : state X) (dv : driven) :
  drives E input st dv ->
  dv_hdf5 dv = VNone ->
  run_drive E input st = _run_drive E input true st
  /\ exists description operator evs,
       trace (snd (run E input output st)) =
         trace st ++ drive_events E input dv description
                  ++ EvGetOperator operator :: evs
       /\ Forall (fun e => is_molecule_save e = false)
            (drive_events E input dv description ++ EvGetOperator operator :: evs).
Proof.
  intros Hdrives Hnone.
  destruct (drives_reaches E input st dv VNone Hdrives) as
    (st1 & description & Hparse & Hp & Hrun).
  { intros s. rewrite Hnone. apply resolve_hdf5_file_none. }
  assert (forall save,
            _run_driver_from_parser E (VObj (dv_parser dv)) save st1 =
              algorithm_input E (dv_parser dv) (dv_name dv) (dv_molecule dv)
                (driven_state E input st dv description)) as Hgoes.
  { intros save. rewrite Hrun. reflexivity. }
  split.
  - unfold run_drive. rewrite !(run_drive_parsed E _ _ _ _ _ Hparse Hp).
    rewrite !(bind_congr _ _ _ _ _ (Hgoes _)). reflexivity.
  - rewrite (run_parsed E _ _ _ _ _ Hparse Hp).
    rewrite (bind_congr _ _ _ _ _ (Hgoes false)).
    match goal with |- context [snd (bind ?m ?k ?s)] =>
      destruct (bind_trace_extends (fun e => is_molecule_save e = false) m k s)
        as (evs2 & Htrace2 & Hevs2); [intros dr; follow|rewrite Htrace2]
    end.
    destruct (algorithm_input_logs (fun e => is_molecule_save e = false)
                (dv_parser dv) (dv_name dv) (dv_molecule dv)
                (driven_state E input st dv description)) as (op & evs1 & Htrace1 & Hevs1);
      [auto|].
    rewrite Htrace1. exists description, op, (evs1 ++ evs2).
    cbn [trace driven_state]. rewrite <- !app_assoc. split; [reflexivity|].
    apply Forall_app. split; [repeat constructor|].
    constructor; [reflexivity|]. apply Forall_app. auto.
Qed.

Lemma getitem_after_setitem h c k v h' :
  Heap.setitem h c k v = Returns h' -> Heap.getitem h' c k = Returns v.
Proof.
  unfold Heap.setitem, Heap.getitem. destruct c as [| | | |l|]; try discriminate.
  destruct (h !! l) as [[items|elems]|] eqn:Hl; try discriminate.
  intros [= <-]. rewrite list_lookup_insert_eq by (eapply lookup_lt_Some; eauto).
  rewrite dict_get_set_same. reflexivity.
Qed.

Lemma dict_get_set_other items k v k' :
  k' <> k -> dict_get (dict_set items k v) k' = dict_get items k'.
Proof.
  intros Hne. induction items as [|[k0 v0] rest IH]; simpl.
  - destruct (String.eqb k k') eqn:Heq; [|reflexivity].
    apply String.eqb_eq in Heq. congruence.
  - destruct (String.eqb k0 k) eqn:Hk; simpl.
    + apply String.eqb_eq in Hk. subst k0.
      destruct (String.eqb k k') eqn:Heq; [|reflexivity].
      apply String.eqb_eq in Heq. congruence.
    + rewrite IH. reflexivity.
Qed.

Lemma getitem_other_key h c k v h' c' k' v' :
  Heap.setitem h c k v = Returns h' -> k' <> k ->
  Heap.getitem h c' k' = Returns v' -> Heap.getitem h' c' k' = Returns v'.
Proof.
  unfold Heap.setitem, Heap.getitem. destruct c as [| | | |l|]; try discriminate.
  destruct (h !! l) as [[items|elems]|] eqn:Hl; try discriminate.
  intros [= <-] Hne. destruct c' as [| | | |l'|]; try discriminate.
  destruct (decide (l = l')) as [<-|Hl'].
  - rewrite Hl, list_lookup_insert_eq by (eapply lookup_lt_Some; eauto).
    rewrite dict_get_set_other by exact Hne. auto.
  - rewrite list_lookup_insert_ne by exact Hl'. auto.
Qed.

Lemma on_heap_inv {A} (f : list pyobj -> outcome A) (st : state X) a st' :
  on_heap f st = (Returns a, st') -> f (w_heap (wld st)) = Returns a /\ st' = st.
Proof.
  unfold on_heap. destruct (f (w_heap (wld st))); intros [= <- <-]; auto.
Qed.

Lemma update_heap_inv (f : list pyobj -> outcome (list pyobj)) (st : state X) u st' :
  update_heap f st = (Returns u, st') ->
  exists h, f (w_heap (wld st)) = Returns h /\ st' = with_heap st h.
Proof.
  unfold update_heap. intros H. apply bind_inv in H as (h & st1 & Hf & Hset).
  apply on_heap_inv in Hf as [Hf ->]. injection Hset as _ <-. eauto.
Qed.

Lemma tuple_get_inv t i (st : state X) v st' :
  tuple_get t i st = (Returns v, st') -> t !! i = Some v /\ st' = st.
Proof.
  unfold tuple_get. destruct (t !! i); [|discriminate]. intros [= <- <-]. auto.
Qed.

(** X9. Lines 162 to 164.  When [_run_drive] returns, the value is the
    mapping [driver_return[1]] of the tuple that
    [_run_driver_from_parser] returned for the new parser.  The
    algorithm input [driver_return[2]] of that tuple was asked for its
    parameters, which were stored in the mapping under [input]; the same
    algorithm input was then asked for the name of its configuration,
    which was stored under [name] in what the mapping then had under
    [input]; nothing else was logged.  In the final heap the mapping has
    this object under [input] and it has that name under [name]; it is
    the mapping the algorithm input declared when the second call left
    the heap alone. *)
Theorem drive_attaches_input (input : pyval) (save : bool) (st : state X)
  (data : pyval) (st' : state X) :
  _run_drive E input save st = (Returns data, st') ->
  exists p st1 driver_return s io declared w1 h1 name w2 inner,
    parse_input E input st = (Returns tt, st1)
    /\ _parser st1 = VObj p
    /\ _run_driver_from_parser E (VObj p) save st1 = (Returns driver_return, s)
    /\ driver_return !! 1 = Some data
    /\ driver_return !! 2 = Some (VObj io)
    /\ to_params E io (wld s) = (Reply declared, w1)
    /\ Heap.setitem (w_heap w1) data "input" declared = Returns h1
    /\ configuration_name E io {| w_heap := h1; w_ext := w_ext w1 |}
         = (Reply name, w2)
    /\ Heap.getitem (w_heap w2) data "input" = Returns inner
    /\ Heap.setitem (w_heap w2) inner "name" name = Returns (w_heap (wld st'))
    /\ w_ext (wld st') = w_ext w2
    /\ trace st' = trace s ++ [EvToParams io; EvConfigurationName io]
    /\ Heap.getitem (w_heap (wld st')) data "input" = Returns inner
    /\ Heap.getitem (w_heap (wld st')) inner "name" = Returns name
    /\ (w_heap w2 = h1 -> inner = declared).
Proof.
  intros H. unfold _run_drive in H.
  apply bind_inv in H as ([] & st1 & Hparse & H).
  pose proof (parse_input_outcome _ _ _ _ Hparse) as [p Hp].
  apply bind_inv in H as (q & s2 & Hq & H).
  unfold get_parser in Hq. injection Hq as <- <-. rewrite Hp in H.
  apply bind_inv in H as (dr & s & Hdrive & H).
  unfold attach_input in H.
  apply bind_inv in H as (io & s4 & Hio & H).
  apply tuple_get_inv in Hio as [Hio ->].
  apply bind_inv in H as (declared & s5 & Hdeclared & H).
  destruct io as [| | | | |i]; try discriminate.
  apply call_inv in Hdeclared as (w1 & Hto & ->).
  apply bind_inv in H as (target & s6 & Htarget & H).
  apply tuple_get_inv in Htarget as [Htarget ->].
  apply bind_inv in H as (u1 & s7 & Hset1 & H).
  apply update_heap_inv in Hset1 as (h1 & Hset1 & ->).
  apply bind_inv in H as (io2 & s8 & Hio2 & H).
  apply tuple_get_inv in Hio2 as [Hio2 ->].
  assert (io2 = VObj i) as -> by congruence.
  apply bind_inv in H as (name & s9 & Hname & H).
  apply call_inv in Hname as (w2 & Hcfg & ->).
  apply bind_inv in H as (target2 & s10 & Htarget2 & H).
  apply tuple_get_inv in Htarget2 as [Htarget2 ->].
  assert (target2 = target) as -> by congruence.
  apply bind_inv in H as (inner & s11 & Hinner & H).
  apply on_heap_inv in Hinner as [Hinner ->].
  apply bind_inv in H as (u2 & s12 & Hset2 & H).
  apply update_heap_inv in Hset2 as (h2 & Hset2 & ->).
  apply tuple_get_inv in H as [Hdata ->].
  assert (target = data) as -> by congruence.
  cbn [wld w_heap w_ext with_heap with_world logged trace] in *.
  exists p, st1, dr, s, i, declared, w1, h1, name, w2, inner.
  split; [exact Hparse|]. split; [exact Hp|]. split; [exact Hdrive|].
  split; [exact Hdata|]. split; [exact Hio|]. split; [exact Hto|].
  split; [exact Hset1|]. split; [exact Hcfg|]. split; [exact Hinner|].
  split; [exact Hset2|]. split; [reflexivity|].
  split; [rewrite <- app_assoc; reflexivity|].
  split; [eapply getitem_other_key; [exact Hset2|discriminate|exact Hinner]|].
  split; [eapply getitem_after_setitem; exact Hset2|].
  intros Hsame. rewrite Hsame in Hinner.
  rewrite (getitem_after_setitem _ _ _ _ _ Hset1) in Hinner. congruence.
Qed.

Lemma algorithm_stage_printable dr (st : state X) result st' :
  algorithm_stage E dr VNone st = (Returns result, st') ->
  exists lines,
    Heap.getitem (w_heap (wld st')) result "printable" = Returns lines.
Proof.
  unfold algorithm_stage. cbn [is_none negb]. intros H.
  apply bind_inv in H as (params & s1 & _ & H).
  apply bind_inv in H as (io & s2 & _ & H).
  apply bind_inv in H as (data & s3 & _ & H).
  apply bind_inv in H as (w & s4 & _ & H).
  destruct (negb (is_dict (w_heap w) data)); [discriminate|].
  apply bind_inv in H as (u & s5 & _ & H).
  apply bind_inv in H as ([lines res] & s6 & _ & H).
  apply bind_inv in H as (u1 & s7 & _ & H).
  apply bind_inv in H as (u2 & s8 & Hset & H).
  apply bind_inv in H as (u3 & s9 & Hret & H).
  injection Hret as _ <-. injection H as <- <-.
  apply update_heap_inv in Hset as (h & Hset & ->).
  exists lines. cbn [wld w_heap with_heap with_world].
  eapply getitem_after_setitem. exact Hset.
Qed.

(** X10. Lines 79 and 91 of [run]: without an output path, whatever [run]
    returns is a mapping with the key [printable], after the short
    circuit of the saved molecule as after the algorithm. *)
Theorem run_result_is_printable (input : pyval) (st : state X)
  (result : pyval) (st' : state X) :
  run E input VNone st = (Returns result, st') ->
  exists lines,
    Heap.getitem (w_heap (wld st')) result "printable" = Returns lines.
Proof.
  intros H. unfold run in H.
  apply bind_inv in H as (u & s1 & _ & H).
  apply bind_inv in H as (q & s2 & _ & H).
  apply bind_inv in H as (dr & s3 & _ & H).
  apply bind_inv in H as (tag & s4 & _ & H).
  destruct (py_eqb tag (VInt _DRIVER_RUN_TO_HDF5)).
  - apply bind_inv in H as (u1 & s5 & _ & H).
    apply bind_inv in H as (text & s6 & _ & H).
    apply bind_inv in H as (lines & s7 & _ & H).
    unfold alloc in H. injection H as <- <-. exists lines.
    unfold Heap.getitem. cbn [wld w_heap with_heap with_world].
    rewrite list_lookup_middle by reflexivity. reflexivity.
  - eapply algorithm_stage_printable. exact H.
Qed.

Lemma print_items (w : world X) (items : list (string * pyval)) :
  forall st : state X,
    wld st = w ->
    for_each items
      (fun kv =>
         let* text := py_str E (snd kv) in
         emit (EvStdout ("'" +:+ fst kv +:+ "': " +:+ text)))%py st
      = (Returns tt, logged st (map (fun kv => EvStdout (item_line E w kv)) items)).
Proof.
  induction items as [|[k v] rest IH]; intros st Hw; cbn [for_each map].
  - unfold ret, logged. rewrite app_nil_r. destruct st; reflexivity.
  - unfold bind at 1.
    assert ((let* text := py_str E (snd (k, v)) in
             emit (EvStdout ("'" +:+ fst (k, v) +:+ "': " +:+ text)))%py st
            = (Returns tt, logged st [EvStdout (item_line E w (k, v))])) as ->.
    { unfold item_line, shown, py_str. cbn [fst snd].
      destruct v; unfold bind, ret, get_world, emit; rewrite ?Hw; reflexivity. }
    rewrite IH by exact Hw. unfold logged. cbn [wld _parser _core trace].
    rewrite <- app_assoc. reflexivity.
Qed.

(** X11. Lines 131 to 146: when the runner answers a dictionary,
    [run_algorithm_from_json] returns that dictionary, leaves the
    instance alone and prints [Output:] and then one line for each item
    of the result, in the order of the dictionary. *)
Theorem staged_result_is_printed (params output : pyval) (st : state X)
  (data : pyval) (w w' : world X) (items : list (string * pyval)) :
  run_algorithm E params VNone (wld st) = (Reply data, w) ->
  is_dict (w_heap w) data = true ->
  convert_json_to_dict E data w = (Reply tt, w') ->
  Heap.items (w_heap w') data = Returns items ->
  run_algorithm_from_json E params output st =
    (Returns data,
     {| wld := w'; _parser := _parser st; _core := _core st;
        trace := trace st ++
          [EvRunAlgorithm params VNone; EvConvert data; EvStdout "Output:"]
          ++ map (fun kv => EvStdout (item_line E w' kv)) items |}).
Proof.
  intros Hrun Hdict Hconvert Hitems. unfold run_algorithm_from_json.
  rewrite (bind_returns _ _ _ _ _ (call_reply _ _ _ _ _ Hrun)).
  unfold bind at 1, get_world. cbn [wld with_world]. rewrite Hdict. cbn [negb].
  set (st1 := with_world (logged st [EvRunAlgorithm params VNone]) w).
  rewrite (bind_returns _ _ _ _ _ (call_reply _ _ st1 _ _ Hconvert)).
  set (st2 := with_world (logged st1 [EvConvert data]) w').
  assert (is_dict (w_heap w') data = true) as Hstill.
  { unfold Heap.items in Hitems. unfold is_dict.
    destruct data as [| | | |l|]; try discriminate.
    destruct (w_heap w' !! l) as [[kvs|elems]|]; try discriminate. reflexivity. }
  assert (emit (EvStdout "Output:") st2 = (Returns tt, logged st2 [EvStdout "Output:"]))
    as Hemit by reflexivity.
  rewrite (bind_returns _ _ _ _ _ Hemit).
  set (st3 := logged st2 [EvStdout "Output:"]).
  assert (get_world st3 = (Returns w', st3)) as Hworld by reflexivity.
  rewrite (bind_returns _ _ _ _ _ Hworld). rewrite Hstill.
  assert (on_heap (fun h => Heap.items h data) st3 = (Returns items, st3)) as Hread.
  { unfold on_heap. subst st3 st2. cbn [wld w_heap logged with_world].
    rewrite Hitems. reflexivity. }
  rewrite bind_assoc. rewrite (bind_returns _ _ _ _ _ Hread).
  unfold bind at 1. rewrite (print_items w') by reflexivity.
  unfold ret, logged. subst st3 st2 st1.
  cbn [wld _parser _core trace with_world logged].
  rewrite <- !app_assoc. reflexivity.
Qed.

(** X12. Lines 227 to 239, what the parameters hold.  In a heap without
    dangling references and with dictionaries of distinct keys, for a
    document whose sections have distinct names: the parameters are a
    dictionary with one item for each section that is not left out, in
    the order of the document and under the name of the section, and
    the item has the content of the properties of the section, keys,
    values and order, to every depth; for the problem section it is the
    content of the properties with the substitution marker deleted. *)
Theorem params_have_the_content_of_the_sections (p : nat) (driver_name : string)
  (st : state X) (params : pyval) (st' : state X) :
  let h0 := w_heap (wld st) in
  let sections := Parser.get_sections (document_of E p (w_ext (wld st))) in
  heap_closed h0 ->
  distinct_keys (length h0) h0 ->
  NoDup (map fst sections) ->
  (forall name section properties,
     (name, section) ∈ sections -> s_properties section = Some properties ->
     old (length h0) properties) ->
  assemble_params E p driver_name st = (Returns params, st') ->
  exists kvs,
    Heap.items (w_heap (wld st')) params = Returns kvs
    /\ Forall2
         (fun entry kv =>
            fst kv = fst entry
            /\ exists properties,
                s_properties (snd entry) = Some properties
                /\ forall depth,
                    view depth (w_heap (wld st')) (snd kv) =
                      view depth (expected_heap (fst entry) h0 properties) properties)
         (List.filter (included driver_name) sections) kvs.
Proof.
  intros h0 sections Hclosed Hkeys Hdup Hold Hrun.
  exact (assemble_params_content E p driver_name st params st'
           (conj Hclosed (conj Hkeys (conj Hdup Hold))) Hrun).
Qed.

End Coverage.

(** ** The properties above on the demonstration document *)

Module Scenario2.

Import AquaChemistry Drive Aliasing Content.

Lemma plain_drives :
  drives Demo.plain (VStr "h2.in") Demo.fresh DemoPlain.plain_driven.
Proof.
  apply (drives_intro _ _ _ _ (Demo.parsed_world false true)
           (Demo.parsed_world false true) (Demo.parsed_world false true));
    try reflexivity.
  apply Scenario.demo_validates.
Qed.

Lemma demo_heap_closed : heap_closed (Demo.demo_objects 0 false).
Proof.
  intros l o l' Hl Hin.
  do 6 (destruct l as [|l]; [injection Hl as <-; cbn in Hin;
                             repeat (apply elem_of_cons in Hin as [Hin|Hin];
                                     [try discriminate; injection Hin as ->; simpl; lia|]);
                             inversion Hin|]).
  discriminate.
Qed.

Lemma demo_distinct_keys : distinct_keys 6 (Demo.demo_objects 0 false).
Proof.
  intros l kvs _ Hl.
  do 6 (destruct l as [|l];
        [cbn in Hl; first [discriminate|injection Hl as <-];
         apply (bool_decide_unpack _); vm_compute; exact I|]).
  discriminate.
Qed.

End Scenario2.

Lemma output_lines_in_order_witness :
  let st := with_heap Demo.fresh [OList [VStr "first"; VStr "second"]] in
  trace (snd (AquaChemistry.write_lines Demo.plain (VStr "out.txt") (VRef 0) st))
    = [EvOpenWrite (VStr "out.txt");
       EvPrintTo (VStr "out.txt") "first"; EvPrintTo (VStr "out.txt") "second";
       EvClose (VStr "out.txt")].
Proof.
  intros st.
  destruct (output_lines_in_order Demo.plain (VStr "out.txt") (VRef 0)
              ["first"; "second"] st (wld st) eq_refl eq_refl) as [_ Htrace].
  - intros text w. exists w. reflexivity.
  - exact Htrace.
Defined.

Lemma dump_reports_after_success_witness :
  let staged :=
    AquaChemistry._run_drive Demo.plain (VStr "h2.in") true Demo.fresh in
  AquaChemistry.run_drive_to_jsonfile Demo.plain (VStr "h2.in") (VStr "h2.json")
    Demo.fresh
  = (Returns tt,
     logged (snd staged)
       [EvOpenWrite (VStr "h2.json"); EvJsonDump (VStr "h2.json") (VRef 6);
        EvClose (VStr "h2.json");
        EvStdout "Algorithm input file saved: 'h2.json'"]).
Proof.
  intros staged.
  assert (staged = (Returns (VRef 6), snd staged)) as Hstaged
    by (vm_compute; reflexivity).
  pose proof (dump_reports_after_success Demo.plain (VStr "h2.in") "h2.json" (VRef 6)
                Demo.fresh (snd staged) Hstaged) as H.
  vm_compute in H. vm_compute. exact H.
Defined.

Lemma no_path_no_save_witness :
  AquaChemistry.run_drive Demo.plain (VStr "h2.in") Demo.fresh
    = AquaChemistry._run_drive Demo.plain (VStr "h2.in") true Demo.fresh
  /\ Forall (fun e => Observation.is_molecule_save e = false)
       (trace (snd (AquaChemistry.run Demo.plain (VStr "h2.in") VNone Demo.fresh))).
Proof.
  destruct (no_path_no_save Demo.plain (VStr "h2.in") VNone Demo.fresh
              DemoPlain.plain_driven Scenario2.plain_drives eq_refl)
    as (Hsame & description & operator & evs & Htrace & Hevs).
  split; [exact Hsame|]. rewrite Htrace. exact Hevs.
Defined.

Lemma drive_attaches_input_witness :
  let staged :=
    AquaChemistry._run_drive Demo.cached (VStr "h2.in") true Demo.fresh in
  exists inner,
    Heap.getitem (w_heap (wld (snd staged))) (VRef 6) "input" = Returns inner
    /\ Heap.getitem (w_heap (wld (snd staged))) inner "name"
       = Returns (VStr "EnergyInput")
    /\ inner = VRef 10.
Proof.
  intros staged.
  destruct (drive_attaches_input Demo.cached (VStr "h2.in") true Demo.fresh (VRef 6)
              (snd staged))
    as (p & st1 & dr & s & io & declared & w1 & h1 & name & w2 & inner & _ & _ & _ & _
        & _ & _ & _ & _ & _ & _ & _ & _ & Hinner & _).
  - vm_compute. reflexivity.
  - exists inner. split; [exact Hinner|].
    assert (inner = VRef 10) as ->.
    { vm_compute in Hinner. injection Hinner as <-. reflexivity. }
    split; [vm_compute; reflexivity|reflexivity].
Defined.

Lemma run_result_is_printable_witness :
  let finished := AquaChemistry.run Demo.plain (VStr "h2.in") VNone Demo.fresh in
  fst finished = Returns (VRef 12)
  /\ exists lines,
       Heap.getitem (w_heap (wld (snd finished))) (VRef 12) "printable"
         = Returns lines.
Proof.
  intros finished. split; [vm_compute; reflexivity|].
  apply (run_result_is_printable Demo.plain (VStr "h2.in") Demo.fresh).
  vm_compute. reflexivity.
Defined.

Lemma staged_result_is_printed_witness :
  trace (snd (AquaChemistry.run_algorithm_from_json Demo.plain (VObj 15) VNone
                Demo.fresh))
    = [EvRunAlgorithm (VObj 15) VNone; EvConvert (VRef 0); EvStdout "Output:";
       EvStdout "'energy': -1.137"].
Proof.
  rewrite (staged_result_is_printed Demo.plain (VObj 15) VNone Demo.fresh (VRef 0)
             (snd (Demo.demo_run_algorithm true (wld Demo.fresh)))
             (snd (Demo.demo_run_algorithm true (wld Demo.fresh)))
             [("energy", VStr "-1.137")] eq_refl eq_refl eq_refl eq_refl).
  reflexivity.
Defined.

Lemma params_have_the_content_of_the_sections_witness :
  let st' :=
    snd (AquaChemistry.assemble_params Demo.plain 7 "PySCF" (Demo.parsed false)) in
  exists kvs,
    Heap.items (w_heap (wld st')) (VRef 6) = Returns kvs
    /\ map fst kvs = ["problem"; "algorithm"]
    /\ map (fun kv => Content.view 3 (w_heap (wld st')) (snd kv)) kvs
       = [Content.TDict [("energy", Content.TAtom (VStr "${computed_energy}"))];
          Content.TDict
            [("name", Content.TAtom (VStr "VQE"));
             ("initial_point",
              Content.TList [Content.TAtom (VInt 0); Content.TAtom (VInt 1)])]].
Proof.
  intros st'.
  destruct (params_have_the_content_of_the_sections Demo.plain 7 "PySCF"
              (Demo.parsed false) (VRef 6) st')
    as (kvs & Hitems & Hall).
  - exact Scenario2.demo_heap_closed.
  - exact Scenario2.demo_distinct_keys.
  - apply (bool_decide_unpack _). vm_compute. exact I.
  - intros name section properties Hin Hprops. cbn in Hin.
    repeat (apply elem_of_cons in Hin as [Hin|Hin];
            [injection Hin as -> ->; cbn in Hprops; try discriminate;
             injection Hprops as <-; simpl; lia|]).
    inversion Hin.
  - vm_compute. reflexivity.
  - exists kvs. split; [exact Hitems|].
    vm_compute in Hitems. injection Hitems as <-.
    split; vm_compute; reflexivity.
Defined.

Lemma nothing_written_without_output_witness :
  Forall (fun e => Observation.writes_file e = false)
    (trace (snd (AquaChemistry.run Demo.plain (VStr "h2.in") VNone Demo.fresh)))
  /\ List.filter Observation.writes_file
       (trace (snd (AquaChemistry.run Demo.cached (VStr "h2.in") VNone Demo.fresh)))
     = [EvMoleculeSave 12 "PySCF" "atom=H .0 .0 .0; H .0 .0 0.735"
          (VStr "/work/molecule.hdf5")].
Proof.
  destruct (nothing_written_without_output Demo.plain (VStr "h2.in") Demo.fresh)
    as (_ & _ & Hnone).
  destruct (Hnone DemoPlain.plain_driven Scenario2.plain_drives eq_refl)
    as ((evs & Htrace & Hevs) & _).
  split; [rewrite Htrace; exact Hevs|]. vm_compute. reflexivity.
Defined.
